(** * Demand forecasting service: feature engineering, model selection and
      forecast generation

    A shallow embedding of [backend/ml_service] (data_pipeline.py, models.py,
    app.py) and the properties its specification states about it.

    Conventions of the embedding.
    - Python floats are read as exact rationals ([Q]); [round(x, n)] is decimal
      rounding of the exact value with ties to even.  What the specification
      calls "rounding tolerance" is the distance between this reading and the
      binary one.  NaN, which has no rational reading, is an explicit [NaN]
      cell or [None].
    - Calendar dates are proleptic Gregorian ordinals ([date.toordinal()]), so
      [timedelta(days=i)] is the addition of [i].
    - The fitted estimators (SARIMAX results, the boosted-tree regressor, the
      recurrent network), [np.sqrt], the cast to single precision, the text
      of an exception and the calendar and trigonometric fields derived from
      a date are library code: they enter as record fields or as section
      variables, and nothing is assumed about them unless a hypothesis says
      so.
    - A raised Python exception is the [Raise] branch of [result]. *)

From Stdlib Require Import ZArith QArith Qround Qabs Lia Lqa Sorted.
From stdpp Require Import base option list gmap strings pretty.

(** ** Numbers *)

Module Num.
Local Open Scope Q_scope.

#[global] Instance Qlt_decision (x y : Q) : Decision (x < y).
Proof.
  destruct (Qlt_le_dec x y) as [H|H]; [left; exact H | right; apply Qle_not_lt, H].
Defined.

(** Nearest integer, ties to the even neighbour. *)
Definition round_half_even (x : Q) : Z :=
  let f := Qfloor x in
  match (x - inject_Z f ?= 1 # 2)%Q with
  | Lt => f
  | Gt => (f + 1)%Z
  | Eq => if Z.even f then f else (f + 1)%Z
  end.

(** [round(x, ndigits)]; the result is kept in lowest terms, so that equal
    rounded values are equal terms. *)
Definition py_round (x : Q) (ndigits : nat) : Q :=
  let p := Z.to_pos (10 ^ Z.of_nat ndigits) in
  Qred (round_half_even (x * inject_Z (Z.pos p)) # p).

(** [max(0, x)] (and [np.maximum(x, 0)] on one entry): [x] only when it
    is strictly above the zero already held. *)
Definition py_max0 (x : Q) : Q := if decide (0 < x) then x else 0.

(** [sum(xs)], accumulated from the left starting at 0, and [np.mean(xs)]. *)
Definition Qsum (xs : list Q) : Q := foldl Qplus 0 xs.
Definition Qmean (xs : list Q) : Q := Qsum xs / inject_Z (Z.of_nat (length xs)).

(** A value with at most [ndigits] decimals. *)
Definition is_decimal (ndigits : nat) (x : Q) : Prop :=
  exists z : Z, x == z # Z.to_pos (10 ^ Z.of_nat ndigits).

End Num.

(** ** Exceptions *)

Inductive exn : Set :=
| ValueError
| TypeError
| IndexError.

Inductive result (A : Type) : Type :=
| Ok (a : A)
| Raise (e : exn).
Arguments Ok {A} a.
Arguments Raise {A} e.

#[global] Instance result_ret : MRet result := fun A a => Ok a.
#[global] Instance result_bind : MBind result := fun A B k r =>
  match r with
  | Ok a => k a
  | Raise e => Raise e
  end.

#[global] Instance result_fmap : FMap result := fun A B f r =>
  match r with
  | Ok a => Ok (f a)
  | Raise e => Raise e
  end.

(** A loop that threads a state through its iterations; the first exception
    ends it.  ([mapM], the loop that collects one value per iteration, is
    stdpp's.) *)
Fixpoint foldM {A S} (f : S -> A -> result S) (s : S) (l : list A) : result S :=
  match l with
  | [] => Ok s
  | a :: l' => s' ← f s a; foldM f s' l'
  end.

(** ** Data frames *)

Module Frame.

(** One value of a derived column: a number, a label, or the undefined
    value ([NaN], also what pandas stores for a missing label). *)
Inductive Cell : Type :=
| NaN
| Num (q : Q)
| Str (s : string).

(** One row of the sales table.  The three columns every stage reads are
    fields; every other column is an entry of [cols] under its name. *)
Record Row : Type := mkRow {
  date : Z;
  item : Z;
  sales : Q;
  cols : gmap string Cell;
}.

Definition set_col (c : string) (v : Cell) (r : Row) : Row :=
  mkRow (date r) (item r) (sales r) (<[c := v]> (cols r)).

(** [df[c] = series]: the series is laid along the rows. *)
Definition assign (c : string) (series : list Cell) (df : list Row) : list Row :=
  zip_with (fun r v => set_col c v r) df series.

(** [l[-n:]] for a positive [n]: the last [n] elements, or all of [l] when
    it is shorter. *)
Definition py_tail {A} (n : nat) (l : list A) : list A := drop (length l - n) l.

(** [sort_values]: insertion of each row before the first row that is not
    strictly smaller, so rows with equal keys keep their order.  (pandas
    leaves the order of equal keys open for a single sort column; no
    statement below depends on it.) *)
Fixpoint insert_sorted {A} (lt : A -> A -> bool) (x : A) (l : list A) : list A :=
  match l with
  | [] => [x]
  | y :: l' => if lt y x then y :: insert_sorted lt x l' else x :: l
  end.

Definition sort_values {A} (lt : A -> A -> bool) (l : list A) : list A :=
  foldr (insert_sorted lt) [] l.

(** [groupby(keys).sum()]: one entry per distinct key, in increasing key
    order, holding the sum of the values under that key. *)
Fixpoint group_add {K} (cmp : K -> K -> comparison) (k : K) (v : Q)
    (acc : list (K * Q)) : list (K * Q) :=
  match acc with
  | [] => [(k, v)]
  | (k', s) :: rest =>
      match cmp k k' with
      | Lt => (k, v) :: acc
      | Eq => (k', (s + v)%Q) :: rest
      | Gt => (k', s) :: group_add cmp k v rest
      end
  end.

Definition groupby_sum {K} (cmp : K -> K -> comparison) (kvs : list (K * Q))
    : list (K * Q) :=
  foldl (fun acc kv => group_add cmp kv.1 kv.2 acc) [] kvs.

(** [df.groupby('date')['sales'].sum().sort_index().values] *)
Definition daily_total (df : list Row) : list Q :=
  (groupby_sum Z.compare ((fun r => (date r, sales r)) <$> df)).*2.

(** [l[:i]] and [l[i:]] for an integer [i]: a negative [i] counts from the
    end, and a position outside the list is clipped to it. *)
Definition py_index (i : Z) (n : nat) : nat :=
  Z.to_nat (if decide (i < 0)%Z then Z.of_nat n + i else i)%Z.

Definition slice_to {A} (i : Z) (l : list A) : list A := take (py_index i (length l)) l.
Definition slice_from {A} (i : Z) (l : list A) : list A := drop (py_index i (length l)) l.

(** [df.groupby('date')['sales'].sum().reset_index().sort_values('date')] *)
Definition daily_series (df : list Row) : list (Z * Q) :=
  groupby_sum Z.compare ((fun r => (date r, sales r)) <$> df).

End Frame.


(** ** Library code

    What the program takes from Python, pandas, numpy and the calendar
    without the repository defining it.  [sin_turns x] stands for
    [np.sin(2 * np.pi * x)] and [cos_turns x] for [np.cos(2 * np.pi * x)]; the
    [cal_] functions read a field of the calendar date with a given ordinal;
    [np_float32 x] is the single-precision number that [astype('float32')]
    makes of [x]; and [str e] is the text of [str(e)], the message of the
    exception, of which the embedding keeps the class only. *)

Class Library : Type := {
  cal_day : Z -> Z;
  cal_month : Z -> Z;
  cal_year : Z -> Z;
  cal_isoweek : Z -> Z;
  cal_yday : Z -> Z;
  sin_turns : Q -> Q;
  cos_turns : Q -> Q;
  np_sqrt : Q -> Q;
  np_float32 : Q -> Q;
  str : exn -> string;
}.

(** A stand-in for the library code, for running the definitions on
    examples: a constant calendar (1 January 2026), constant trigonometric
    values, the integer part of the square root of the integer part, a cast
    to single precision that changes nothing (the examples hold small
    integers and halves) and one message for every exception. *)
Definition example_library : Library :=
  {| cal_day := fun _ => 1%Z;
     cal_month := fun _ => 1%Z;
     cal_year := fun _ => 2026%Z;
     cal_isoweek := fun _ => 1%Z;
     cal_yday := fun _ => 1%Z;
     sin_turns := fun _ => 0%Q;
     cos_turns := fun _ => 1%Q;
     np_sqrt := fun q => inject_Z (Z.sqrt (Qfloor q));
     np_float32 := fun q => q;
     str := fun _ => "error" |}.

Module Calendar.
Section WithLibrary.
Context `{Library}.

(** [dayofweek]: Monday is 0; ordinal 1 is a Monday. *)
Definition dayofweek (d : Z) : Z := ((d + 6) `mod` 7)%Z.

(** [strftime('%A')] *)
Definition day_names : list string :=
  ["Monday"; "Tuesday"; "Wednesday"; "Thursday"; "Friday"; "Saturday"; "Sunday"].
Definition strftime_A (d : Z) : string :=
  default "" (day_names !! Z.to_nat (dayofweek d)).

(** The twelve columns computed from the date alone, under the names
    data_pipeline.py gives them (lines 234-247) and app.py overwrites
    (lines 108-119). *)
Definition date_fields (d : Z) : list (string * Q) :=
  let dow := dayofweek d in
  let month := cal_month d in
  [ ("day_of_week", inject_Z dow);
    ("day_of_month", inject_Z (cal_day d));
    ("month", inject_Z month);
    ("year", inject_Z (cal_year d));
    ("week_of_year", inject_Z (cal_isoweek d));
    ("is_weekend", if decide (5 ≤ dow)%Z then 1%Q else 0%Q);
    ("quarter", inject_Z ((month - 1) `div` 3 + 1)%Z);
    ("day_of_year", inject_Z (cal_yday d));
    ("dow_sin", sin_turns (inject_Z dow / 7)%Q);
    ("dow_cos", cos_turns (inject_Z dow / 7)%Q);
    ("month_sin", sin_turns (inject_Z month / 12)%Q);
    ("month_cos", cos_turns (inject_Z month / 12)%Q) ].
End WithLibrary.
End Calendar.

(** ** The forecast service (app.py) *)

Module App.
Import Num.

Record Confidence : Type := mkConfidence { lower : Q; upper : Q }.

(** One element of a daily forecast.  [date] is kept as the ordinal that
    [strftime('%Y-%m-%d')] prints. *)
Record ForecastPoint : Type := mkPoint {
  date : Z;
  day_name : string;
  predicted_demand : Q;
  confidence : Confidence;
}.

(** One element of a weekly or monthly forecast; [period_number] is the
    field [week_number] or [month_number]. *)
Record AggregatedPeriod : Type := mkPeriod {
  period_number : Z;
  start_date : Z;
  end_date : Z;
  total_predicted_demand : Q;
  avg_daily_demand : Q;
  period_confidence : Confidence;
}.

(** sklearn's fitted [MinMaxScaler]. *)
Record MinMaxScaler : Type := mkScaler { scale_ : Q; min_ : Q }.
Definition transform (s : MinMaxScaler) (x : Q) : Q := (x * scale_ s + min_ s)%Q.
Definition inverse_transform (s : MinMaxScaler) (y : Q) : Q := ((y - min_ s) / scale_ s)%Q.

(** What [loaded_model] can hold: the unpickled XGBoost dictionary (the
    regressor's [predict] on one feature vector, a [None] entry being NaN,
    and [feature_cols]), the fitted SARIMAX results ([forecast(steps)]), or
    the LSTM dictionary (the network's [predict] on one window, and the
    scaler). *)
Inductive Model : Type :=
| XGBoostData (predict : list (option Q) -> Q) (feature_cols : list string)
| SARIMAXResults (forecast : Z -> list Q)
| LSTMData (predict : list Q -> Q) (scaler : MinMaxScaler).

(** The module's global state. *)
Record Globals : Type := mkGlobals {
  loaded_model : option Model;
  loaded_model_name : option string;
}.

(** What a request reads from outside the process: the rows of
    processed_data.csv and today's date. *)
Record Env : Type := mkEnv {
  processed : list Frame.Row;
  today : Z;
}.

(** The query parameter of a request: absent, an integer literal, or
    text that [int] rejects. *)
Inductive QueryArg : Type :=
| NotGiven
| Integer (n : Z)
| NotInteger.

(** [int(request.args.get(name, default))] *)
Definition int_arg (default : Z) (a : QueryArg) : result Z :=
  match a with
  | NotGiven => Ok default
  | Integer n => Ok n
  | NotInteger => Raise ValueError
  end.

(** A response: the JSON body of a success (status 200; the timestamp
    [generated_at] is left out, and [horizon] is the number printed in
    [forecast_horizon]), or an error body with its status. *)
Inductive Response (A : Type) : Type :=
| Success (forecast_type : string) (model_used : option string)
          (horizon : Z) (data : list A)
| Failure (status : Z) (error : string).
Arguments Success {A}.
Arguments Failure {A}.

Definition status {A} (r : Response A) : Z :=
  match r with
  | Success _ _ _ _ => 200
  | Failure st _ => st
  end.

Definition no_model : string := "No model loaded. Run train.py first.".

Definition lookback : nat := 30.

Section WithLibrary.
Context `{Library}.

(** [float(row[col])] if [col in row.index], else [0.0]. *)
Definition feature_value (row : Frame.Row) (col : string) : result (option Q) :=
  if decide (col = "date") then Raise TypeError
  else if decide (col = "item") then Ok (Some (inject_Z (Frame.item row)))
  else if decide (col = "sales") then Ok (Some (Frame.sales row))
  else match Frame.cols row !! col with
       | Some (Frame.Num q) => Ok (Some q)
       | Some Frame.NaN => Ok None
       | Some (Frame.Str _) => Raise ValueError
       | None => Ok (Some 0%Q)
       end.

Definition point (forecast_date : Z) (pred lo hi : Q) : ForecastPoint :=
  {| date := forecast_date;
     day_name := Calendar.strftime_A forecast_date;
     predicted_demand := py_round pred 1;
     confidence := {| lower := py_round (py_max0 (pred * lo)) 1;
                      upper := py_round (pred * hi) 1 |} |}.

Definition generate_xgboost_forecast (env : Env) (g : Globals) (days : Z)
    : result (list ForecastPoint) :=
  match loaded_model g with
  | Some (XGBoostData predict feature_cols) =>
      let df := Frame.sort_values (fun a b => Frame.date a <? Frame.date b)%Z
                  (processed env) in
      last_row ← match last df with
                 | Some r => Ok r
                 | None => Raise IndexError
                 end;
      let base_date := today env in
      mapM (fun i =>
              let forecast_date := (base_date + i)%Z in
              let row := foldl (fun r kv => Frame.set_col kv.1 (Frame.Num kv.2) r)
                           last_row (Calendar.date_fields forecast_date) in
              features ← mapM (feature_value row) feature_cols;
              let pred := py_max0 (predict features) in
              Ok (point forecast_date pred 0.85 1.15))
           (seqZ 0 days)
  | _ => Raise TypeError
  end.

Definition generate_arima_forecast (env : Env) (g : Globals) (days : Z)
    : result (list ForecastPoint) :=
  match loaded_model g with
  | Some (SARIMAXResults forecast) =>
      let forecast := py_max0 <$> forecast days in
      let base_date := today env in
      Ok (imap (fun i val => point (base_date + Z.of_nat i)%Z val 0.80 1.20) forecast)
  | _ => Raise TypeError
  end.

(** The state of the loop of [generate_lstm_forecast].  [windows] is not
    a program variable: it records, in order, the array [X] of every call
    to [model.predict]. *)
Record LstmLoop : Type := mkLoop {
  forecasts : list ForecastPoint;
  current_input : list Q;
  windows : list (list Q);
}.

Definition lstm_step (predict : list Q -> Q) (scaler : MinMaxScaler)
    (base_date : Z) (st : LstmLoop) (i : Z) : result LstmLoop :=
  let X := Frame.py_tail lookback (current_input st) in
  if decide (length X = lookback) then
    let pred_scaled := predict X in
    let pred := py_max0 (inverse_transform scaler pred_scaled) in
    let forecast_date := (base_date + i)%Z in
    Ok {| forecasts := forecasts st ++ [point forecast_date pred 0.82 1.18];
          current_input := current_input st ++ [pred_scaled];
          windows := windows st ++ [X] |}
  else Raise ValueError.

Definition lstm_loop (env : Env) (g : Globals) (days : Z) : result LstmLoop :=
  match loaded_model g with
  | Some (LSTMData predict scaler) =>
      let daily_total := Frame.daily_total (processed env) in
      let recent := Frame.py_tail lookback daily_total in
      if decide (recent = []) then Raise ValueError
      else
        let scaled := transform scaler <$> recent in
        foldM (lstm_step predict scaler (today env))
              {| forecasts := []; current_input := scaled; windows := [] |}
              (seqZ 0 days)
  | _ => Raise TypeError
  end.

Definition generate_lstm_forecast (env : Env) (g : Globals) (days : Z)
    : result (list ForecastPoint) :=
  forecasts <$> lstm_loop env g days.

Definition generate_forecast (env : Env) (g : Globals) (days : Z)
    : result (list ForecastPoint) :=
  if decide (loaded_model_name g = Some "XGBoost") then
    generate_xgboost_forecast env g days
  else if decide (loaded_model_name g = Some "SARIMA") then
    generate_arima_forecast env g days
  else if decide (loaded_model_name g = Some "LSTM") then
    generate_lstm_forecast env g days
  else Ok [].

Definition daily_forecast (env : Env) (g : Globals) (arg : QueryArg)
    : Response ForecastPoint :=
  match loaded_model g with
  | None => Failure 503 no_model
  | Some _ =>
      match (days ← int_arg 7 arg;
             let days := (days `min` 30)%Z in
             forecasts ← generate_forecast env g days;
             Ok (days, forecasts)) with
      | Ok (days, forecasts) => Success "daily" (loaded_model_name g) days forecasts
      | Raise e => Failure 500 (str e)
      end
  end.

(** The body of the aggregation loop for block number [w]: nothing for an
    empty slice, one period otherwise. *)
Definition period (lo hi : Q) (w : nat) (slice : list ForecastPoint)
    : list AggregatedPeriod :=
  match slice, last slice with
  | first :: _, Some final =>
      let total := Qsum (predicted_demand <$> slice) in
      let avg := (total / inject_Z (Z.of_nat (length slice)))%Q in
      [ {| period_number := Z.of_nat w + 1;
           start_date := date first;
           end_date := date final;
           total_predicted_demand := py_round total 1;
           avg_daily_demand := py_round avg 1;
           period_confidence :=
             {| lower := py_round (total * lo) 1;
                upper := py_round (total * hi) 1 |} |} ]
  | _, _ => []
  end.

(** The aggregation loop of [weekly_forecast] (blocks of 7, band
    0.85/1.15) and of [monthly_forecast] (blocks of 30, band 0.82/1.18):
    the two loops differ in these three constants only. *)
Definition aggregate (size : nat) (lo hi : Q) (periods : Z)
    (daily_data : list ForecastPoint) : list AggregatedPeriod :=
  mjoin ((fun w : nat => period lo hi w (take size (drop (w * size) daily_data)))
           <$> seq 0 (Z.to_nat periods)).

Definition weekly_forecast (env : Env) (g : Globals) (arg : QueryArg)
    : Response AggregatedPeriod :=
  match loaded_model g with
  | None => Failure 503 no_model
  | Some _ =>
      match (weeks ← int_arg 4 arg;
             let weeks := (weeks `min` 12)%Z in
             daily_data ← generate_forecast env g (weeks * 7);
             Ok (weeks, aggregate 7 0.85 1.15 weeks daily_data)) with
      | Ok (weeks, weekly_data) =>
          Success "weekly" (loaded_model_name g) weeks weekly_data
      | Raise e => Failure 500 (str e)
      end
  end.

Definition monthly_forecast (env : Env) (g : Globals) (arg : QueryArg)
    : Response AggregatedPeriod :=
  match loaded_model g with
  | None => Failure 503 no_model
  | Some _ =>
      match (months ← int_arg 3 arg;
             let months := (months `min` 6)%Z in
             daily_data ← generate_forecast env g (months * 30);
             Ok (months, aggregate 30 0.82 1.18 months daily_data)) with
      | Ok (months, monthly_data) =>
          Success "monthly" (loaded_model_name g) months monthly_data
      | Raise e => Failure 500 (str e)
      end
  end.

End WithLibrary.

(** *** The model store and the routes that do not forecast *)

(** What the process finds in the models directory.  [comparison_json] is
    [None] when model_comparison.json does not exist, and otherwise the value
    under its key ['best_model'], if it has this key; every other field is the
    unpickled content of an artifact, [None] when the file does not exist. *)
Record ModelsDir : Type := mkModelsDir {
  comparison_json : option (option string);
  xgboost_model_pkl : option Model;
  arima_model_pkl : option Model;
  lstm_model_h5 : option (list Q -> Q);
  lstm_scaler_pkl : option MinMaxScaler;
}.

(** [load_best_model]: the value returned and the globals it leaves, or
    [None] when an exception escapes ([joblib.load] of a scaler file that
    does not exist; the globals are then as before, the dictionary being
    built before it is assigned).  The global [model_comparison], which
    nothing reads, is left out. *)
Definition load_best_model (dir : ModelsDir) (g : Globals) : option (bool * Globals) :=
  match comparison_json dir with
  | None => Some (false, g)
  | Some best =>
      let best_name := default "XGBoost" best in
      if decide (best_name = "XGBoost") then
        match xgboost_model_pkl dir with
        | Some data =>
            Some (true, {| loaded_model := Some data; loaded_model_name := Some "XGBoost" |})
        | None => Some (false, g)
        end
      else if decide (best_name = "SARIMA") then
        match arima_model_pkl dir with
        | Some data =>
            Some (true, {| loaded_model := Some data; loaded_model_name := Some "SARIMA" |})
        | None => Some (false, g)
        end
      else if decide (best_name = "LSTM") then
        match lstm_model_h5 dir with
        | Some network =>
            scaler ← lstm_scaler_pkl dir;
            Some (true, {| loaded_model := Some (LSTMData network scaler);
                           loaded_model_name := Some "LSTM" |})
        | None => Some (false, g)
        end
      else Some (false, g)
  end.

(** The globals of a process that has just been started: the module sets
    both to [None] and calls [load_best_model] (an exception there ends the
    process). *)
Definition no_globals : Globals := {| loaded_model := None; loaded_model_name := None |}.

Definition startup (dir : ModelsDir) : option Globals :=
  snd <$> load_best_model dir no_globals.

(** [health] *)
Record Health : Type := mkHealth { model_loaded : bool; model_name : option string }.

Definition health (g : Globals) : Health :=
  {| model_loaded := bool_decide (is_Some (loaded_model g));
     model_name := loaded_model_name g |}.

(** [retrain].  [returncode] is the return code of the training process,
    [None] when [subprocess.run] raises (as it does on a timeout), and [dir]
    the models directory the process leaves. *)
Inductive Retrained : Type :=
| RetrainSuccess (active_model : option string)
| RetrainError (status : Z).

Definition retrain (returncode : option Z) (dir : ModelsDir) (g : Globals)
    : Retrained * Globals :=
  match returncode with
  | Some returncode =>
      if decide (returncode = 0%Z) then
        match load_best_model dir g with
        | Some (_, g') => (RetrainSuccess (loaded_model_name g'), g')
        | None => (RetrainError 500, g)
        end
      else (RetrainError 500, g)
  | None => (RetrainError 500, g)
  end.

(** [historical_comparison]; [processed_file] is the content of
    processed_data.csv, [None] when the file does not exist. *)
Record HistoricalPoint : Type := mkHistorical { day : Z; actual_demand : Q }.

Inductive Historical : Type :=
| HistoricalData (model_used : option string) (data : list HistoricalPoint)
| HistoricalError (status : Z) (error : string).

Definition historical_comparison (dir : ModelsDir)
    (processed_file : option (list Frame.Row)) (g : Globals) : Historical :=
  match comparison_json dir with
  | None => HistoricalError 503 "No model data available."
  | Some _ =>
      match processed_file with
      | None => HistoricalError 503 "Processed data not found."
      | Some df =>
          let daily_total := Frame.daily_series df in
          let last_90 := Frame.py_tail 90 daily_total in
          HistoricalData (loaded_model_name g)
            ((fun row => {| day := row.1; actual_demand := py_round row.2 1 |})
               <$> last_90)
      end
  end.

End App.


(** ** Training and selection (models.py) *)

Module Models.
Import Num.

Record Metrics : Type := mkMetrics { rmse : Q; mae : Q; mape : Q }.

(** The dictionary a trainer returns; the fitted estimator itself is left
    out. *)
Record TrainResult : Type := mkTrainResult {
  name : string;
  metrics : Metrics;
  model_path : string;
  forecast_test : list Q;
  actual_test : list Q;
}.

(** The content of model_comparison.json. *)
Record Comparison : Type := mkComparison {
  best_model : string;
  trained_at : string;
  models : gmap string Metrics;
}.

(** [y[mask]]: the entries of [y] at the positions where [mask] holds. *)
Fixpoint np_mask {A} (mask : list bool) (y : list A) : list A :=
  match mask, y with
  | b :: mask', v :: y' => if b then v :: np_mask mask' y' else np_mask mask' y'
  | _, _ => []
  end.

(** [min(l, key=key)] on a non-empty list [first :: rest]: an element
    replaces the one held only when its key is strictly smaller. *)
Fixpoint py_min {A} (key : A -> Q) (held : A) (rest : list A) : A :=
  match rest with
  | [] => held
  | x :: rest' => py_min key (if decide (key x < key held)%Q then x else held) rest'
  end.

(** The train/test split of [train_xgboost] (models.py, lines 128 and
    139-145): the rows sorted by date, cut at the latest date minus 90 days.
    On an empty table the latest date is NaT and both masks are empty. *)
Definition max_date (df : list Frame.Row) : option Z :=
  match Frame.date <$> df with
  | [] => None
  | d :: ds => Some (foldl Z.max d ds)
  end.

Definition train_xgboost_split (df : list Frame.Row)
    : list Frame.Row * list Frame.Row :=
  let df := Frame.sort_values (fun a b => Frame.date a <? Frame.date b)%Z df in
  match max_date df with
  | None => ([], [])
  | Some latest =>
      let split_date := (latest - 90)%Z in
      (filter (fun r => Frame.date r ≤ split_date)%Z df,
       filter (fun r => split_date < Frame.date r)%Z df)
  end.

(** [select_best_model]; [now] is the text of [datetime.now().isoformat()],
    and the comparison returned is also what is written to
    model_comparison.json. *)
Definition select_best_model (now : string) (results : list (option TrainResult))
    : result (TrainResult * Comparison) :=
  let valid := omap id results in
  match valid with
  | [] => Raise ValueError
  | first :: rest =>
      let best := py_min (fun x => rmse (metrics x)) first rest in
      let comparison :=
        {| best_model := name best;
           trained_at := now;
           models := foldl (fun d r => <[name r := metrics r]> d) ∅ valid |} in
      Ok (best, comparison)
  end.

Section WithLibrary.
Context `{Library}.

(** [compute_metrics]; sklearn's two metrics raise [ValueError] on vectors
    of different lengths and on empty vectors. *)
Definition compute_metrics (y_true y_pred : list Q) : result Metrics :=
  if decide (length y_true = length y_pred /\ y_true <> []) then
    let errors := zip_with Qminus y_true y_pred in
    let rmse := np_sqrt (Qmean ((fun e => e * e)%Q <$> errors)) in
    let mae := Qmean (Qabs <$> errors) in
    let mask := (fun t => bool_decide (0 < t)%Q) <$> y_true in
    let mape :=
      if decide (0 < length (filter (fun b => b = true) mask))%nat then
        (Qmean (Qabs <$> zip_with (fun t p => (t - p) / t)%Q
                           (np_mask mask y_true) (np_mask mask y_pred)) * 100)%Q
      else 0%Q in
    Ok {| rmse := py_round rmse 4; mae := py_round mae 4; mape := py_round mape 2 |}
  else Raise ValueError.

End WithLibrary.
Import Frame.

(** *** Data preparation of the three trainers *)

(** [Series.median()]: the middle value of the sorted series, the mean of
    the two middle values for an even length, NaN for an empty series. *)
Definition median (xs : list Q) : option Q :=
  let s := sort_values (fun a b => bool_decide (a < b)%Q) xs in
  let n := length s in
  if Nat.even n then
    a ← s !! (n / 2 - 1)%nat; b ← s !! (n / 2)%nat; Some ((a + b) / 2)%Q
  else s !! (n / 2)%nat.

(** [asfreq('D', fill_value=fill)] of a series indexed by increasing dates:
    one entry for every day from the first date to the last, with [fill] on
    the days the series lacks.  An empty series stays empty. *)
Definition asfreq (fill : Q) (s : list (Z * Q)) : list (Z * Q) :=
  match s, last s with
  | (first, _) :: _, Some (final, _) =>
      (fun d => (d, default fill ((list_to_map s : gmap Z Q) !! d)))
        <$> seqZ first (final - first + 1)
  | _, _ => []
  end.

(** Lines 62-69 of [train_arima]. *)
Definition arima_series (df : list Row) : list (Z * Q) :=
  let daily_total := daily_series df in
  match median daily_total.*2 with
  | Some fill => asfreq fill daily_total
  | None => daily_total
  end.

Definition train_arima_split (df : list Row) : list (Z * Q) * list (Z * Q) :=
  let daily_total := arima_series df in
  let split_idx := (Z.of_nat (length daily_total) - 90)%Z in
  (slice_to split_idx daily_total, slice_from split_idx daily_total).

(** sklearn's [MinMaxScaler(feature_range=(0, 1)).fit] on one column; it
    rejects an empty column, and a constant column is scaled by 1. *)
Definition np_min (v : Q) (vs : list Q) : Q :=
  foldl (fun m x => if decide (x < m)%Q then x else m) v vs.
Definition np_max (v : Q) (vs : list Q) : Q :=
  foldl (fun m x => if decide (m < x)%Q then x else m) v vs.

Definition fit (values : list Q) : result App.MinMaxScaler :=
  match values with
  | [] => Raise ValueError
  | v :: vs =>
      let data_min := np_min v vs in
      let data_range := (np_max v vs - data_min)%Q in
      let scale := (1 / (if Qeq_bool data_range 0 then 1 else data_range))%Q in
      Ok {| App.scale_ := scale; App.min_ := (0 - data_min * scale)%Q |}
  end.

(** The loop of lines 232-235: sample number [k] is the window
    [scaled[k : k + lookback]] with the target [scaled[k + lookback]]. *)
Definition lstm_sequences (lookback : nat) (scaled : list Q) : list (list Q * Q) :=
  imap (fun k y => (take lookback (drop k scaled), y)) (drop lookback scaled).

(** *** The trainers

    The estimators are library code: [sarimax train steps] stands for the
    forecast of the SARIMAX model fitted on [train], [xgb train test] for the
    predictions on [test] of the regressor fitted on [train] with [test] as
    evaluation set, [keras train test] for the scaled predictions on the
    windows of [test] of the network fitted on [train] and validated on
    [test].  Each may raise. *)
Class Estimators : Type := {
  sarimax : list Q -> nat -> result (list Q);
  xgb : list Row -> list Row -> result (list Q);
  keras : list (list Q * Q) -> list (list Q * Q) -> result (list Q);
}.

(** [try: ... except Exception: return None] *)
Definition try_except {A} (body : result A) : option A :=
  match body with
  | Ok a => Some a
  | Raise _ => None
  end.

Section Trainers.
Context `{Library} `{Estimators}.

(** Lines 222-244 of [train_lstm]: the daily totals cast to single
    precision, scaled, cut into samples and split.  With no sample
    [np.array(X)] has one dimension only and [X.shape[1]] raises. *)
Definition lstm_values (df : list Row) : list Q := np_float32 <$> daily_total df.

Definition train_lstm_prepare (df : list Row)
    : result (App.MinMaxScaler * list (list Q * Q) * list (list Q * Q)) :=
  let values := lstm_values df in
  scaler ← fit values;
  let scaled := App.transform scaler <$> values in
  let samples := lstm_sequences App.lookback scaled in
  if decide (samples = []) then Raise IndexError
  else
    let split := (Z.of_nat (length samples) - 90)%Z in
    Ok (scaler, slice_to split samples, slice_from split samples).

Definition train_arima (df : list Row) : option TrainResult :=
  let '(train, test) := train_arima_split df in
  try_except (
    forecast ← sarimax train.*2 (length test);
    let forecast := py_max0 <$> forecast in
    metrics ← compute_metrics test.*2 forecast;
    Ok {| name := "SARIMA"; metrics := metrics; model_path := "arima_model.pkl";
          forecast_test := forecast; actual_test := test.*2 |}).

Definition train_xgboost (df : list Row) : result TrainResult :=
  let '(train, test) := train_xgboost_split df in
  y_pred ← xgb train test;
  let y_pred := py_max0 <$> y_pred in
  metrics ← compute_metrics (sales <$> test) y_pred;
  Ok {| name := "XGBoost"; metrics := metrics; model_path := "xgboost_model.pkl";
        forecast_test := y_pred; actual_test := sales <$> test |}.

Definition train_lstm (df : list Row) : result (option TrainResult) :=
  '(scaler, train, test) ← train_lstm_prepare df;
  Ok (try_except (
    y_pred_scaled ← keras train test;
    let y_pred := (fun y => py_max0 (App.inverse_transform scaler y)) <$> y_pred_scaled in
    let y_actual := App.inverse_transform scaler <$> test.*2 in
    metrics ← compute_metrics y_actual y_pred;
    Ok {| name := "LSTM"; metrics := metrics; model_path := "lstm_model.h5";
          forecast_test := y_pred; actual_test := y_actual |})).

Definition train_all_models (now : string) (df : list Row)
    : result (TrainResult * Comparison * list (option TrainResult)) :=
  let arima_result := train_arima df in
  xgb_result ← train_xgboost df;
  lstm_result ← train_lstm df;
  let results := [arima_result; Some xgb_result; lstm_result] in
  '(best, comparison) ← select_best_model now results;
  Ok (best, comparison, results).

End Trainers.

End Models.


(** ** Feature engineering (data_pipeline.py) *)

Module DataPipeline.
Import Num Frame.

(** One record of train.csv. *)
Record RawSale : Type := mkRawSale {
  raw_date : Z;
  store : Z;
  raw_item : Z;
  raw_sales : Q;
}.

(** One record of the weather frame; [None] is a missing value. *)
Record Weather : Type := mkWeather {
  weather_date : Z;
  temperature_max : option Q;
  temperature_min : option Q;
  temperature_mean : option Q;
  precipitation : option Q;
  rainfall : option Q;
}.

(** The four date sets of the academic calendar. *)
Record CalendarSets : Type := mkCalendarSets {
  semester_dates : gset Z;
  exam_dates : gset Z;
  holiday_dates : gset Z;
  vacation_dates : gset Z;
}.

Definition cell (v : option Q) : Cell :=
  match v with
  | Some q => Num q
  | None => NaN
  end.

(** [.astype(int)] of a comparison or a membership test. *)
Definition flag (b : bool) : Cell := Num (if b then 1 else 0)%Q.

Definition is_nan (v : Cell) : bool :=
  match v with
  | NaN => true
  | _ => false
  end.

(** Order of the keys [(date, item)] of the first grouping. *)
Definition compare_date_item (k k' : Z * Z) : comparison :=
  match (k.1 ?= k'.1)%Z with
  | Eq => (k.2 ?= k'.2)%Z
  | c => c
  end.

(** [sort_values(['item', 'date'])] *)
Definition lt_item_date (a b : Row) : bool :=
  bool_decide (item a < item b \/ (item a = item b /\ date a < date b))%Z.

(** The series transforms applied to the sales of one item, oldest first.
    Each returns a series of the length of its argument. *)
Definition shift (lag : nat) (xs : list Q) : list Cell :=
  replicate (lag `min` length xs) NaN ++ (Num <$> take (length xs - lag) xs).

(** The last [window] values up to and including position [k]. *)
Definition trailing (window k : nat) (xs : list Q) : list Q :=
  drop (S k - window) (take (S k) xs).

Definition rolling_mean (window : nat) (xs : list Q) : list Cell :=
  imap (fun k _ => Num (Qmean (trailing window k xs))) xs.

Definition expanding_mean (xs : list Q) : list Cell :=
  imap (fun k _ => Num (Qmean (take (S k) xs))) xs.

(** The item-to-category dictionary (lines 288-291). *)
Definition categories : list string := ["veg"; "non-veg"; "beverage"; "dessert"; "snack"].

Definition item_categories : gmap Z string :=
  foldl (fun d i => <[i := categories !!! Z.to_nat ((i - 1) `mod` Z.of_nat (length categories))]> d)
        ∅ (seqZ 1 50).
Arguments item_categories : simpl never.

(** Position of a row among the rows of its item, and the sales of an
    item, in table order: the two ingredients of [groupby('item')['sales']]. *)
Definition group_values (k : Z) (df : list Row) : list Q :=
  sales <$> filter (fun r => item r = k) df.

Definition group_rank (k : Z) (p : nat) (df : list Row) : nat :=
  length (filter (fun r => item r = k) (take p df)).

(** [df.groupby('item')['sales'].transform(f)] (and [.shift]): [f] is applied
    to the sales of each item, and each result is put back at the position
    of its row. *)
Definition groupby_item_transform (f : list Q -> list Cell) (df : list Row) : list Cell :=
  imap (fun p r => default NaN (f (group_values (item r) df) !! group_rank (item r) p df)) df.

Definition add_group_column (c : string) (f : list Q -> list Cell) (df : list Row)
    : list Row :=
  assign c (groupby_item_transform f df) df.

(** [merge(weather_df, on='date', how='left')]: one row per matching weather
    record, and one row of missing values when there is none. *)
Definition with_weather (w : option Weather) (r : Row) : Row :=
  set_col "rainfall" (cell (w ≫= rainfall))
    (set_col "precipitation" (cell (w ≫= precipitation))
      (set_col "temperature_mean" (cell (w ≫= temperature_mean))
        (set_col "temperature_min" (cell (w ≫= temperature_min))
          (set_col "temperature_max" (cell (w ≫= temperature_max)) r)))).

Definition merge_weather (weather_df : list Weather) (daily : list Row) : list Row :=
  r ← daily;
  match filter (fun w => weather_date w = date r) weather_df with
  | [] => [with_weather None r]
  | ws => (fun w => with_weather (Some w) r) <$> ws
  end.

(** [is_rainy], [is_hot] and [temp_range] (lines 254-256); a comparison with
    a missing value is false, a difference with one is missing. *)
Definition gt_cell (v : option Cell) (bound : Q) : bool :=
  match v with
  | Some (Num q) => bool_decide (bound < q)%Q
  | _ => false
  end.

Definition sub_cell (a b : option Cell) : Cell :=
  match a, b with
  | Some (Num x), Some (Num y) => Num (x - y)%Q
  | _, _ => NaN
  end.

Definition weather_flags (r : Row) : Row :=
  set_col "temp_range" (sub_cell (cols r !! "temperature_max") (cols r !! "temperature_min"))
    (set_col "is_hot" (flag (gt_cell (cols r !! "temperature_max") 35))
      (set_col "is_rainy" (flag (gt_cell (cols r !! "rainfall") 2)) r)).

Definition calendar_flags (cal : CalendarSets) (r : Row) : Row :=
  set_col "is_vacation" (flag (bool_decide (date r ∈ vacation_dates cal)))
    (set_col "is_holiday" (flag (bool_decide (date r ∈ holiday_dates cal)))
      (set_col "is_exam" (flag (bool_decide (date r ∈ exam_dates cal)))
        (set_col "is_semester" (flag (bool_decide (date r ∈ semester_dates cal))) r))).

(** [daily['item'].map(item_categories)] *)
Definition categorize (r : Row) : Row :=
  set_col "item_category"
    (match item_categories !! item r with Some c => Str c | None => NaN end) r.

(** [pd.get_dummies(daily['item_category'], prefix='cat')]: one indicator
    column for each category that occurs in the table. *)
Definition has_category (c : string) (r : Row) : bool :=
  match cols r !! "item_category" with
  | Some (Str c') => bool_decide (c' = c)
  | _ => false
  end.

Definition present_categories (df : list Row) : list string :=
  filter (fun c => existsb (has_category c) df = true) categories.

Definition add_dummies (present : list string) (r : Row) : Row :=
  foldl (fun r' c => set_col ("cat_" +:+ c) (flag (has_category c r)) r') r present.

(** [dropna()] *)
Definition dropna (df : list Row) : list Row :=
  filter (fun r => map_Forall (fun _ v => is_nan v = false) (cols r)) df.

Definition lag_col (lag : nat) : string := "sales_lag_" +:+ pretty lag.
Definition rolling_mean_col (window : nat) : string := "sales_rolling_mean_" +:+ pretty window.
Definition rolling_std_col (window : nat) : string := "sales_rolling_std_" +:+ pretty window.

Section WithLibrary.
Context `{Library}.

(** Sample standard deviation of a window ([ddof=1]); missing for fewer than
    two values. *)
Definition std (xs : list Q) : Cell :=
  if decide (length xs < 2)%nat then NaN
  else
    let m := Qmean xs in
    Num (np_sqrt (Qsum ((fun x => (x - m) * (x - m))%Q <$> xs)
                  / inject_Z (Z.of_nat (length xs - 1)))%Q).

Definition rolling_std (window : nat) (xs : list Q) : list Cell :=
  imap (fun k _ => std (trailing window k xs)) xs.

(** Lines 231-247: the grouping by date and item and the date columns. *)
Definition aggregate_sales (df : list RawSale) : list Row :=
  (fun kv => mkRow kv.1.1 kv.1.2 kv.2 ∅)
    <$> groupby_sum compare_date_item
          ((fun s => ((raw_date s, raw_item s), raw_sales s)) <$> df).

Definition temporal (r : Row) : Row :=
  foldl (fun r kv => set_col kv.1 (Num kv.2) r) r (Calendar.date_fields (date r)).

(** Lines 264-284: the lag, rolling and expanding columns. *)
Definition sales_features (daily : list Row) : list Row :=
  let daily :=
    foldl (fun daily lag => add_group_column (lag_col lag) (shift lag) daily)
          daily [1; 7; 14; 28]%nat in
  let daily :=
    foldl (fun daily window =>
             add_group_column (rolling_std_col window) (rolling_std window)
               (add_group_column (rolling_mean_col window) (rolling_mean window) daily))
          daily [7; 14; 30]%nat in
  add_group_column "sales_expanding_mean" expanding_mean daily.

Definition engineer_features (df : list RawSale) (weather_df : list Weather)
    (cal : CalendarSets) : list Row :=
  let daily := temporal <$> aggregate_sales df in
  let daily := merge_weather weather_df daily in
  let daily := weather_flags <$> daily in
  let daily := calendar_flags cal <$> daily in
  let daily := sort_values lt_item_date daily in
  let daily := sales_features daily in
  let daily := categorize <$> daily in
  let daily := add_dummies (present_categories daily) <$> daily in
  dropna daily.

End WithLibrary.

End DataPipeline.

(** * Properties *)

(** ** Rounding and sums *)

Module NumFacts.
Import Num.
Local Open Scope Q_scope.

Lemma pow10_pos n : (0 < 10 ^ Z.of_nat n)%Z.
Proof. apply Z.pow_pos_nonneg; lia. Qed.

Lemma round_half_even_comp x y : x == y -> round_half_even x = round_half_even y.
Proof.
  intros E. unfold round_half_even. cbv zeta.
  rewrite (Qfloor_comp _ _ E).
  assert (E' : (x - inject_Z (Qfloor y) ?= 1 # 2) = (y - inject_Z (Qfloor y) ?= 1 # 2)).
  { apply Qcompare_comp; [rewrite E|]; reflexivity. }
  rewrite E'. reflexivity.
Qed.

Lemma py_round_comp x y n : x == y -> py_round x n = py_round y n.
Proof.
  intros E. unfold py_round. cbv zeta.
  set (p := inject_Z _).
  rewrite (round_half_even_comp (x * p) (y * p)); [reflexivity|].
  rewrite E. reflexivity.
Qed.

Lemma round_half_even_Z z : round_half_even (inject_Z z) = z.
Proof.
  unfold round_half_even. cbv zeta. rewrite Qfloor_Z.
  assert (E : (inject_Z z - inject_Z z ?= 1 # 2) = Lt).
  { apply Qlt_alt. unfold Qminus. rewrite Qplus_opp_r. reflexivity. }
  rewrite E. reflexivity.
Qed.

Lemma round_half_even_bounds x :
  inject_Z (round_half_even x) - (1 # 2) <= x <= inject_Z (round_half_even x) + (1 # 2).
Proof.
  unfold round_half_even. cbv zeta.
  pose proof (Qfloor_le x) as Hlo. pose proof (Qlt_floor x) as Hhi.
  rewrite inject_Z_plus in Hhi. change (inject_Z 1) with 1 in Hhi.
  destruct (Qcompare_spec (x - inject_Z (Qfloor x)) (1 # 2)) as [E|E|E].
  - destruct (Z.even (Qfloor x)); [|rewrite inject_Z_plus; change (inject_Z 1) with 1]; lra.
  - lra.
  - rewrite inject_Z_plus. change (inject_Z 1) with 1. lra.
Qed.

Lemma round_half_even_nonneg x : 0 <= x -> (0 <= round_half_even x)%Z.
Proof.
  intros Hx. pose proof (round_half_even_bounds x) as [_ Hhi].
  destruct (Z_lt_le_dec (round_half_even x) 0) as [Hneg|]; [|assumption].
  exfalso. assert (H1 : (round_half_even x <= -1)%Z) by lia.
  rewrite Zle_Qle in H1. change (inject_Z (-1)) with (-(1)) in H1. lra.
Qed.

Lemma py_round_eq x n :
  py_round x n == round_half_even (x * inject_Z (10 ^ Z.of_nat n)) # Z.to_pos (10 ^ Z.of_nat n).
Proof.
  unfold py_round. cbv zeta. rewrite Qred_correct.
  rewrite Z2Pos.id by apply pow10_pos. reflexivity.
Qed.

Lemma py_round_nonneg x n : 0 <= x -> 0 <= py_round x n.
Proof.
  intros Hx. rewrite py_round_eq.
  assert (H : (0 <= round_half_even (x * inject_Z (10 ^ Z.of_nat n)))%Z).
  { apply round_half_even_nonneg. apply Qmult_le_0_compat; [assumption|].
    change 0 with (inject_Z 0). rewrite <- Zle_Qle. pose proof (pow10_pos n). lia. }
  unfold Qle. simpl. lia.
Qed.

Lemma py_round_is_decimal x n : is_decimal n (py_round x n).
Proof. eexists. apply py_round_eq. Qed.

Lemma Qmake_mult_den z (p : positive) : (z # p) * inject_Z (Z.pos p) == inject_Z z.
Proof. unfold Qeq, Qmult, inject_Z. simpl. lia. Qed.

Lemma py_round_decimal x n : is_decimal n x -> py_round x n == x.
Proof.
  intros [z Hz]. rewrite py_round_eq.
  rewrite (round_half_even_comp _ (inject_Z z)).
  - rewrite round_half_even_Z. symmetry. exact Hz.
  - rewrite Hz. rewrite <- (Z2Pos.id (10 ^ Z.of_nat n)) at 2 by apply pow10_pos.
    apply Qmake_mult_den.
Qed.

Lemma py_round_0 n : py_round 0 n = 0.
Proof.
  unfold py_round. cbv zeta.
  rewrite (round_half_even_comp _ (inject_Z 0)) by (rewrite Qmult_0_l; reflexivity).
  rewrite round_half_even_Z. reflexivity.
Qed.

Lemma py_round_zero x n : x == 0 -> py_round x n = 0.
Proof. intros E. rewrite (py_round_comp _ _ n E). apply py_round_0. Qed.

(** Rounding moves a value by at most half a unit of the last digit. *)
Lemma py_round_error x n :
  Qabs (py_round x n - x) <= 1 # (2 * Z.to_pos (10 ^ Z.of_nat n)).
Proof.
  rewrite py_round_eq.
  set (p := Z.to_pos (10 ^ Z.of_nat n)).
  assert (Hp : inject_Z (10 ^ Z.of_nat n) == inject_Z (Z.pos p)).
  { unfold p. rewrite Z2Pos.id by apply pow10_pos. reflexivity. }
  rewrite (round_half_even_comp _ (x * inject_Z (Z.pos p))) by (rewrite Hp; reflexivity).
  pose proof (round_half_even_bounds (x * inject_Z (Z.pos p))) as [Hlo Hhi].
  set (r := round_half_even (x * inject_Z (Z.pos p))) in *.
  assert (Hpp : 0 < inject_Z (Z.pos p)) by reflexivity.
  assert (Er : r # p == inject_Z r / inject_Z (Z.pos p)).
  { rewrite Qmake_Qdiv. reflexivity. }
  assert (Eh : 1 # (2 * p) == (1 # 2) / inject_Z (Z.pos p)).
  { unfold Qeq, Qdiv, Qmult, Qinv, inject_Z. simpl. lia. }
  rewrite Er, Eh.
  assert (H1 : x <= (inject_Z r + (1 # 2)) / inject_Z (Z.pos p))
    by (apply Qle_shift_div_l; assumption).
  assert (H2 : (inject_Z r - (1 # 2)) / inject_Z (Z.pos p) <= x)
    by (apply Qle_shift_div_r; assumption).
  apply Qabs_Qle_condition. unfold Qdiv in *.
  generalize dependent (/ inject_Z (Z.pos p)). intros i _ _ H1 H2.
  split; lra.
Qed.

Lemma py_max0_nonneg x : 0 <= py_max0 x.
Proof. unfold py_max0. destruct (decide (0 < x)); lra. Qed.

Lemma is_decimal_0 n : is_decimal n 0.
Proof. exists 0%Z. reflexivity. Qed.

Lemma is_decimal_plus n x y : is_decimal n x -> is_decimal n y -> is_decimal n (x + y).
Proof.
  intros [a Ha] [b Hb]. exists (a + b)%Z. rewrite Ha, Hb.
  unfold Qeq, Qplus. simpl. lia.
Qed.

Lemma is_decimal_comp n x y : x == y -> is_decimal n x -> is_decimal n y.
Proof. intros E [z Hz]. exists z. rewrite <- E. exact Hz. Qed.

Lemma foldl_Qplus a xs : foldl Qplus a xs == a + Qsum xs.
Proof.
  unfold Qsum. revert a. induction xs as [|x xs IH]; intros a; simpl.
  - lra.
  - rewrite (IH (a + x)), (IH (0 + x)). lra.
Qed.

Lemma Qsum_cons x xs : Qsum (x :: xs) == x + Qsum xs.
Proof. unfold Qsum at 1. simpl. rewrite foldl_Qplus. lra. Qed.

Lemma Qsum_app xs ys : Qsum (xs ++ ys) == Qsum xs + Qsum ys.
Proof.
  induction xs as [|x xs IH]; simpl.
  - unfold Qsum at 2. simpl. lra.
  - rewrite !Qsum_cons, IH. lra.
Qed.

Lemma Qsum_is_decimal n xs : Forall (is_decimal n) xs -> is_decimal n (Qsum xs).
Proof.
  induction 1 as [|x xs Hx _ IH].
  - apply is_decimal_0.
  - apply (is_decimal_comp n (x + Qsum xs)); [symmetry; apply Qsum_cons|].
    apply is_decimal_plus; assumption.
Qed.

(** Rounding keeps the order. *)
Lemma round_half_even_le x y : x <= y -> (round_half_even x <= round_half_even y)%Z.
Proof.
  intros Hxy.
  destruct (Qeq_dec x y) as [E|Hne]; [rewrite (round_half_even_comp x y E); lia|].
  pose proof (round_half_even_bounds x) as [Hx _].
  pose proof (round_half_even_bounds y) as [_ Hy].
  destruct (Z_le_gt_dec (round_half_even x) (round_half_even y)) as [|Hgt];
    [assumption|exfalso].
  assert (H1 : (round_half_even y + 1 <= round_half_even x)%Z) by lia.
  rewrite Zle_Qle, inject_Z_plus in H1. change (inject_Z 1) with 1 in H1.
  apply Hne. apply Qle_antisym; [exact Hxy | lra].
Qed.

Lemma py_round_le x y n : x <= y -> py_round x n <= py_round y n.
Proof.
  intros Hxy. rewrite !py_round_eq.
  assert (H : (round_half_even (x * inject_Z (10 ^ Z.of_nat n))
               <= round_half_even (y * inject_Z (10 ^ Z.of_nat n)))%Z).
  { apply round_half_even_le. apply Qmult_le_compat_r; [exact Hxy|].
    change 0 with (inject_Z 0). rewrite <- Zle_Qle. pose proof (pow10_pos n). lia. }
  unfold Qle. simpl. nia.
Qed.

End NumFacts.

(** ** Sorting and grouping *)

Module FrameFacts.
Import Frame.

Lemma filter_all {A} (P : A -> Prop) `{!forall x, Decision (P x)} (l : list A) :
  Forall P l -> filter P l = l.
Proof.
  induction 1 as [|x l Hx _ IH]; [reflexivity|].
  rewrite filter_cons_True by exact Hx. f_equal. exact IH.
Qed.

Lemma filter_none {A} (P : A -> Prop) `{!forall x, Decision (P x)} (l : list A) :
  Forall (fun x => ~ P x) l -> filter P l = [].
Proof.
  induction 1 as [|x l Hx _ IH]; [reflexivity|].
  rewrite filter_cons_False by exact Hx. exact IH.
Qed.

Lemma filter_fmap_comm {A B} (f : A -> B) (P : B -> Prop) (R : A -> Prop)
    `{!forall y, Decision (P y)} `{!forall x, Decision (R x)} (l : list A) :
  (forall x, P (f x) <-> R x) -> filter P (f <$> l) = f <$> filter R l.
Proof.
  intros Hf. induction l as [|x l IH]; [reflexivity|].
  rewrite fmap_cons, !filter_cons, IH.
  destruct (decide (P (f x))) as [HP|HP], (decide (R x)) as [HR|HR];
    try reflexivity; exfalso; apply Hf in HP || apply Hf in HR; contradiction.
Qed.

Lemma insert_sorted_perm {A} (lt : A -> A -> bool) x l :
  insert_sorted lt x l ≡ₚ x :: l.
Proof.
  induction l as [|y l IH]; simpl; [reflexivity|].
  destruct (lt y x); [|reflexivity].
  rewrite IH. apply Permutation_swap.
Qed.

Lemma sort_values_perm {A} (lt : A -> A -> bool) l : sort_values lt l ≡ₚ l.
Proof.
  unfold sort_values. induction l as [|x l IH]; simpl; [reflexivity|].
  rewrite insert_sorted_perm, IH. reflexivity.
Qed.

Lemma elem_of_insert_sorted {A} (lt : A -> A -> bool) x y l :
  y ∈ insert_sorted lt x l <-> y = x \/ y ∈ l.
Proof.
  induction l as [|z l IH]; simpl.
  - rewrite list_elem_of_singleton. split; [auto|]. intros [?|Hy]; [auto|inversion Hy].
  - destruct (lt z x); rewrite !elem_of_cons; [rewrite IH|]; tauto.
Qed.

Lemma elem_of_sort_values {A} (lt : A -> A -> bool) y l :
  y ∈ sort_values lt l <-> y ∈ l.
Proof.
  unfold sort_values. induction l as [|x l IH]; simpl; [reflexivity|].
  rewrite elem_of_insert_sorted, elem_of_cons, IH. reflexivity.
Qed.

(** Selecting rows commutes with sorting, for an order whose "not smaller"
    is transitive. *)
Section SortFilter.
Context {A : Type} (lt : A -> A -> bool) (P : A -> Prop) `{!forall x, Decision (P x)}.
Hypothesis lt_asym : forall a b, lt a b = true -> lt b a = false.
Hypothesis ge_trans : forall a b c, lt b a = false -> lt c b = false -> lt c a = false.

Lemma insert_sorted_head x l :
  Forall (fun z => lt z x = false) l -> insert_sorted lt x l = x :: l.
Proof. intros Hl. destruct Hl as [|z l Hz _]; simpl; [|rewrite Hz]; reflexivity. Qed.

Lemma insert_sorted_sorted x l :
  StronglySorted (fun a b => lt b a = false) l ->
  StronglySorted (fun a b => lt b a = false) (insert_sorted lt x l).
Proof.
  induction 1 as [|y l Hl IH Hy]; simpl.
  - repeat constructor.
  - destruct (lt y x) eqn:Hyx.
    + constructor; [exact IH|]. apply Forall_forall. intros z Hz.
      apply elem_of_insert_sorted in Hz as [->|Hz].
      * apply lt_asym, Hyx.
      * rewrite Forall_forall in Hy. apply Hy, Hz.
    + constructor; [constructor; assumption|].
      constructor; [exact Hyx|].
      eapply Forall_impl; [exact Hy|]. simpl. intros z Hz.
      apply (ge_trans x y z); assumption.
Qed.

Lemma sort_values_sorted l :
  StronglySorted (fun a b => lt b a = false) (sort_values lt l).
Proof.
  unfold sort_values. induction l as [|x l IH]; simpl;
    [constructor | apply insert_sorted_sorted, IH].
Qed.

Lemma filter_insert_sorted x l :
  StronglySorted (fun a b => lt b a = false) l ->
  filter P (insert_sorted lt x l)
  = if decide (P x) then insert_sorted lt x (filter P l) else filter P l.
Proof.
  induction 1 as [|y l Hl IH Hy]; simpl.
  - rewrite filter_cons, filter_nil. destruct (decide (P x)); reflexivity.
  - destruct (lt y x) eqn:Hyx.
    + rewrite !(filter_cons _ y), IH.
      destruct (decide (P x)), (decide (P y)); simpl; rewrite ?Hyx; reflexivity.
    + rewrite (filter_cons _ x). destruct (decide (P x)) as [Hx|Hx]; [|reflexivity].
      symmetry. apply insert_sorted_head.
      apply Forall_forall. intros z [_ Hz]%list_elem_of_filter.
      apply elem_of_cons in Hz as [->|Hz]; [exact Hyx|].
      rewrite Forall_forall in Hy. apply (ge_trans x y z); [exact Hyx | apply Hy, Hz].
Qed.

Lemma filter_sort_values l :
  filter P (sort_values lt l) = sort_values lt (filter P l).
Proof.
  induction l as [|x l IH]; [reflexivity|].
  change (sort_values lt (x :: l)) with (insert_sorted lt x (sort_values lt l)).
  rewrite filter_insert_sorted by apply sort_values_sorted.
  rewrite filter_cons, IH. destruct (decide (P x)); reflexivity.
Qed.

End SortFilter.

(** Selecting keys commutes with grouping, for a comparison that is a strict
    total order. *)
Section GroupFilter.
Context {K : Type} (cmp : K -> K -> comparison) (P : K -> Prop)
  `{!forall k, Decision (P k)}.
Hypothesis cmp_eq : forall a b, cmp a b = Eq -> a = b.
Hypothesis cmp_gt : forall a b, cmp a b = Gt -> cmp b a = Lt.
Hypothesis cmp_lt_trans : forall a b c, cmp a b = Lt -> cmp b c = Lt -> cmp a c = Lt.

Definition keys_increasing (acc : list (K * Q)) : Prop :=
  StronglySorted (fun e e' => cmp e.1 e'.1 = Lt) acc.

Lemma group_add_keys k v acc e :
  e ∈ group_add cmp k v acc -> e.1 = k \/ exists e', e' ∈ acc /\ e'.1 = e.1.
Proof.
  induction acc as [|[k' s] acc IH]; simpl.
  - intros ->%list_elem_of_singleton. left. reflexivity.
  - destruct (cmp k k') eqn:Hc.
    + apply cmp_eq in Hc as ->.
      intros [->|He]%elem_of_cons; [left; reflexivity|].
      right. exists e. split; [right; exact He | reflexivity].
    + intros [->|He]%elem_of_cons; [left; reflexivity|].
      right. exists e. split; [exact He | reflexivity].
    + intros [->|He]%elem_of_cons.
      * right. exists (k', s). split; [left | reflexivity].
      * destruct (IH He) as [?|(e' & He' & Hk)]; [left; assumption|].
        right. exists e'. split; [right; exact He' | exact Hk].
Qed.

Lemma group_add_increasing k v acc :
  keys_increasing acc -> keys_increasing (group_add cmp k v acc).
Proof.
  unfold keys_increasing. induction 1 as [|[k' s] acc Hacc IH Hk']; simpl.
  - repeat constructor.
  - destruct (cmp k k') eqn:Hc.
    + constructor; assumption.
    + constructor; [constructor; assumption|].
      constructor; [exact Hc|].
      eapply Forall_impl; [exact Hk'|]. simpl. intros e He.
      apply (cmp_lt_trans k k' e.1); assumption.
    + constructor; [exact IH|]. apply Forall_forall. intros e He.
      apply group_add_keys in He as [->|(e' & He' & <-)].
      * apply cmp_gt, Hc.
      * rewrite Forall_forall in Hk'. apply Hk', He'.
Qed.

Lemma group_add_head k v acc :
  Forall (fun e => cmp k e.1 = Lt) acc -> group_add cmp k v acc = (k, v) :: acc.
Proof.
  intros Hacc. destruct Hacc as [|[k' s] acc Hk' _]; simpl; [reflexivity|].
  simpl in Hk'. rewrite Hk'. reflexivity.
Qed.

Lemma filter_group_add k v acc :
  keys_increasing acc ->
  filter (fun e => P e.1) (group_add cmp k v acc)
  = if decide (P k) then group_add cmp k v (filter (fun e => P e.1) acc)
    else filter (fun e => P e.1) acc.
Proof.
  unfold keys_increasing. induction 1 as [|[k' s] acc Hacc IH Hk']; simpl.
  - rewrite filter_cons, filter_nil. simpl. destruct (decide (P k)); reflexivity.
  - destruct (cmp k k') eqn:Hc.
    + apply cmp_eq in Hc as Hkk. subst k'. rewrite !filter_cons. simpl.
      destruct (decide (P k)); simpl; rewrite ?Hc; reflexivity.
    + rewrite (filter_cons _ (k, v)). simpl.
      destruct (decide (P k)) as [Hk|Hk]; [|reflexivity].
      symmetry. apply group_add_head.
      apply Forall_forall. intros e [_ He]%list_elem_of_filter.
      apply elem_of_cons in He as [->|He]; [exact Hc|].
      rewrite Forall_forall in Hk'. apply (cmp_lt_trans k k' e.1); [exact Hc|].
      apply (Hk' e He).
    + rewrite !(filter_cons _ (k', s)), IH. simpl.
      destruct (decide (P k)), (decide (P k')); simpl; rewrite ?Hc; reflexivity.
Qed.

Lemma filter_groupby_sum kvs :
  filter (fun e => P e.1) (groupby_sum cmp kvs)
  = groupby_sum cmp (filter (fun e => P e.1) kvs).
Proof.
  unfold groupby_sum.
  assert (Hgen : forall acc, keys_increasing acc ->
            filter (fun e => P e.1) (foldl (fun acc kv => group_add cmp kv.1 kv.2 acc) acc kvs)
            = foldl (fun acc kv => group_add cmp kv.1 kv.2 acc)
                    (filter (fun e => P e.1) acc) (filter (fun e => P e.1) kvs)).
  { induction kvs as [|kv kvs IH]; intros acc Hacc; simpl; [reflexivity|].
    rewrite IH by apply group_add_increasing, Hacc.
    rewrite filter_group_add by exact Hacc. rewrite filter_cons.
    destruct (decide (P kv.1)); reflexivity. }
  apply (Hgen []). constructor.
Qed.

End GroupFilter.

(** *** Slices and grouped sums *)

Import Num NumFacts.

Lemma slice_app {A} (i : Z) (l : list A) : slice_to i l ++ slice_from i l = l.
Proof. apply take_drop. Qed.

Lemma slice_from_length {A} (i : Z) (l : list A) :
  length (slice_from i l)
  = if decide (i < 0)%Z then (Z.to_nat (- i) `min` length l)%nat
    else (length l - Z.to_nat i)%nat.
Proof.
  unfold slice_from, py_index. rewrite length_drop.
  destruct (decide (i < 0)%Z); lia.
Qed.

Section GroupSum.
Context {K : Type} `{!EqDecision K} (cmp : K -> K -> comparison).
Hypothesis cmp_eq : forall a b, cmp a b = Eq -> a = b.
Hypothesis cmp_gt : forall a b, cmp a b = Gt -> cmp b a = Lt.
Hypothesis cmp_lt_trans : forall a b c, cmp a b = Lt -> cmp b c = Lt -> cmp a c = Lt.
Hypothesis cmp_irrefl : forall a, cmp a a <> Lt.

(** The sum of the values filed under key [k]. *)
Definition key_sum (k : K) (l : list (K * Q)) : Q :=
  Qsum ((filter (fun e => e.1 = k) l).*2).

Lemma key_sum_nil k : (key_sum k [] == 0)%Q.
Proof. reflexivity. Qed.

Lemma key_sum_cons k e l :
  (key_sum k (e :: l) == (if decide (e.1 = k) then e.2 else 0) + key_sum k l)%Q.
Proof.
  unfold key_sum. rewrite filter_cons. destruct (decide (e.1 = k)).
  - rewrite fmap_cons, Qsum_cons. reflexivity.
  - rewrite Qplus_0_l. reflexivity.
Qed.

Lemma key_sum_group_add k k' v acc :
  (key_sum k (group_add cmp k' v acc)
   == key_sum k acc + (if decide (k' = k) then v else 0))%Q.
Proof.
  induction acc as [|[k'' s] acc IH]; cbn [group_add].
  - rewrite key_sum_cons. cbn [fst snd]. lra.
  - destruct (cmp k' k'') eqn:Hc.
    + apply cmp_eq in Hc as ->. rewrite !key_sum_cons. cbn [fst snd].
      destruct (decide (k'' = k)); lra.
    + rewrite !key_sum_cons. cbn [fst snd]. lra.
    + rewrite !key_sum_cons, IH. cbn [fst snd]. lra.
Qed.

Lemma key_sum_groupby_sum k kvs :
  (key_sum k (groupby_sum cmp kvs) == key_sum k kvs)%Q.
Proof.
  unfold groupby_sum.
  assert (Hgen : forall acc,
            (key_sum k (foldl (fun acc kv => group_add cmp kv.1 kv.2 acc) acc kvs)
             == key_sum k acc + key_sum k kvs)%Q).
  { induction kvs as [|kv kvs IH]; intros acc; simpl.
    - rewrite key_sum_nil. lra.
    - rewrite IH, key_sum_group_add, key_sum_cons. lra. }
  rewrite Hgen, key_sum_nil. lra.
Qed.

Lemma elem_of_group_add_keys k0 k v acc :
  k0 ∈ (group_add cmp k v acc).*1 <-> k0 = k \/ k0 ∈ acc.*1.
Proof.
  induction acc as [|[k' s] acc IH]; simpl.
  - rewrite list_elem_of_singleton. split; [auto|]. intros [?|Hk]; [auto | inversion Hk].
  - destruct (cmp k k') eqn:Hc; simpl.
    + apply cmp_eq in Hc as ->. rewrite !elem_of_cons. tauto.
    + rewrite !elem_of_cons. simpl. tauto.
    + rewrite !elem_of_cons, IH. tauto.
Qed.

Lemma elem_of_groupby_sum_keys k0 kvs :
  k0 ∈ (groupby_sum cmp kvs).*1 <-> k0 ∈ kvs.*1.
Proof.
  unfold groupby_sum.
  assert (Hgen : forall acc,
            k0 ∈ (foldl (fun acc kv => group_add cmp kv.1 kv.2 acc) acc kvs).*1
            <-> k0 ∈ acc.*1 \/ k0 ∈ kvs.*1).
  { induction kvs as [|kv kvs IH]; intros acc; simpl.
    - split; [auto|]. intros [?|Hk]; [auto | inversion Hk].
    - rewrite IH, elem_of_group_add_keys, elem_of_cons. tauto. }
  rewrite Hgen. split; [|auto]. intros [Hk|?]; [inversion Hk | auto].
Qed.

Lemma groupby_sum_increasing kvs : keys_increasing cmp (groupby_sum cmp kvs).
Proof.
  unfold groupby_sum.
  assert (Hgen : forall acc, keys_increasing cmp acc ->
            keys_increasing cmp (foldl (fun acc kv => group_add cmp kv.1 kv.2 acc) acc kvs)).
  { induction kvs as [|kv kvs IH]; intros acc Hacc; simpl; [exact Hacc|].
    apply IH, group_add_increasing; assumption. }
  apply Hgen. constructor.
Qed.

Lemma keys_increasing_NoDup acc : keys_increasing cmp acc -> NoDup acc.*1.
Proof.
  induction 1 as [|e acc Hacc IH He]; simpl; constructor; [|exact IH].
  intros (e' & Hk & He')%list_elem_of_fmap.
  rewrite Forall_forall in He. specialize (He e' He'). rewrite <- Hk in He.
  exact (cmp_irrefl _ He).
Qed.

Lemma key_sum_unique k v acc :
  NoDup acc.*1 -> (k, v) ∈ acc -> (key_sum k acc == v)%Q.
Proof.
  induction acc as [|e acc IH]; intros Hnd Hin; [inversion Hin|].
  rewrite fmap_cons in Hnd. apply NoDup_cons in Hnd as [He Hnd].
  rewrite key_sum_cons. apply elem_of_cons in Hin as [<-|Hin].
  - simpl. rewrite decide_True by reflexivity.
    fold (key_sum k acc). assert (Hz : (key_sum k acc == 0)%Q); [|lra].
    unfold key_sum. rewrite filter_none; [reflexivity|].
    apply Forall_forall. intros e' He' Hk. apply He. rewrite <- Hk.
    apply list_elem_of_fmap. exists e'. auto.
  - assert (Hne : e.1 <> k).
    { intros Hk. apply He. rewrite Hk. apply list_elem_of_fmap. exists (k, v). auto. }
    rewrite decide_False by exact Hne. rewrite IH by assumption. lra.
Qed.

(** [groupby(keys).sum()]: the keys in increasing order, each once, each
    with the sum of the values filed under it. *)
Lemma groupby_sum_spec kvs :
  keys_increasing cmp (groupby_sum cmp kvs)
  /\ NoDup (groupby_sum cmp kvs).*1
  /\ (forall k, k ∈ (groupby_sum cmp kvs).*1 <-> k ∈ kvs.*1)
  /\ (forall k v, (k, v) ∈ groupby_sum cmp kvs -> (v == key_sum k kvs)%Q).
Proof.
  split; [apply groupby_sum_increasing|].
  split; [apply keys_increasing_NoDup, groupby_sum_increasing|].
  split; [intros k; apply elem_of_groupby_sum_keys|].
  intros k v Hin. rewrite <- key_sum_groupby_sum.
  symmetry. apply key_sum_unique; [|exact Hin].
  apply keys_increasing_NoDup, groupby_sum_increasing.
Qed.

End GroupSum.

Lemma Zcompare_irrefl a : (a ?= a)%Z <> Lt.
Proof. rewrite Z.compare_refl. discriminate. Qed.

Lemma Zcompare_gt a b : (a ?= b)%Z = Gt -> (b ?= a)%Z = Lt.
Proof. intros Hc. apply Z.compare_lt_iff. apply Z.compare_gt_iff in Hc. lia. Qed.

Lemma Zcompare_lt_trans a b c : (a ?= b)%Z = Lt -> (b ?= c)%Z = Lt -> (a ?= c)%Z = Lt.
Proof. rewrite !Z.compare_lt_iff. lia. Qed.

(** The daily totals: the dates of the table in increasing order, each once,
    each with the sum of its sales. *)
Lemma daily_series_spec (df : list Row) :
  StronglySorted (fun e e' => e.1 < e'.1)%Z (daily_series df)
  /\ NoDup (daily_series df).*1
  /\ (forall d, d ∈ (daily_series df).*1 <-> d ∈ date <$> df)
  /\ (forall d v, (d, v) ∈ daily_series df ->
        (v == Qsum (sales <$> filter (fun r => date r = d) df))%Q).
Proof.
  destruct (groupby_sum_spec Z.compare Z.compare_eq Zcompare_gt Zcompare_lt_trans
              Zcompare_irrefl ((fun r => (date r, sales r)) <$> df))
    as (Hinc & Hnd & Hkeys & Hsum).
  split; [|split; [exact Hnd|split]].
  - unfold keys_increasing in Hinc. fold (daily_series df) in Hinc.
    induction Hinc as [|e l Hl IH He]; constructor; [exact IH|].
    eapply Forall_impl; [exact He|]. simpl. intros e'. apply Z.compare_lt_iff.
  - intros d. unfold daily_series. rewrite Hkeys, <- list_fmap_compose. reflexivity.
  - intros d v Hin. rewrite (Hsum d v Hin). unfold key_sum.
    rewrite (filter_fmap_comm _ _ (fun r => date r = d)) by reflexivity.
    rewrite <- list_fmap_compose. reflexivity.
Qed.

End FrameFacts.

(** ** The forecast service *)

Module AppFacts.
Import Num NumFacts App.

Section Properties.
Context `{Library}.
Local Open Scope Q_scope.

Lemma bind_Ok {A B} (r : result A) (k : A -> result B) (b : B) :
  (r ≫= k) = Ok b -> exists a, r = Ok a /\ k a = Ok b.
Proof. destruct r as [a|e]; simpl; [eauto | discriminate]. Qed.

Lemma mapM_Ok {A B} (f : A -> result B) (l : list A) (bs : list B) :
  mapM f l = Ok bs -> Forall2 (fun a b => f a = Ok b) l bs.
Proof.
  revert bs. induction l as [|a l IH]; intros bs Hm; simpl in Hm.
  - injection Hm as <-. constructor.
  - apply bind_Ok in Hm as (b & Hb & Hm).
    apply bind_Ok in Hm as (bs' & Hbs & Hm).
    injection Hm as <-. constructor; auto.
Qed.

(** Every point the three generators build has the shape [point d pred lo hi]
    with [pred] the clamped prediction. *)
Definition emitted (p : ForecastPoint) : Prop :=
  exists d raw lo hi, p = point d (py_max0 raw) lo hi.

Lemma emitted_nonneg p : emitted p -> (0 <= predicted_demand p)%Q.
Proof.
  intros (d & raw & lo & hi & ->). simpl.
  apply py_round_nonneg, py_max0_nonneg.
Qed.

Lemma emitted_decimal p : emitted p -> is_decimal 1 (predicted_demand p).
Proof. intros (d & raw & lo & hi & ->). simpl. apply py_round_is_decimal. Qed.

Lemma xgboost_emitted env g days fs :
  generate_xgboost_forecast env g days = Ok fs -> Forall emitted fs.
Proof.
  unfold generate_xgboost_forecast.
  destruct (loaded_model g) as [[predict feature_cols| |]|]; try discriminate.
  intros Hg. apply bind_Ok in Hg as (last_row & _ & Hg).
  apply mapM_Ok in Hg.
  induction Hg as [|i p l fs' Hp _ IH]; constructor; [|exact IH].
  apply bind_Ok in Hp as (features & _ & Hp). injection Hp as <-.
  unfold emitted. eauto.
Qed.

Lemma imap_emitted (f : nat -> Z) lo hi (vals : list Q) :
  Forall emitted (imap (fun i val => point (f i) (py_max0 val) lo hi) vals).
Proof.
  revert f. induction vals as [|v vals IH]; intros f; simpl; constructor.
  - unfold emitted. eauto.
  - apply (IH (f ∘ S)).
Qed.

Lemma arima_emitted env g days fs :
  generate_arima_forecast env g days = Ok fs -> Forall emitted fs.
Proof.
  unfold generate_arima_forecast.
  destruct (loaded_model g) as [[|forecast|]|]; try discriminate.
  intros Hg. injection Hg as <-.
  rewrite imap_fmap.
  apply (imap_emitted (fun i => today env + Z.of_nat i)%Z).
Qed.

Lemma lstm_step_emitted predict scaler base st i st' :
  lstm_step predict scaler base st i = Ok st' ->
  Forall emitted (forecasts st) -> Forall emitted (forecasts st').
Proof.
  unfold lstm_step. case_decide; [|discriminate].
  intros Hs Hf. injection Hs as <-. simpl.
  apply Forall_app. split; [exact Hf|].
  constructor; [|constructor]. unfold emitted. eauto.
Qed.

Lemma foldM_invariant {A S} (f : S -> A -> result S) (P : S -> Prop) :
  (forall s a s', f s a = Ok s' -> P s -> P s') ->
  forall l s s', foldM f s l = Ok s' -> P s -> P s'.
Proof.
  intros Hstep. induction l as [|a l IH]; intros s s' Hf Hs; simpl in Hf.
  - injection Hf as <-. exact Hs.
  - apply bind_Ok in Hf as (s1 & H1 & Hf). eauto.
Qed.

Lemma lstm_emitted env g days fs :
  generate_lstm_forecast env g days = Ok fs -> Forall emitted fs.
Proof.
  unfold generate_lstm_forecast, lstm_loop.
  destruct (loaded_model g) as [[| |predict scaler]|]; try discriminate.
  case_decide; [discriminate|].
  destruct (foldM _ _ _) as [st|e] eqn:Hf; [|discriminate].
  intros Hg. injection Hg as <-.
  eapply (foldM_invariant _ (fun st => Forall emitted (forecasts st))); [|exact Hf|].
  - intros s a s'. apply lstm_step_emitted.
  - constructor.
Qed.

Lemma generate_forecast_emitted env g days fs :
  generate_forecast env g days = Ok fs -> Forall emitted fs.
Proof.
  unfold generate_forecast. repeat case_decide.
  - apply xgboost_emitted.
  - apply arima_emitted.
  - apply lstm_emitted.
  - intros Hg. injection Hg as <-. constructor.
Qed.

(** **** Aggregation *)

Lemma period_nil lo hi w : period lo hi w [] = [].
Proof. reflexivity. Qed.

Lemma period_cons lo hi w first rest :
  exists final,
    last (first :: rest) = Some final /\
    period lo hi w (first :: rest) =
      [ {| period_number := Z.of_nat w + 1;
           start_date := date first;
           end_date := date final;
           total_predicted_demand :=
             py_round (Qsum (predicted_demand <$> first :: rest)) 1;
           avg_daily_demand :=
             py_round (Qsum (predicted_demand <$> first :: rest)
                       / inject_Z (Z.of_nat (length (first :: rest)))) 1;
           period_confidence :=
             {| lower := py_round (Qsum (predicted_demand <$> first :: rest) * lo) 1;
                upper := py_round (Qsum (predicted_demand <$> first :: rest) * hi) 1 |} |} ].
Proof.
  destruct (last (first :: rest)) as [final|] eqn:Hl.
  - exists final. split; [reflexivity|]. unfold period. rewrite Hl. reflexivity.
  - apply last_None in Hl. discriminate.
Qed.

Lemma aggregate_S size lo hi (n : nat) daily :
  aggregate size lo hi (Z.of_nat (S n)) daily =
  aggregate size lo hi (Z.of_nat n) daily
    ++ period lo hi n (take size (drop (n * size) daily)).
Proof.
  unfold aggregate. rewrite !Nat2Z.id, seq_S, fmap_app, join_app. simpl.
  rewrite app_nil_r. reflexivity.
Qed.

Lemma aggregate_0 size lo hi daily : aggregate size lo hi 0 daily = [].
Proof. reflexivity. Qed.

(** Each period reports the rounded sum of its slice, and the band is taken
    from the unrounded sum. *)
Definition period_of_slice (lo hi : Q) (slice : list ForecastPoint)
    (p : AggregatedPeriod) : Prop :=
  total_predicted_demand p = py_round (Qsum (predicted_demand <$> slice)) 1
  /\ lower (period_confidence p) = py_round (Qsum (predicted_demand <$> slice) * lo) 1
  /\ upper (period_confidence p) = py_round (Qsum (predicted_demand <$> slice) * hi) 1.

Lemma aggregate_elem size lo hi (n : nat) daily p :
  p ∈ aggregate size lo hi (Z.of_nat n) daily ->
  exists w, (w < n)%nat /\
    period_of_slice lo hi (take size (drop (w * size) daily)) p.
Proof.
  induction n as [|n IH].
  - rewrite aggregate_0. intros Hp. inversion Hp.
  - rewrite aggregate_S. intros [Hp|Hp]%elem_of_app.
    + destruct (IH Hp) as (w & Hw & Hs). exists w. split; [lia|exact Hs].
    + exists n. split; [lia|].
      destruct (take size (drop (n * size) daily)) as [|first rest] eqn:Hslice.
      * inversion Hp.
      * destruct (period_cons lo hi n first rest) as (final & _ & E).
        rewrite E in Hp. apply list_elem_of_singleton in Hp as ->. repeat split.
Qed.

Lemma slice_decimal size w (daily : list ForecastPoint) :
  Forall (fun p => is_decimal 1 (predicted_demand p)) daily ->
  is_decimal 1 (Qsum (predicted_demand <$> take size (drop (w * size) daily))).
Proof.
  intros Hd. apply Qsum_is_decimal. apply Forall_fmap.
  apply Forall_take, Forall_drop. exact Hd.
Qed.

(** On points with one decimal the band is the stated fraction of the total
    the period reports. *)
Lemma aggregate_band size lo hi periods daily p :
  Forall (fun p => is_decimal 1 (predicted_demand p)) daily ->
  p ∈ aggregate size lo hi periods daily ->
  lower (period_confidence p) = py_round (total_predicted_demand p * lo) 1
  /\ upper (period_confidence p) = py_round (total_predicted_demand p * hi) 1.
Proof.
  intros Hd Hp.
  assert (Hn : aggregate size lo hi periods daily
               = aggregate size lo hi (Z.of_nat (Z.to_nat periods)) daily).
  { unfold aggregate. rewrite Nat2Z.id. reflexivity. }
  rewrite Hn in Hp. apply aggregate_elem in Hp as (w & _ & Ht & Hlo & Hhi).
  pose proof (py_round_decimal _ _ (slice_decimal size w daily Hd)) as E.
  rewrite Hlo, Hhi, Ht.
  split; apply py_round_comp; rewrite E; reflexivity.
Qed.

Lemma take_succ_block {A} size n (l : list A) :
  take (S n * size) l = take (n * size) l ++ take size (drop (n * size) l).
Proof. rewrite take_take_drop. f_equal. lia. Qed.

Lemma period_sum lo hi w slice :
  Qsum (total_predicted_demand <$> period lo hi w slice)
  == match slice with
     | [] => 0
     | _ => py_round (Qsum (predicted_demand <$> slice)) 1
     end.
Proof.
  destruct slice as [|first rest]; [reflexivity|].
  destruct (period_cons lo hi w first rest) as (final & _ & ->).
  cbn [fmap list_fmap total_predicted_demand]. rewrite Qsum_cons.
  change (Qsum []) with 0%Q. lra.
Qed.

Lemma period_length lo hi w slice : (length (period lo hi w slice) ≤ 1)%nat.
Proof.
  destruct slice as [|first rest]; [simpl; lia|].
  destruct (period_cons lo hi w first rest) as (final & _ & ->). simpl. lia.
Qed.

Lemma period_sum_error lo hi w slice :
  Qabs (Qsum (total_predicted_demand <$> period lo hi w slice)
        - Qsum (predicted_demand <$> slice))
  <= inject_Z (Z.of_nat (length (period lo hi w slice))) * (1 # 20).
Proof.
  destruct slice as [|first rest]; [vm_compute; discriminate|].
  rewrite (period_sum lo hi w (first :: rest)).
  destruct (period_cons lo hi w first rest) as (final & _ & ->).
  change (inject_Z (Z.of_nat (length [_])) * (1 # 20)) with (1 * (1 # 20)).
  pose proof (py_round_error (Qsum (predicted_demand <$> first :: rest)) 1) as E.
  change (1 # 2 * Z.to_pos (10 ^ Z.of_nat 1)) with (1 # 20) in E. lra.
Qed.

Lemma aggregate_sum_error size lo hi (n : nat) daily :
  Qabs (Qsum (total_predicted_demand <$> aggregate size lo hi (Z.of_nat n) daily)
        - Qsum (predicted_demand <$> take (n * size) daily))
  <= inject_Z (Z.of_nat (length (aggregate size lo hi (Z.of_nat n) daily))) * (1 # 20).
Proof.
  induction n as [|n IH].
  - rewrite aggregate_0. vm_compute. discriminate.
  - rewrite aggregate_S, take_succ_block, !fmap_app, !Qsum_app, length_app.
    rewrite Nat2Z.inj_add, inject_Z_plus.
    pose proof (period_sum_error lo hi n (take size (drop (n * size) daily))) as E.
    set (a := Qsum (total_predicted_demand <$> aggregate _ _ _ _ _)) in *.
    set (b := Qsum (total_predicted_demand <$> period _ _ _ _)) in *.
    set (c := Qsum (predicted_demand <$> take (n * size) _)) in *.
    set (d := Qsum (predicted_demand <$> take size _)) in *.
    assert (Et : a + b - (c + d) == (a - c) + (b - d)) by lra.
    rewrite Et. eapply Qle_trans; [apply Qabs_triangle|]. lra.
Qed.

Lemma aggregate_sum_exact size lo hi (n : nat) daily :
  Forall (fun p => is_decimal 1 (predicted_demand p)) daily ->
  Qsum (total_predicted_demand <$> aggregate size lo hi (Z.of_nat n) daily)
  == Qsum (predicted_demand <$> take (n * size) daily).
Proof.
  intros Hd. induction n as [|n IH].
  - rewrite aggregate_0. reflexivity.
  - rewrite aggregate_S, take_succ_block, !fmap_app, !Qsum_app, IH.
    apply Qplus_inj_l. rewrite period_sum.
    pose proof (slice_decimal size n daily Hd) as Hs.
    destruct (take size (drop (n * size) daily)) as [|first rest]; [reflexivity|].
    apply py_round_decimal, Hs.
Qed.

(** C5.  When the requested periods cover the points (as they do in both
    requests, which generate [periods * size] points), the period totals add
    up to the sum of the predicted demands: up to half a unit of the last
    digit per period for arbitrary values, and exactly for values with one
    decimal, which is what every generator emits. *)
Theorem aggregate_preserves_total size lo hi periods daily :
  (length daily ≤ Z.to_nat periods * size)%nat ->
  Qabs (Qsum (total_predicted_demand <$> aggregate size lo hi periods daily)
        - Qsum (predicted_demand <$> daily))
  <= inject_Z (Z.of_nat (length (aggregate size lo hi periods daily))) * (1 # 20)
  /\ (Forall (fun p => is_decimal 1 (predicted_demand p)) daily ->
      Qsum (total_predicted_demand <$> aggregate size lo hi periods daily)
      == Qsum (predicted_demand <$> daily)).
Proof.
  intros Hcover.
  assert (Hn : aggregate size lo hi periods daily
               = aggregate size lo hi (Z.of_nat (Z.to_nat periods)) daily).
  { unfold aggregate. rewrite Nat2Z.id. reflexivity. }
  rewrite Hn. split.
  - rewrite <- (take_ge daily (Z.to_nat periods * size)) at 2 by exact Hcover.
    apply aggregate_sum_error.
  - intros Hd.
    rewrite <- (take_ge daily (Z.to_nat periods * size)) at 2 by exact Hcover.
    apply aggregate_sum_exact, Hd.
Qed.

(** C1 (amended).  The band of a period does not follow the model variant:
    every weekly period has the band 0.85/1.15 of the total it reports and
    every monthly period the band 0.82/1.18, whichever model is loaded. *)
Theorem period_band_fixed env g arg forecast_type name horizon data p :
  (weekly_forecast env g arg = Success forecast_type name horizon data ->
   p ∈ data ->
   period_confidence p
   = {| lower := py_round (total_predicted_demand p * 0.85) 1;
        upper := py_round (total_predicted_demand p * 1.15) 1 |})
  /\ (monthly_forecast env g arg = Success forecast_type name horizon data ->
      p ∈ data ->
      period_confidence p
      = {| lower := py_round (total_predicted_demand p * 0.82) 1;
           upper := py_round (total_predicted_demand p * 1.18) 1 |}).
Proof.
  split.
  - unfold weekly_forecast. destruct (loaded_model g); [|discriminate].
    destruct (int_arg 4 arg) as [weeks|e]; [|discriminate]. simpl.
    destruct (generate_forecast env g _) as [daily|e] eqn:Hg; [|discriminate].
    simpl. intros Hs Hp. injection Hs as _ _ _ <-.
    apply generate_forecast_emitted in Hg.
    eapply aggregate_band in Hp as [Hlo Hhi].
    + destruct (period_confidence p). simpl in *. subst. reflexivity.
    + eapply Forall_impl; [exact Hg|]. apply emitted_decimal.
  - unfold monthly_forecast. destruct (loaded_model g); [|discriminate].
    destruct (int_arg 3 arg) as [months|e]; [|discriminate]. simpl.
    destruct (generate_forecast env g _) as [daily|e] eqn:Hg; [|discriminate].
    simpl. intros Hs Hp. injection Hs as _ _ _ <-.
    apply generate_forecast_emitted in Hg.
    eapply aggregate_band in Hp as [Hlo Hhi].
    + destruct (period_confidence p). simpl in *. subst. reflexivity.
    + eapply Forall_impl; [exact Hg|]. apply emitted_decimal.
Qed.

(** **** The recursion of the sequence model *)

Lemma py_tail_length {A} n (l : list A) :
  (n ≤ length l)%nat -> length (Frame.py_tail n l) = n.
Proof. intros Hn. unfold Frame.py_tail. rewrite length_drop. lia. Qed.

Lemma py_tail_snoc {A} n (l : list A) x :
  (0 < n ≤ length l)%nat ->
  Frame.py_tail n (l ++ [x]) = drop 1 (Frame.py_tail n l) ++ [x].
Proof.
  intros Hn. unfold Frame.py_tail. rewrite length_app. simpl.
  rewrite drop_app_le by lia. rewrite drop_drop. do 2 f_equal. lia.
Qed.

Lemma foldM_app {A S} (f : S -> A -> result S) s l1 l2 :
  foldM f s (l1 ++ l2) = foldM f s l1 ≫= fun s' => foldM f s' l2.
Proof.
  revert s. induction l1 as [|a l1 IH]; intros s; simpl; [reflexivity|].
  destruct (f s a); simpl; [apply IH | reflexivity].
Qed.

(** What holds of the loop state after any number of iterations started on
    the seed: the input list is the seed followed by the raw outputs of the
    network, and call [k] saw the last [lookback] values of the seed
    followed by the first [k] raw outputs. *)
Record lstm_invariant (predict : list Q -> Q) (scaler : MinMaxScaler)
    (base_date : Z) (seed : list Q) (st : LstmLoop) : Prop := {
  inv_input : current_input st = seed ++ (predict <$> windows st);
  inv_length : length (forecasts st) = length (windows st);
  inv_window : forall k X, windows st !! k = Some X ->
    X = Frame.py_tail lookback (seed ++ (predict <$> take k (windows st)));
  inv_point : forall k X, windows st !! k = Some X ->
    forecasts st !! k
    = Some (point (base_date + Z.of_nat k)%Z
                  (py_max0 (inverse_transform scaler (predict X))) 0.82 1.18);
}.

Lemma lstm_step_invariant predict scaler base_date seed st :
  length seed = lookback ->
  lstm_invariant predict scaler base_date seed st ->
  exists st',
    lstm_step predict scaler base_date st (Z.of_nat (length (windows st))) = Ok st'
    /\ length (windows st') = S (length (windows st))
    /\ lstm_invariant predict scaler base_date seed st'.
Proof.
  intros Hseed [Hin Hlen Hwin Hpt]. unfold lstm_step.
  assert (Hlong : (lookback ≤ length (current_input st))%nat).
  { rewrite Hin, length_app. lia. }
  rewrite decide_True by (apply py_tail_length, Hlong).
  eexists. split; [reflexivity|]. cbn [windows forecasts current_input].
  split; [rewrite length_app; simpl; lia|].
  split; cbn [windows forecasts current_input].
  - rewrite fmap_app, app_assoc, <- Hin. reflexivity.
  - rewrite !length_app. simpl. lia.
  - intros k X Hk. destruct (decide (k < length (windows st))%nat) as [Hlt|Hge].
    + rewrite lookup_app_l in Hk by exact Hlt.
      rewrite take_app_le by lia. apply Hwin, Hk.
    + rewrite lookup_app_r in Hk by lia.
      destruct (k - length (windows st))%nat as [|j] eqn:Hj; [|destruct j; discriminate].
      injection Hk as <-. assert (k = length (windows st)) as -> by lia.
      rewrite take_app_length, <- Hin. reflexivity.
  - intros k X Hk. destruct (decide (k < length (windows st))%nat) as [Hlt|Hge].
    + rewrite lookup_app_l in Hk by exact Hlt.
      rewrite lookup_app_l by lia. apply Hpt, Hk.
    + rewrite lookup_app_r in Hk by lia.
      destruct (k - length (windows st))%nat as [|j] eqn:Hj; [|destruct j; discriminate].
      injection Hk as <-. assert (k = length (windows st)) as -> by lia.
      rewrite lookup_app_r by lia. rewrite Hlen, Nat.sub_diag. reflexivity.
Qed.

Lemma lstm_fold_invariant predict scaler base_date seed (n : nat) st :
  length seed = lookback ->
  lstm_invariant predict scaler base_date seed st ->
  exists st',
    foldM (lstm_step predict scaler base_date) st
          (seqZ (Z.of_nat (length (windows st))) (Z.of_nat n)) = Ok st'
    /\ length (windows st') = (length (windows st) + n)%nat
    /\ lstm_invariant predict scaler base_date seed st'.
Proof.
  intros Hseed. induction n as [|n IH]; intros Hinv.
  - exists st. split; [reflexivity|]. split; [lia|exact Hinv].
  - destruct (IH Hinv) as (st1 & Hf1 & Hl1 & Hinv1).
    destruct (lstm_step_invariant _ _ _ _ _ Hseed Hinv1) as (st2 & Hs2 & Hl2 & Hinv2).
    exists st2. rewrite seqZ_S, foldM_app, Hf1. simpl.
    rewrite <- Nat2Z.inj_add, <- Hl1, Hs2.
    split; [reflexivity|]. split; [lia|exact Hinv2].
Qed.

(** C4.  With at least [lookback] daily totals on file and a horizon of at
    least one day, the forecast of the sequence model succeeds after exactly
    [days] calls to the network, one per emitted point.  Every call reads a
    window of [lookback] values, and so would a further one; the input list
    ends up as the scaled seed followed by the raw outputs of the network
    (not the clamped, inverse-transformed values that are reported); and each
    window after the first is the previous one moved by one place with the
    previous raw output at its end. *)
Theorem lstm_recursive_steps env predict scaler name days :
  (1 <= days)%Z ->
  (lookback ≤ length (Frame.daily_total (processed env)))%nat ->
  let g := {| loaded_model := Some (LSTMData predict scaler);
              loaded_model_name := name |} in
  let seed := transform scaler
                <$> Frame.py_tail lookback (Frame.daily_total (processed env)) in
  exists st,
    lstm_loop env g days = Ok st
    /\ generate_lstm_forecast env g days = Ok (forecasts st)
    /\ length (windows st) = Z.to_nat days
    /\ length (forecasts st) = Z.to_nat days
    /\ current_input st = seed ++ (predict <$> windows st)
    /\ length (Frame.py_tail lookback (current_input st)) = lookback
    /\ windows st !! 0%nat = Some seed
    /\ (forall k X, windows st !! k = Some X ->
         length X = lookback
         /\ forecasts st !! k
            = Some (point (today env + Z.of_nat k)%Z
                          (py_max0 (inverse_transform scaler (predict X))) 0.82 1.18))
    /\ (forall k X X', windows st !! k = Some X -> windows st !! S k = Some X' ->
         X' = drop 1 X ++ [predict X]).
Proof.
  intros Hdays Hhist g seed.
  assert (Hseed : length seed = lookback).
  { unfold seed. rewrite length_fmap. apply py_tail_length, Hhist. }
  set (st0 := {| forecasts := []; current_input := seed; windows := [] |}).
  assert (Hinv0 : lstm_invariant predict scaler (today env) seed st0).
  { split; simpl; [rewrite app_nil_r; reflexivity | reflexivity | | ];
      intros k X Hk; rewrite lookup_nil in Hk; discriminate. }
  destruct (lstm_fold_invariant predict scaler (today env) seed (Z.to_nat days) st0
              Hseed Hinv0) as (st & Hf & Hl & [Hin Hlen Hwin Hpt]).
  simpl in Hf, Hl. rewrite Z2Nat.id in Hf by lia.
  assert (Hloop : lstm_loop env g days = Ok st).
  { unfold lstm_loop. simpl. rewrite decide_False; [exact Hf|].
    intros Hnil. apply (f_equal length) in Hnil.
    rewrite py_tail_length in Hnil by exact Hhist. discriminate. }
  assert (Hwlen : forall k X, windows st !! k = Some X -> length X = lookback).
  { intros k X Hk. rewrite (Hwin k X Hk). apply py_tail_length.
    rewrite length_app. lia. }
  exists st. split; [exact Hloop|].
  split; [unfold generate_lstm_forecast; rewrite Hloop; reflexivity|].
  split; [exact Hl|]. split; [lia|]. split; [exact Hin|].
  split; [apply py_tail_length; rewrite Hin, length_app; lia|].
  split; [|split].
  - destruct (windows st) as [|X ws] eqn:Hws; [simpl in Hl; lia|].
    simpl. f_equal. pose proof (Hwin 0%nat X eq_refl) as E.
    simpl in E. rewrite app_nil_r in E. rewrite E. unfold Frame.py_tail.
    rewrite Hseed, Nat.sub_diag. reflexivity.
  - intros k X Hk. split; [apply (Hwlen k X Hk) | apply Hpt, Hk].
  - intros k X X' Hk Hk'. rewrite (Hwin (S k) X' Hk').
    rewrite (take_S_r _ _ X Hk), fmap_app, app_assoc. simpl.
    rewrite py_tail_snoc.
    + rewrite <- (Hwin k X Hk). reflexivity.
    + rewrite length_app. unfold lookback in *. lia.
Qed.

(** **** Both requests generate as many points as their periods cover *)

Lemma lstm_fold_length predict scaler base_date l st st' :
  foldM (lstm_step predict scaler base_date) st l = Ok st' ->
  length (forecasts st') = (length (forecasts st) + length l)%nat.
Proof.
  revert st. induction l as [|i l IH]; intros st Hf; simpl in Hf.
  - injection Hf as <-. simpl. lia.
  - apply bind_Ok in Hf as (st1 & Hs & Hf). apply IH in Hf. rewrite Hf.
    unfold lstm_step in Hs. case_decide; [|discriminate].
    injection Hs as <-. simpl. rewrite length_app. simpl. lia.
Qed.

(** The tree-ensemble and sequence generators emit exactly [days] points
    (and no generator is chosen for an unknown model name); the statistical
    one emits what the fitted model's [forecast] returns. *)
Lemma generate_forecast_length env g days fs :
  generate_forecast env g days = Ok fs ->
  (length fs ≤ Z.to_nat days)%nat
  \/ exists forecast,
       loaded_model g = Some (SARIMAXResults forecast)
       /\ length fs = length (forecast days).
Proof.
  unfold generate_forecast. repeat case_decide.
  - unfold generate_xgboost_forecast.
    destruct (loaded_model g) as [[predict feature_cols| |]|]; try discriminate.
    intros Hg. apply bind_Ok in Hg as (last_row & _ & Hg).
    apply mapM_Ok, Forall2_length in Hg. rewrite length_seqZ in Hg. left.
    rewrite <- Hg. reflexivity.
  - unfold generate_arima_forecast.
    destruct (loaded_model g) as [[|forecast|]|]; try discriminate.
    intros Hg. injection Hg as <-. right. exists forecast.
    split; [reflexivity|]. rewrite length_imap, length_fmap. reflexivity.
  - unfold generate_lstm_forecast, lstm_loop.
    destruct (loaded_model g) as [[| |predict scaler]|]; try discriminate.
    case_decide; [discriminate|].
    destruct (foldM _ _ _) as [st|e] eqn:Hf; [|discriminate].
    intros Hg. injection Hg as <-. apply lstm_fold_length in Hf.
    rewrite length_seqZ in Hf. left. rewrite Hf. reflexivity.
  - intros Hg. injection Hg as <-. left. simpl. lia.
Qed.

Lemma to_nat_blocks periods (size : nat) :
  Z.to_nat (periods * Z.of_nat size) = (Z.to_nat periods * size)%nat.
Proof.
  destruct (Z_le_gt_dec 0 periods) as [Hp|Hp].
  - rewrite Z2Nat.inj_mul, Nat2Z.id by lia. reflexivity.
  - assert (Hneg : (periods * Z.of_nat size <= 0)%Z) by nia.
    replace (Z.to_nat periods) with 0%nat by lia. simpl. lia.
Qed.

(** The weekly request, end to end: provided a statistical model returns no
    more values than the steps it is asked for, the weekly totals add up to
    the sum of the daily predictions they are built from. *)
Lemma weekly_total_preserved env g arg forecast_type name weeks data :
  (forall forecast steps,
     loaded_model g = Some (SARIMAXResults forecast) ->
     (length (forecast steps) ≤ Z.to_nat steps)%nat) ->
  weekly_forecast env g arg = Success forecast_type name weeks data ->
  exists daily,
    generate_forecast env g (weeks * 7) = Ok daily
    /\ Qsum (total_predicted_demand <$> data) == Qsum (predicted_demand <$> daily).
Proof.
  intros Hsarima. unfold weekly_forecast. destruct (loaded_model g) eqn:Hm; [|discriminate].
  destruct (int_arg 4 arg) as [w|e]; [|discriminate]. simpl.
  destruct (generate_forecast env g _) as [daily|e] eqn:Hg; [|discriminate].
  simpl. intros Hs. injection Hs as _ _ <- <-.
  exists daily. split; [exact Hg|].
  assert (Hcover : (length daily ≤ Z.to_nat (w `min` 12) * 7)%nat).
  { rewrite <- (to_nat_blocks (w `min` 12) 7).
    apply generate_forecast_length in Hg as [Hlen|(forecast & Hf & ->)]; [exact Hlen|].
    apply (Hsarima forecast). rewrite <- Hm. exact Hf. }
  assert (Hn : aggregate 7 0.85 1.15 (w `min` 12) daily
               = aggregate 7 0.85 1.15 (Z.of_nat (Z.to_nat (w `min` 12))) daily).
  { unfold aggregate. rewrite Nat2Z.id. reflexivity. }
  rewrite Hn.
  rewrite <- (take_ge daily (Z.to_nat (w `min` 12) * 7)) at 2 by exact Hcover.
  apply aggregate_sum_exact.
  apply generate_forecast_emitted in Hg.
  eapply Forall_impl; [exact Hg|]. apply emitted_decimal.
Qed.

(** C6.  Whatever model is loaded and whatever it returns (a negative raw
    output included), every point of a forecast that is produced has a
    predicted demand of at least zero; this holds for every horizon. *)
Theorem predicted_demand_nonneg env g days fs :
  generate_forecast env g days = Ok fs ->
  Forall (fun p => (0 <= predicted_demand p)%Q) fs.
Proof.
  intros Hg. apply generate_forecast_emitted in Hg.
  eapply Forall_impl; [exact Hg|]. apply emitted_nonneg.
Qed.

(** C9.  With no model name set the engine returns the empty sequence and
    raises nothing, and with no model loaded each of the three forecast
    requests answers with status 503 and an error body, not with a
    success. *)
Theorem no_model_unavailable env m name days arg :
  generate_forecast env (mkGlobals m None) days = Ok []
  /\ daily_forecast env (mkGlobals None name) arg = Failure 503 no_model
  /\ weekly_forecast env (mkGlobals None name) arg = Failure 503 no_model
  /\ monthly_forecast env (mkGlobals None name) arg = Failure 503 no_model.
Proof. repeat split. Qed.

End Properties.

(** *** Examples *)

(** Tuesday 3 November 2026, and a table of one row. *)
Definition example_env : Env :=
  {| processed := [Frame.mkRow 739922 1 5 ∅]; today := 739923 |}.

(** A statistical model that forecasts 10 for every day. *)
Definition example_sarima : Globals :=
  {| loaded_model := Some (SARIMAXResults (fun steps => replicate (Z.to_nat steps) 10%Q));
     loaded_model_name := Some "SARIMA" |}.

(** A tree ensemble whose raw output is -5 on every input. *)
Definition example_xgboost : Globals :=
  {| loaded_model := Some (XGBoostData (fun _ => (-5)%Q) ["item"; "sales_lag_1"]);
     loaded_model_name := Some "XGBoost" |}.

(** C1, as stated, fails: with the statistical model loaded, the week of
    seven days at 10.0 has the total 70.0 and the band 59.5/80.5, which is
    0.85/1.15 of the total, not the statistical variant's 0.80/1.20 (56.0/84.0). *)
Lemma weekly_band_not_per_variant :
  exists p,
    @weekly_forecast example_library example_env example_sarima (Integer 1)
    = Success "weekly" (Some "SARIMA") 1 [p]
    /\ total_predicted_demand p = 70%Q
    /\ period_confidence p = {| lower := 119 # 2; upper := 161 # 2 |}
    /\ lower (period_confidence p) <> py_round (total_predicted_demand p * 0.80) 1
    /\ upper (period_confidence p) <> py_round (total_predicted_demand p * 1.20) 1.
Proof.
  eexists. split; [vm_compute; reflexivity|].
  split; [reflexivity|]. split; [reflexivity|].
  split; vm_compute; discriminate.
Qed.

Lemma period_band_fixed_witness :
  period_confidence
    {| period_number := 1; start_date := 739923; end_date := 739929;
       total_predicted_demand := 70; avg_daily_demand := 10;
       period_confidence := {| lower := 119 # 2; upper := 161 # 2 |} |}
  = {| lower := py_round (70 * 0.85) 1; upper := py_round (70 * 1.15) 1 |}.
Proof.
  refine (proj1 (@period_band_fixed example_library example_env example_sarima
                   (Integer 1) "weekly" (Some "SARIMA") 1 _ _) _ _).
  - vm_compute. reflexivity.
  - apply list_elem_of_singleton. reflexivity.
Defined.

Lemma predicted_demand_nonneg_witness :
  @generate_forecast example_library example_env example_xgboost 2
  = Ok [ {| date := 739923; day_name := "Tuesday"; predicted_demand := 0;
            confidence := {| lower := 0; upper := 0 |} |};
         {| date := 739924; day_name := "Wednesday"; predicted_demand := 0;
            confidence := {| lower := 0; upper := 0 |} |} ]
  /\ Forall (fun p => (0 <= predicted_demand p)%Q)
       [ {| date := 739923; day_name := "Tuesday"; predicted_demand := 0;
            confidence := {| lower := 0; upper := 0 |} |};
         {| date := 739924; day_name := "Wednesday"; predicted_demand := 0;
            confidence := {| lower := 0; upper := 0 |} |} ].
Proof.
  split; [vm_compute; reflexivity|].
  apply (@predicted_demand_nonneg example_library example_env example_xgboost 2).
  vm_compute. reflexivity.
Defined.

(** Thirty-one days on file, day [d] with total sales [d], and a network
    whose output is the last value of its window minus 40: every raw output
    is negative. *)
Definition example_history : Env :=
  {| processed := (fun d => Frame.mkRow d 1 (inject_Z d) ∅) <$> seqZ 1 31;
     today := 739923 |}.

Definition example_network (X : list Q) : Q := (default 0 (last X) - 40)%Q.

Definition example_lstm : Globals :=
  {| loaded_model := Some (LSTMData example_network (mkScaler 1 0));
     loaded_model_name := Some "LSTM" |}.

Lemma lstm_recursive_steps_witness :
  (1 <= 3)%Z
  /\ (lookback ≤ length (Frame.daily_total (processed example_history)))%nat
  /\ exists st,
       lstm_loop example_history example_lstm 3 = Ok st
       /\ length (windows st) = 3%nat
       /\ length (forecasts st) = 3%nat.
Proof.
  split; [lia|]. split; [vm_compute; lia|].
  destruct (lstm_recursive_steps example_history example_network
              (mkScaler 1 0) (Some "LSTM") 3)
    as (st & Hloop & _ & Hw & Hf & _); [lia | vm_compute; lia |].
  exists st. split; [exact Hloop|]. split; [exact Hw | exact Hf].
Defined.

(** The values appended to the input list are the raw outputs -9, -49 and
    -89, while the reported demands are their clamped readings, 0. *)
Example lstm_appends_raw_output :
  (fun st => (predicted_demand <$> forecasts st, drop lookback (current_input st)))
    <$> lstm_loop example_history example_lstm 3
  = Ok ([0%Q; 0%Q; 0%Q], [(-9)%Q; (-49)%Q; (-89)%Q]).
Proof. vm_compute. reflexivity. Qed.

(** C4, as stated, fails: with one daily total on file and the horizon 1,
    the seed holds one value, the first step cannot form its window of
    [lookback] values and raises, and the forecast ends with [ValueError]
    after no step at all, not after one. *)
Lemma lstm_no_step_on_short_history :
  (1 <= 1)%Z
  /\ Frame.daily_total (processed example_env) = [5%Q]
  /\ lstm_step example_network (mkScaler 1 0) (today example_env)
       {| forecasts := []; current_input := transform (mkScaler 1 0) <$> [5%Q];
          windows := [] |} 0
     = Raise ValueError
  /\ lstm_loop example_env example_lstm 1 = Raise ValueError
  /\ @generate_forecast example_library example_env example_lstm 1 = Raise ValueError.
Proof.
  split; [lia|]. split; [vm_compute; reflexivity|].
  split; [vm_compute; reflexivity|]. split; vm_compute; reflexivity.
Qed.

(** Eight points at 0.5, 1.5, ..., 7.5 in two blocks of seven. *)
Definition example_points : list ForecastPoint :=
  (fun i => point (739923 + i) (inject_Z i + 0.5) 0.85 1.15) <$> seqZ 0 8.

Lemma aggregate_preserves_total_witness :
  (length example_points ≤ Z.to_nat 2 * 7)%nat
  /\ Qsum (total_predicted_demand <$> aggregate 7 0.85 1.15 2 example_points) == 32
  /\ Qsum (predicted_demand <$> example_points) == 32.
Proof.
  split; [vm_compute; lia|].
  destruct (aggregate_preserves_total 7 0.85 1.15 2 example_points) as [_ Hexact];
    [vm_compute; lia|].
  assert (Hsum : Qsum (predicted_demand <$> example_points) == 32) by reflexivity.
  split; [|exact Hsum].
  rewrite <- Hsum. apply Hexact.
  apply Forall_fmap, Forall_forall. intros i _. apply py_round_is_decimal.
Defined.

(** *** Shape of a generated forecast *)

Section Forecasts.
Context `{Library}.
Local Open Scope Q_scope.

(** Point number [k] of a forecast: dated [k] days after today, built from a
    clamped prediction and a band around it. *)
Definition point_of_day (today : Z) (k : nat) (p : ForecastPoint) : Prop :=
  exists raw lo hi,
    p = point (today + Z.of_nat k) (py_max0 raw) lo hi /\ 0 <= lo <= 1 /\ 1 <= hi.

Lemma seqZ_to_nat m n : seqZ m n = seqZ m (Z.of_nat (Z.to_nat n)).
Proof. unfold seqZ. rewrite Nat2Z.id. reflexivity. Qed.

Lemma xgboost_points env g days fs :
  generate_xgboost_forecast env g days = Ok fs ->
  length fs = Z.to_nat days
  /\ forall k p, fs !! k = Some p -> point_of_day (today env) k p.
Proof.
  unfold generate_xgboost_forecast.
  destruct (loaded_model g) as [[predict feature_cols| |]|]; try discriminate.
  intros Hg. apply bind_Ok in Hg as (last_row & _ & Hg). apply mapM_Ok in Hg.
  split.
  - apply Forall2_length in Hg. rewrite length_seqZ in Hg. symmetry. exact Hg.
  - intros k p Hk.
    destruct (Forall2_lookup_r _ _ _ _ _ Hg Hk) as (i & Hi & Hp).
    apply lookup_seqZ in Hi as [-> _].
    apply bind_Ok in Hp as (features & _ & Hp). injection Hp as <-.
    exists (predict features), 0.85, 1.15. rewrite Z.add_0_l.
    split; [reflexivity|]. split; [split|]; vm_compute; discriminate.
Qed.

Lemma arima_points env g days fs :
  generate_arima_forecast env g days = Ok fs ->
  forall k p, fs !! k = Some p -> point_of_day (today env) k p.
Proof.
  unfold generate_arima_forecast.
  destruct (loaded_model g) as [[|forecast|]|]; try discriminate.
  intros Hg k p Hk. injection Hg as <-.
  rewrite list_lookup_imap, list_lookup_fmap in Hk.
  destruct (forecast days !! k) as [raw|]; [|discriminate].
  injection Hk as <-. exists raw, 0.80, 1.20.
  split; [reflexivity|]. split; [split|]; vm_compute; discriminate.
Qed.

Lemma lstm_fold_points predict scaler base_date (n : nat) st0 st :
  forecasts st0 = [] ->
  foldM (lstm_step predict scaler base_date) st0 (seqZ 0 (Z.of_nat n)) = Ok st ->
  length (forecasts st) = n
  /\ forall k p, forecasts st !! k = Some p -> point_of_day base_date k p.
Proof.
  intros Hnil. revert st. induction n as [|n IH]; intros st Hf.
  - injection Hf as <-. rewrite Hnil. split; [reflexivity|].
    intros k p Hk. rewrite lookup_nil in Hk. discriminate.
  - rewrite seqZ_S, foldM_app in Hf. apply bind_Ok in Hf as (st1 & Hf1 & Hs).
    destruct (IH st1 Hf1) as [Hlen Hpts]. simpl in Hs.
    apply bind_Ok in Hs as (st2 & Hs & Hst). injection Hst as <-.
    unfold lstm_step in Hs. case_decide; [|discriminate].
    injection Hs as <-. cbn [forecasts].
    split; [rewrite length_app, Hlen; simpl; lia|].
    intros k p Hk. apply lookup_app_Some in Hk as [Hk|[Hge Hk]]; [apply Hpts, Hk|].
    rewrite Hlen in Hge, Hk.
    destruct (k - n)%nat as [|j] eqn:Hj; [|destruct j; discriminate].
    injection Hk as <-. assert (k = n) as -> by lia.
    eexists _, 0.82, 1.18. rewrite Z.add_0_l.
    split; [reflexivity|]. split; [split|]; vm_compute; discriminate.
Qed.

Lemma lstm_points env g days fs :
  generate_lstm_forecast env g days = Ok fs ->
  length fs = Z.to_nat days
  /\ forall k p, fs !! k = Some p -> point_of_day (today env) k p.
Proof.
  unfold generate_lstm_forecast, lstm_loop.
  destruct (loaded_model g) as [[| |predict scaler]|]; try discriminate.
  case_decide; [discriminate|].
  destruct (foldM _ _ _) as [st|e] eqn:Hf; [|discriminate].
  intros Hg. injection Hg as <-.
  rewrite seqZ_to_nat in Hf. apply lstm_fold_points in Hf; [exact Hf | reflexivity].
Qed.

Lemma generate_forecast_points env g days fs :
  generate_forecast env g days = Ok fs ->
  forall k p, fs !! k = Some p -> point_of_day (today env) k p.
Proof.
  unfold generate_forecast. repeat case_decide.
  - intros Hg. apply (proj2 (xgboost_points env g days fs Hg)).
  - apply arima_points.
  - intros Hg. apply (proj2 (lstm_points env g days fs Hg)).
  - intros Hg k p Hk. injection Hg as <-. rewrite lookup_nil in Hk. discriminate.
Qed.

(** X1.  Whatever model is loaded, point number [k] of a forecast is dated
    [k] days after today and carries the weekday name of that date: the
    dates are consecutive and start today. *)
Theorem forecast_dates_consecutive env g days fs k p :
  generate_forecast env g days = Ok fs ->
  fs !! k = Some p ->
  date p = (today env + Z.of_nat k)%Z
  /\ day_name p = Calendar.strftime_A (today env + Z.of_nat k).
Proof.
  intros Hg Hk.
  destruct (generate_forecast_points env g days fs Hg k p Hk)
    as (raw & lo & hi & -> & _).
  split; reflexivity.
Qed.

Lemma py_max0_le x y : 0 <= y -> x <= y -> py_max0 x <= y.
Proof. intros Hy Hxy. unfold py_max0. destruct (decide (0 < x)); assumption. Qed.

(** X2.  In every point of a forecast the band brackets the prediction and
    starts at zero or above: 0 <= lower <= predicted_demand <= upper. *)
Theorem forecast_band_brackets env g days fs p :
  generate_forecast env g days = Ok fs ->
  p ∈ fs ->
  0 <= lower (confidence p)
  /\ lower (confidence p) <= predicted_demand p
  /\ predicted_demand p <= upper (confidence p).
Proof.
  intros Hg [k Hk]%list_elem_of_lookup_1.
  destruct (generate_forecast_points env g days fs Hg k p Hk)
    as (raw & lo & hi & -> & [Hlo0 Hlo1] & Hhi).
  pose proof (py_max0_nonneg raw) as Hpred.
  cbn [point confidence lower upper predicted_demand].
  split; [apply py_round_nonneg, py_max0_nonneg|].
  split; apply py_round_le.
  - apply py_max0_le; [exact Hpred | nra].
  - nra.
Qed.

(** *** Periods *)

Lemma aggregate_length size lo hi (n : nat) daily :
  (length (aggregate size lo hi (Z.of_nat n) daily) ≤ n)%nat.
Proof.
  induction n as [|n IH]; [rewrite aggregate_0; simpl; lia|].
  rewrite aggregate_S, length_app.
  pose proof (period_length lo hi n (take size (drop (n * size) daily))). lia.
Qed.

(** Block number [k] of a sequence that holds at least [k + 1] blocks. *)
Lemma full_slice {A} (size k : nat) (l : list A) :
  (0 < size)%nat -> (S k * size ≤ length l)%nat ->
  exists first rest final,
    take size (drop (k * size) l) = first :: rest
    /\ last (first :: rest) = Some final
    /\ l !! (k * size)%nat = Some first
    /\ l !! (k * size + size - 1)%nat = Some final.
Proof.
  intros Hsize Hlen.
  assert (Hslice : length (take size (drop (k * size) l)) = size).
  { rewrite length_take, length_drop. lia. }
  destruct (take size (drop (k * size) l)) as [|first rest] eqn:Hs;
    [simpl in Hslice; lia|].
  assert (Hget : forall i, (i < size)%nat ->
            (first :: rest) !! i = l !! (k * size + i)%nat).
  { intros i Hi. rewrite <- Hs, lookup_take_lt, lookup_drop by exact Hi. reflexivity. }
  destruct (last (first :: rest)) as [final|] eqn:Hl;
    [|apply last_None in Hl; discriminate].
  exists first, rest, final. split; [reflexivity|]. split; [exact Hl|]. split.
  - pose proof (Hget 0%nat Hsize) as H0. rewrite Nat.add_0_r in H0.
    rewrite <- H0. reflexivity.
  - rewrite last_lookup, Hslice in Hl.
    replace (k * size + size - 1)%nat with (k * size + pred size)%nat by lia.
    rewrite <- Hget by lia. exact Hl.
Qed.

Lemma aggregate_full size lo hi (n : nat) daily :
  (0 < size)%nat -> (n * size ≤ length daily)%nat ->
  length (aggregate size lo hi (Z.of_nat n) daily) = n
  /\ forall k p, aggregate size lo hi (Z.of_nat n) daily !! k = Some p ->
       period_number p = (Z.of_nat k + 1)%Z
       /\ exists first final,
            daily !! (k * size)%nat = Some first
            /\ daily !! (k * size + size - 1)%nat = Some final
            /\ start_date p = date first /\ end_date p = date final.
Proof.
  intros Hsize. induction n as [|n IH]; intros Hlen.
  - rewrite aggregate_0. split; [reflexivity|].
    intros k p Hk. rewrite lookup_nil in Hk. discriminate.
  - destruct IH as [IHlen IHpts]; [lia|].
    destruct (full_slice size n daily Hsize Hlen)
      as (first & rest & final & Hs & Hl & Hfirst & Hfinal).
    rewrite aggregate_S, Hs.
    destruct (period_cons lo hi n first rest) as (final' & Hl' & ->).
    rewrite Hl in Hl'. injection Hl' as <-.
    split; [rewrite length_app, IHlen; simpl; lia|].
    intros k p Hk. apply lookup_app_Some in Hk as [Hk|[Hge Hk]]; [apply IHpts, Hk|].
    rewrite IHlen in Hge, Hk.
    destruct (k - n)%nat as [|j] eqn:Hj; [|destruct j; discriminate].
    injection Hk as <-. assert (k = n) as -> by lia.
    split; [reflexivity|]. exists first, final. repeat split; assumption.
Qed.

(** X3.  With the tree-ensemble or the sequence model loaded, a weekly
    forecast that succeeds holds exactly [weeks] periods (none for a negative
    number); period [k + 1] runs from day [7 k] to day [7 k + 6] after today,
    so the periods are consecutive, do not overlap and start today.  The same
    holds for a monthly forecast with blocks of 30 days. *)
Theorem periods_cover_consecutive_days env g arg forecast_type name horizon data k p :
  loaded_model_name g = Some "XGBoost" \/ loaded_model_name g = Some "LSTM" ->
  (weekly_forecast env g arg = Success forecast_type name horizon data ->
   length data = Z.to_nat horizon
   /\ (data !! k = Some p ->
       period_number p = (Z.of_nat k + 1)%Z
       /\ start_date p = (today env + 7 * Z.of_nat k)%Z
       /\ end_date p = (today env + 7 * Z.of_nat k + 6)%Z))
  /\ (monthly_forecast env g arg = Success forecast_type name horizon data ->
      length data = Z.to_nat horizon
      /\ (data !! k = Some p ->
          period_number p = (Z.of_nat k + 1)%Z
          /\ start_date p = (today env + 30 * Z.of_nat k)%Z
          /\ end_date p = (today env + 30 * Z.of_nat k + 29)%Z)).
Proof.
  intros Hname.
  assert (Hexact : forall days fs, generate_forecast env g days = Ok fs ->
            length fs = Z.to_nat days).
  { intros days fs. unfold generate_forecast.
    destruct Hname as [Hn|Hn]; rewrite Hn; repeat case_decide; try congruence.
    - intros Hg. apply (proj1 (xgboost_points env g days fs Hg)).
    - intros Hg. apply (proj1 (lstm_points env g days fs Hg)). }
  assert (Hblocks : forall (size : nat) lo hi periods daily,
            (0 < size)%nat ->
            generate_forecast env g (periods * Z.of_nat size) = Ok daily ->
            length (aggregate size lo hi periods daily) = Z.to_nat periods
            /\ (aggregate size lo hi periods daily !! k = Some p ->
                period_number p = (Z.of_nat k + 1)%Z
                /\ start_date p = (today env + Z.of_nat size * Z.of_nat k)%Z
                /\ end_date p
                   = (today env + Z.of_nat size * Z.of_nat k + (Z.of_nat size - 1))%Z)).
  { intros size lo hi periods daily Hsize Hg.
    pose proof (Hexact _ _ Hg) as Hlen. rewrite to_nat_blocks in Hlen.
    assert (Hn : aggregate size lo hi periods daily
                 = aggregate size lo hi (Z.of_nat (Z.to_nat periods)) daily).
    { unfold aggregate. rewrite Nat2Z.id. reflexivity. }
    rewrite Hn.
    destruct (aggregate_full size lo hi (Z.to_nat periods) daily Hsize) as [Hl Hpts];
      [lia|].
    split; [exact Hl|]. intros Hk.
    destruct (Hpts k p Hk) as (Hnum & first & final & Hfirst & Hfinal & -> & ->).
    split; [exact Hnum|].
    destruct (generate_forecast_points env g _ daily Hg _ first Hfirst)
      as (raw1 & lo1 & hi1 & -> & _).
    destruct (generate_forecast_points env g _ daily Hg _ final Hfinal)
      as (raw2 & lo2 & hi2 & -> & _).
    cbn [point date]. split; lia. }
  split.
  - unfold weekly_forecast. destruct (loaded_model g); [|discriminate].
    destruct (int_arg 4 arg) as [w|e]; [|discriminate]. simpl.
    destruct (generate_forecast env g _) as [daily|e] eqn:Hg; [|discriminate].
    simpl. intros Hs. injection Hs as _ _ <- <-.
    destruct (Hblocks 7%nat 0.85 1.15 (w `min` 12)%Z daily) as [Hl Hp];
      [lia | exact Hg |].
    split; [exact Hl|]. intros Hk. destruct (Hp Hk) as (? & ? & ?).
    repeat split; [assumption | lia | lia].
  - unfold monthly_forecast. destruct (loaded_model g); [|discriminate].
    destruct (int_arg 3 arg) as [w|e]; [|discriminate]. simpl.
    destruct (generate_forecast env g _) as [daily|e] eqn:Hg; [|discriminate].
    simpl. intros Hs. injection Hs as _ _ <- <-.
    destruct (Hblocks 30%nat 0.82 1.18 (w `min` 6)%Z daily) as [Hl Hp];
      [lia | exact Hg |].
    split; [exact Hl|]. intros Hk. destruct (Hp Hk) as (? & ? & ?).
    repeat split; [assumption | lia | lia].
Qed.

(** X4.  The horizon a request is answered with never exceeds its cap (30
    days, 12 weeks, 6 months), and a weekly or monthly answer never holds
    more periods than that horizon. *)
Theorem horizon_capped env g arg forecast_type name horizon :
  (forall data, daily_forecast env g arg = Success forecast_type name horizon data ->
     (horizon <= 30)%Z)
  /\ (forall data, weekly_forecast env g arg = Success forecast_type name horizon data ->
       (horizon <= 12)%Z /\ (length data ≤ Z.to_nat horizon)%nat)
  /\ (forall data, monthly_forecast env g arg = Success forecast_type name horizon data ->
       (horizon <= 6)%Z /\ (length data ≤ Z.to_nat horizon)%nat).
Proof.
  assert (Hagg : forall size lo hi periods daily,
            (length (aggregate size lo hi periods daily) ≤ Z.to_nat periods)%nat).
  { intros size lo hi periods daily.
    assert (Hn : aggregate size lo hi periods daily
                 = aggregate size lo hi (Z.of_nat (Z.to_nat periods)) daily).
    { unfold aggregate. rewrite Nat2Z.id. reflexivity. }
    rewrite Hn. apply aggregate_length. }
  split; [|split]; intros data.
  - unfold daily_forecast. destruct (loaded_model g); [|discriminate].
    destruct (int_arg 7 arg) as [d|e]; [|discriminate]. simpl.
    destruct (generate_forecast env g _) as [fs|e]; [|discriminate].
    simpl. intros Hs. injection Hs as _ _ <- _. lia.
  - unfold weekly_forecast. destruct (loaded_model g); [|discriminate].
    destruct (int_arg 4 arg) as [w|e]; [|discriminate]. simpl.
    destruct (generate_forecast env g _) as [daily|e]; [|discriminate].
    simpl. intros Hs. injection Hs as _ _ <- <-. split; [lia | apply Hagg].
  - unfold monthly_forecast. destruct (loaded_model g); [|discriminate].
    destruct (int_arg 3 arg) as [w|e]; [|discriminate]. simpl.
    destruct (generate_forecast env g _) as [daily|e]; [|discriminate].
    simpl. intros Hs. injection Hs as _ _ <- <-. split; [lia | apply Hagg].
Qed.

(** *** Failures *)

Lemma py_tail_short {A} n (l : list A) : (length l ≤ n)%nat -> Frame.py_tail n l = l.
Proof.
  intros Hl. unfold Frame.py_tail.
  replace (length l - n)%nat with 0%nat by lia. reflexivity.
Qed.

Lemma lstm_step_short predict scaler base_date st i :
  (length (current_input st) < lookback)%nat ->
  lstm_step predict scaler base_date st i = Raise ValueError.
Proof.
  intros Hshort. unfold lstm_step. rewrite decide_False; [reflexivity|].
  rewrite py_tail_short by lia. lia.
Qed.

Lemma lstm_short_raises env predict scaler name days :
  (1 <= days)%Z ->
  (length (Frame.daily_total (processed env)) < lookback)%nat ->
  generate_lstm_forecast env
    {| loaded_model := Some (LSTMData predict scaler); loaded_model_name := name |} days
  = Raise ValueError.
Proof.
  intros Hdays Hshort. unfold generate_lstm_forecast, lstm_loop. cbn [loaded_model].
  case_decide as Hrecent; [reflexivity|].
  rewrite seqZ_cons by lia. cbn [foldM].
  rewrite lstm_step_short; [reflexivity|].
  cbn [current_input]. rewrite length_fmap, py_tail_short by lia. exact Hshort.
Qed.

(** X5.  With the sequence model loaded, fewer than [lookback] daily totals
    on file and a horizon of at least one day, the forecast raises
    [ValueError] (no window of [lookback] values can be formed), and so each
    of the three forecast requests with a parameter of at least 1 answers
    with status 500. *)
Theorem lstm_short_history_raises env predict scaler days :
  (1 <= days)%Z ->
  (length (Frame.daily_total (processed env)) < lookback)%nat ->
  let g := {| loaded_model := Some (LSTMData predict scaler);
              loaded_model_name := Some "LSTM" |} in
  generate_lstm_forecast env g days = Raise ValueError
  /\ generate_forecast env g days = Raise ValueError
  /\ status (daily_forecast env g (Integer days)) = 500%Z
  /\ status (weekly_forecast env g (Integer days)) = 500%Z
  /\ status (monthly_forecast env g (Integer days)) = 500%Z.
Proof.
  intros Hdays Hshort g.
  assert (Hgen : forall n, (1 <= n)%Z -> generate_forecast env g n = Raise ValueError).
  { intros n Hn.
    change (generate_forecast env g n) with (generate_lstm_forecast env g n).
    apply lstm_short_raises; assumption. }
  split; [apply lstm_short_raises; assumption|].
  split; [apply Hgen, Hdays|].
  split; [|split].
  - unfold daily_forecast. cbn [g loaded_model int_arg]. simpl mbind.
    rewrite Hgen by lia. reflexivity.
  - unfold weekly_forecast. cbn [g loaded_model int_arg]. simpl mbind.
    rewrite Hgen by lia. reflexivity.
  - unfold monthly_forecast. cbn [g loaded_model int_arg]. simpl mbind.
    rewrite Hgen by lia. reflexivity.
Qed.

Definition request_status (loaded : option Model) (arg : QueryArg) (s : Z) : Prop :=
  (s = 200 \/ s = 500 \/ s = 503)%Z
  /\ (s = 503%Z <-> loaded = None)
  /\ (loaded <> None -> arg = NotInteger -> s = 500%Z).

Lemma request_status_loaded {A B} (m : Model) (arg : QueryArg) (default : Z)
    (k : Z -> result (Z * list A)) (ok : Z * list A -> Response B) :
  (forall x, status (ok x) = 200%Z) ->
  request_status (Some m) arg
    (status match int_arg default arg ≫= k with
            | Ok x => ok x
            | Raise e => Failure 500 (str e)
            end).
Proof.
  intros Hok. unfold request_status. split; [|split].
  - destruct (int_arg default arg ≫= k) as [x|e]; [rewrite Hok|]; auto.
  - destruct (int_arg default arg ≫= k) as [x|e]; [rewrite Hok|];
      (split; [discriminate|]); intros Hm; discriminate Hm.
  - intros _ ->. reflexivity.
Qed.

(** X6.  Each of the three forecast requests answers with status 200, 500 or
    503; with 503 exactly when no model is loaded; and with 500 when a model
    is loaded and the parameter is not an integer. *)
Theorem forecast_request_status env g arg :
  request_status (loaded_model g) arg (status (daily_forecast env g arg))
  /\ request_status (loaded_model g) arg (status (weekly_forecast env g arg))
  /\ request_status (loaded_model g) arg (status (monthly_forecast env g arg)).
Proof.
  unfold daily_forecast, weekly_forecast, monthly_forecast.
  destruct (loaded_model g) as [m|].
  - split; [|split].
    + apply (request_status_loaded m arg 7
               (fun days => forecasts ← generate_forecast env g (days `min` 30);
                            Ok ((days `min` 30)%Z, forecasts))
               (fun '(days, forecasts) =>
                  Success "daily" (loaded_model_name g) days forecasts)).
      intros [days forecasts]. reflexivity.
    + apply (request_status_loaded m arg 4
               (fun weeks => daily_data ← generate_forecast env g ((weeks `min` 12) * 7);
                             Ok ((weeks `min` 12)%Z,
                                 aggregate 7 0.85 1.15 (weeks `min` 12) daily_data))
               (fun '(weeks, weekly_data) =>
                  Success "weekly" (loaded_model_name g) weeks weekly_data)).
      intros [weeks weekly_data]. reflexivity.
    + apply (request_status_loaded m arg 3
               (fun months => daily_data ← generate_forecast env g ((months `min` 6) * 30);
                              Ok ((months `min` 6)%Z,
                                  aggregate 30 0.82 1.18 (months `min` 6) daily_data))
               (fun '(months, monthly_data) =>
                  Success "monthly" (loaded_model_name g) months monthly_data)).
      intros [months monthly_data]. reflexivity.
  - assert (Hnone : forall arg, request_status None arg 503).
    { intros a. unfold request_status. split; [auto|].
      split; [split; reflexivity|]. intros Hm. destruct (Hm eq_refl). }
    cbn [status]. split; [|split]; apply Hnone.
Qed.

Lemma mapM_Ok_intro {A B} (f : A -> result B) (l : list A) :
  Forall (fun a => exists b, f a = Ok b) l -> exists bs, mapM f l = Ok bs.
Proof.
  induction 1 as [|a l [b Hb] _ [bs IH]]; simpl.
  - exists []. reflexivity.
  - exists (b :: bs). rewrite Hb. simpl. rewrite IH. reflexivity.
Qed.

Lemma cols_foldl_numbers (l : list (string * Q)) r k v :
  Frame.cols (foldl (fun r kv => Frame.set_col kv.1 (Frame.Num kv.2) r) r l) !! k = Some v ->
  (exists q, v = Frame.Num q) \/ Frame.cols r !! k = Some v.
Proof.
  revert r. induction l as [|kv l IH]; intros r Hk; simpl in Hk; [right; exact Hk|].
  apply IH in Hk as [Hq|Hk]; [left; exact Hq|].
  simpl in Hk. apply lookup_insert_Some in Hk as [[_ <-]|[_ Hk]];
    [left; eexists; reflexivity | right; exact Hk].
Qed.

(** X7.  With the tree-ensemble model loaded: on an empty data file the
    forecast raises [IndexError] for every horizon, zero included; on a data
    file where no feature column is the date or holds text, it succeeds with
    exactly [days] points. *)
Theorem xgboost_forecast_outcome env predict feature_cols name days :
  let g := {| loaded_model := Some (XGBoostData predict feature_cols);
              loaded_model_name := name |} in
  (processed env = [] -> generate_xgboost_forecast env g days = Raise IndexError)
  /\ (processed env <> [] ->
      Forall (fun col => col <> "date"
                /\ forall r s, r ∈ processed env ->
                     Frame.cols r !! col <> Some (Frame.Str s)) feature_cols ->
      exists fs, generate_xgboost_forecast env g days = Ok fs
                 /\ length fs = Z.to_nat days).
Proof.
  intros g. unfold generate_xgboost_forecast. cbn [g loaded_model]. split.
  - intros ->. reflexivity.
  - intros Hne Hcols.
    destruct (last (Frame.sort_values _ (processed env))) as [last_row|] eqn:Hlast.
    2:{ apply last_None in Hlast. destruct (processed env) as [|r l]; [congruence|].
        assert (Hr : r ∈ Frame.sort_values
                       (fun a b => (Frame.date a <? Frame.date b)%Z) (r :: l))
          by (apply FrameFacts.elem_of_sort_values; left).
        rewrite Hlast in Hr. inversion Hr. }
    assert (Hin : last_row ∈ processed env).
    { apply last_Some in Hlast as [l' Hl'].
      apply (FrameFacts.elem_of_sort_values
               (fun a b => (Frame.date a <? Frame.date b)%Z)).
      rewrite Hl'. apply elem_of_app. right. left. }
    simpl mbind.
    destruct (mapM_Ok_intro
                (fun i : Z =>
                   features ← mapM (feature_value
                       (foldl (fun r kv => Frame.set_col kv.1 (Frame.Num kv.2) r)
                              last_row (Calendar.date_fields (today env + i))))
                     feature_cols;
                   Ok (point (today env + i) (py_max0 (predict features)) 0.85 1.15))
                (seqZ 0 days)) as [fs Hfs].
    { apply Forall_forall. intros i _.
      destruct (mapM_Ok_intro
                  (feature_value
                     (foldl (fun r kv => Frame.set_col kv.1 (Frame.Num kv.2) r)
                            last_row (Calendar.date_fields (today env + i))))
                  feature_cols) as [features Hfeat].
      - eapply Forall_impl; [exact Hcols|]. cbn beta. intros col [Hdate Htext].
        unfold feature_value. rewrite decide_False by exact Hdate.
        repeat case_decide; try (eexists; reflexivity).
        destruct (Frame.cols _ !! col) as [[|q|s]|] eqn:Hc; try (eexists; reflexivity).
        apply cols_foldl_numbers in Hc as [[q Hq]|Hc]; [discriminate|].
        destruct (Htext last_row s Hin Hc).
      - rewrite Hfeat. eexists. reflexivity. }
    exists fs. split; [exact Hfs|].
    apply mapM_Ok, Forall2_length in Hfs. rewrite length_seqZ in Hfs.
    symmetry. exact Hfs.
Qed.

End Forecasts.

(** *** Examples *)

Definition example_point (d : Z) (name : string) (pred lo hi : Q) : ForecastPoint :=
  {| date := d; day_name := name; predicted_demand := pred;
     confidence := {| lower := lo; upper := hi |} |}.

Lemma forecast_dates_consecutive_witness :
  @generate_forecast example_library example_env example_xgboost 2
  = Ok [example_point 739923 "Tuesday" 0 0 0; example_point 739924 "Wednesday" 0 0 0]
  /\ date (example_point 739924 "Wednesday" 0 0 0) = (today example_env + Z.of_nat 1)%Z
  /\ day_name (example_point 739924 "Wednesday" 0 0 0)
     = Calendar.strftime_A (today example_env + Z.of_nat 1).
Proof.
  assert (Hg : @generate_forecast example_library example_env example_xgboost 2
               = Ok [example_point 739923 "Tuesday" 0 0 0;
                     example_point 739924 "Wednesday" 0 0 0])
    by (vm_compute; reflexivity).
  split; [exact Hg|].
  apply (@forecast_dates_consecutive example_library example_env example_xgboost 2 _ 1%nat
           _ Hg).
  reflexivity.
Defined.

Lemma forecast_band_brackets_witness :
  @generate_forecast example_library example_env example_sarima 1
  = Ok [example_point 739923 "Tuesday" 10 8 12]
  /\ (0 <= 8 /\ 8 <= 10 /\ 10 <= 12)%Q.
Proof.
  assert (Hg : @generate_forecast example_library example_env example_sarima 1
               = Ok [example_point 739923 "Tuesday" 10 8 12])
    by (vm_compute; reflexivity).
  split; [exact Hg|].
  apply (@forecast_band_brackets example_library example_env example_sarima 1 _
           (example_point 739923 "Tuesday" 10 8 12) Hg).
  left.
Defined.

Definition example_week : AggregatedPeriod :=
  {| period_number := 1; start_date := 739923; end_date := 739929;
     total_predicted_demand := 0; avg_daily_demand := 0;
     period_confidence := {| lower := 0; upper := 0 |} |}.

Lemma periods_cover_consecutive_days_witness :
  @weekly_forecast example_library example_env example_xgboost (Integer 1)
  = Success "weekly" (Some "XGBoost") 1 [example_week]
  /\ length [example_week] = Z.to_nat 1
  /\ period_number example_week = (Z.of_nat 0 + 1)%Z
  /\ start_date example_week = (today example_env + 7 * Z.of_nat 0)%Z
  /\ end_date example_week = (today example_env + 7 * Z.of_nat 0 + 6)%Z.
Proof.
  assert (Hw : @weekly_forecast example_library example_env example_xgboost (Integer 1)
               = Success "weekly" (Some "XGBoost") 1 [example_week])
    by (vm_compute; reflexivity).
  split; [exact Hw|].
  destruct (proj1 (@periods_cover_consecutive_days example_library example_env
                     example_xgboost (Integer 1) "weekly" (Some "XGBoost") 1
                     [example_week] 0%nat example_week (or_introl eq_refl)) Hw)
    as [Hlen Hp].
  split; [exact Hlen|]. apply Hp. reflexivity.
Defined.

Lemma horizon_capped_witness :
  exists data,
    @daily_forecast example_library example_env example_sarima (Integer 45)
    = Success "daily" (Some "SARIMA") 30 data
    /\ (30 <= 30)%Z.
Proof.
  eexists. split; [vm_compute; reflexivity|].
  eapply (proj1 (@horizon_capped example_library example_env example_sarima
                   (Integer 45) "daily" (Some "SARIMA") 30)).
  vm_compute. reflexivity.
Defined.

Lemma lstm_short_history_raises_witness :
  (1 <= 7)%Z
  /\ (length (Frame.daily_total (processed example_env)) < lookback)%nat
  /\ @generate_forecast example_library example_env example_lstm 7 = Raise ValueError
  /\ status (@daily_forecast example_library example_env example_lstm (Integer 7)) = 500%Z.
Proof.
  assert (Hshort : (length (Frame.daily_total (processed example_env)) < lookback)%nat)
    by (vm_compute; lia).
  split; [lia|]. split; [exact Hshort|].
  destruct (@lstm_short_history_raises example_library example_env example_network
              (mkScaler 1 0) 7 ltac:(lia) Hshort) as (_ & Hgen & Hdaily & _).
  split; [exact Hgen | exact Hdaily].
Defined.

Lemma xgboost_forecast_outcome_witness :
  processed example_env <> []
  /\ exists fs,
       @generate_xgboost_forecast example_library example_env example_xgboost 3 = Ok fs
       /\ length fs = Z.to_nat 3.
Proof.
  assert (Hne : processed example_env <> []) by discriminate.
  split; [exact Hne|].
  apply (proj2 (@xgboost_forecast_outcome example_library example_env
                  (fun _ => (-5)%Q) ["item"; "sales_lag_1"] (Some "XGBoost") 3) Hne).
  repeat constructor; try discriminate;
    intros r s [->|Hr]%elem_of_cons Hc; (discriminate Hc || inversion Hr).
Defined.

End AppFacts.

(** ** Training and selection *)

Module ModelsFacts.
Import Num NumFacts Models.

Section Metrics.
Context `{Library}.

(** *** Metrics *)

Lemma Qsum_zero xs : Forall (fun x => x == 0)%Q xs -> (Qsum xs == 0)%Q.
Proof.
  induction 1 as [|x xs Hx _ IH]; [reflexivity|].
  rewrite Qsum_cons, Hx, IH. reflexivity.
Qed.

Lemma Qmean_zero xs : Forall (fun x => x == 0)%Q xs -> (Qmean xs == 0)%Q.
Proof.
  intros Hxs. unfold Qmean. rewrite (Qsum_zero xs Hxs).
  unfold Qdiv. apply Qmult_0_l.
Qed.

Lemma zip_with_self_zero (f : Q -> Q -> Q) (y : list Q) :
  (forall t, f t t == 0)%Q -> Forall (fun x => x == 0)%Q (zip_with f y y).
Proof. intros Hf. induction y as [|t y IH]; simpl; constructor; auto. Qed.

Lemma np_mask_self {A} (mask : list bool) (f : A -> A -> Q) (y : list A) :
  (forall t, f t t == 0)%Q ->
  Forall (fun x => x == 0)%Q (zip_with f (np_mask mask y) (np_mask mask y)).
Proof.
  intros Hf. revert mask. induction y as [|t y IH]; intros [|[] mask]; simpl;
    try constructor; auto.
Qed.

(** Boolean indexing of the two vectors by the mask of the positive actual
    values selects the pairs whose actual value is positive. *)
Lemma np_mask_positive {B} (f : Q -> Q -> B) (y_true y_pred : list Q) :
  length y_true = length y_pred ->
  let mask := (fun t => bool_decide (0 < t)%Q) <$> y_true in
  zip_with f (np_mask mask y_true) (np_mask mask y_pred)
  = (fun tp => f tp.1 tp.2) <$> filter (fun tp => 0 < tp.1)%Q (zip y_true y_pred)
  /\ length (filter (fun b => b = true) mask)
     = length (filter (fun tp => 0 < tp.1)%Q (zip y_true y_pred)).
Proof.
  revert y_pred. induction y_true as [|t y_true IH]; intros [|p y_pred] Hlen;
    try discriminate; [split; reflexivity|].
  injection Hlen as Hlen. destruct (IH y_pred Hlen) as [IH1 IH2].
  cbn [fmap list_fmap np_mask zip zip_with].
  rewrite !filter_cons. cbn [fst].
  destruct (decide (0 < t)%Q) as [Hpos|Hneg].
  - rewrite (bool_decide_eq_true_2 _ Hpos). rewrite decide_True by reflexivity.
    cbn [zip_with fmap list_fmap length fst snd]. split; [f_equal; exact IH1 | f_equal; exact IH2].
  - rewrite (bool_decide_eq_false_2 _ Hneg). rewrite decide_False by discriminate.
    split; [exact IH1 | exact IH2].
Qed.

(** C8.  Provided [np.sqrt] maps zero to zero: on two identical vectors
    with a positive entry the three metrics are 0; and in general the mape is
    the rounded mean, in percent, of the relative errors at the positions
    whose actual value is positive, and 0 when there is no such position. *)
Theorem compute_metrics_contract :
  (forall x, x == 0 -> np_sqrt x == 0)%Q ->
  (forall y, Exists (fun v => 0 < v)%Q y ->
     compute_metrics y y = Ok {| rmse := 0; mae := 0; mape := 0 |})
  /\ (forall y_true y_pred m, compute_metrics y_true y_pred = Ok m ->
       mape m
       = match filter (fun tp => 0 < tp.1)%Q (zip y_true y_pred) with
         | [] => 0%Q
         | positive =>
             py_round (Qmean ((fun tp => Qabs ((tp.1 - tp.2) / tp.1)) <$> positive)
                       * 100) 2
         end).
Proof.
  intros Hsqrt. split.
  - intros y Hy. unfold compute_metrics. rewrite decide_True.
    2:{ split; [reflexivity|]. intros ->. inversion Hy. }
    cbv zeta.
    assert (Herr : Forall (fun x => x == 0)%Q (zip_with Qminus y y)).
    { apply zip_with_self_zero. intros t. unfold Qminus. apply Qplus_opp_r. }
    f_equal. f_equal.
    + apply py_round_zero, Hsqrt, Qmean_zero.
      apply Forall_fmap. eapply Forall_impl; [exact Herr|].
      simpl. intros e ->. reflexivity.
    + apply py_round_zero, Qmean_zero.
      apply Forall_fmap. eapply Forall_impl; [exact Herr|].
      simpl. intros e ->. reflexivity.
    + apply py_round_zero. destruct (decide _); [|reflexivity].
      rewrite Qmean_zero; [reflexivity|].
      apply Forall_fmap.
      eapply Forall_impl; [apply np_mask_self|].
      * intros t. unfold Qdiv, Qminus. rewrite Qplus_opp_r. apply Qmult_0_l.
      * simpl. intros e ->. reflexivity.
  - intros y_true y_pred m. unfold compute_metrics.
    destruct (decide _) as [[Hlen _]|]; [|discriminate].
    cbv zeta. intros Hm. injection Hm as <-. cbn [mape].
    destruct (np_mask_positive (fun t p => (t - p) / t)%Q y_true y_pred Hlen)
      as [Hzip Hcount].
    cbv zeta in Hzip, Hcount. rewrite Hzip, Hcount, <- list_fmap_compose.
    destruct (filter _ (zip y_true y_pred)) as [|tp positive].
    + rewrite decide_False by (simpl; lia). apply py_round_0.
    + rewrite decide_True by (simpl; lia). reflexivity.
Qed.

End Metrics.

(** *** The time-based split *)

Lemma foldl_max_spec d ds :
  (d ≤ foldl Z.max d ds)%Z
  /\ Forall (fun x => x ≤ foldl Z.max d ds)%Z ds
  /\ foldl Z.max d ds ∈ d :: ds.
Proof.
  revert d. induction ds as [|x ds IH]; intros d; simpl.
  - split; [lia|]. split; [constructor | left].
  - destruct (IH (Z.max d x)) as (Hd & Hds & Hin). split; [lia|]. split.
    + constructor; [lia | exact Hds].
    + apply elem_of_cons in Hin as [Hin|Hin]; [|right; right; exact Hin].
      rewrite Hin. destruct (Z.max_spec d x) as [[_ ->]|[_ ->]];
        [right; left | left].
Qed.

Lemma max_date_spec df latest :
  max_date df = Some latest ->
  (forall r, r ∈ df -> Frame.date r ≤ latest)%Z
  /\ exists r, r ∈ df /\ Frame.date r = latest.
Proof.
  unfold max_date. destruct df as [|r0 df]; [discriminate|]. simpl.
  intros Hm. injection Hm as <-.
  destruct (foldl_max_spec (Frame.date r0) (Frame.date <$> df)) as (H0 & Hds & Hin).
  split.
  - intros r [->|Hr]%elem_of_cons; [exact H0|].
    rewrite Forall_fmap, Forall_forall in Hds. apply (Hds r Hr).
  - apply elem_of_cons in Hin as [Hin|Hin].
    + exists r0. split; [left | symmetry; exact Hin].
    + apply list_elem_of_fmap in Hin as (r & Hr & Hin).
      exists r. split; [right; exact Hin | symmetry; exact Hr].
Qed.

Lemma max_date_None df : max_date df = None -> df = [].
Proof. unfold max_date. destruct df; [reflexivity | discriminate]. Qed.

(** C7.  The test set of the tree-ensemble trainer is exactly the rows whose
    date is less than 90 days before every date of the table, that is, the
    rows of the 90 calendar days that end with the latest date, however many
    rows that is; the training set is the rest; and every training date is
    strictly before every test date. *)
Theorem xgboost_split_by_date (df : list Frame.Row) :
  let train := (train_xgboost_split df).1 in
  let test := (train_xgboost_split df).2 in
  (forall r, r ∈ test <->
     r ∈ df /\ forall r', r' ∈ df -> (Frame.date r' - 90 < Frame.date r)%Z)
  /\ (forall r, r ∈ train <->
       r ∈ df /\ exists r', r' ∈ df /\ (Frame.date r ≤ Frame.date r' - 90)%Z)
  /\ (forall s t, s ∈ train -> t ∈ test -> (Frame.date s < Frame.date t)%Z).
Proof.
  unfold train_xgboost_split. cbv zeta.
  set (sorted := Frame.sort_values _ df).
  assert (Hsorted : forall r, r ∈ sorted <-> r ∈ df)
    by (intros r; apply FrameFacts.elem_of_sort_values).
  destruct (max_date sorted) as [latest|] eqn:Hm.
  - apply max_date_spec in Hm as (Hle & rmax & Hrmax & Hdate).
    cbn [fst snd].
    assert (Htest : forall r, r ∈ filter (fun r => latest - 90 < Frame.date r)%Z sorted <->
              r ∈ df /\ forall r', r' ∈ df -> (Frame.date r' - 90 < Frame.date r)%Z).
    { intros r. rewrite list_elem_of_filter, Hsorted. split.
      - intros [Hr Hin]. split; [exact Hin|]. intros r' Hr'.
        apply Hsorted, Hle in Hr'. lia.
      - intros [Hin Hall]. split; [|exact Hin].
        apply Hsorted, Hall in Hrmax. lia. }
    assert (Htrain : forall r, r ∈ filter (fun r => Frame.date r ≤ latest - 90)%Z sorted <->
              r ∈ df /\ exists r', r' ∈ df /\ (Frame.date r ≤ Frame.date r' - 90)%Z).
    { intros r. rewrite list_elem_of_filter, Hsorted. split.
      - intros [Hr Hin]. split; [exact Hin|]. exists rmax.
        split; [apply Hsorted, Hrmax | lia].
      - intros [Hin (r' & Hr' & Hd)]. split; [|exact Hin].
        apply Hsorted, Hle in Hr'. lia. }
    split; [exact Htest|]. split; [exact Htrain|].
    intros s t [Hs _]%list_elem_of_filter [Ht _]%list_elem_of_filter. lia.
  - apply max_date_None in Hm. cbn [fst snd].
    assert (Hdf : forall r, r ∈ df -> False).
    { intros r Hr. apply Hsorted in Hr. rewrite Hm in Hr. inversion Hr. }
    split; [|split].
    + intros r. split; [intros Hr; inversion Hr | intros [Hr _]; destruct (Hdf r Hr)].
    + intros r. split; [intros Hr; inversion Hr | intros [Hr _]; destruct (Hdf r Hr)].
    + intros s t Hs. inversion Hs.
Qed.

(** Rows on days 1, 100, 101, 150 (twice) and 190: the test set is the four
    rows of days 101..190, the training set the two rows up to day 100. *)
Example xgboost_split_example :
  train_xgboost_split
    ((fun d => Frame.mkRow d 1 7 ∅) <$> [190; 150; 1; 101; 150; 100]%Z)
  = ((fun d => Frame.mkRow d 1 7 ∅) <$> [1; 100]%Z,
     (fun d => Frame.mkRow d 1 7 ∅) <$> [101; 150; 150; 190]%Z).
Proof. vm_compute. reflexivity. Qed.

(** *** Selection *)

(** The element [m] is the first one of smallest key in [l]. *)
Definition first_min {A} (key : A -> Q) (m : A) (l : list A) : Prop :=
  exists pre post,
    l = pre ++ m :: post
    /\ Forall (fun x => key m < key x)%Q pre
    /\ Forall (fun x => key m <= key x)%Q post.

Lemma py_min_first_min {A} (key : A -> Q) pre held rest :
  first_min key held pre ->
  first_min key (py_min key held rest) (pre ++ rest).
Proof.
  revert pre held. induction rest as [|x rest IH]; intros pre held Hheld; simpl.
  - rewrite app_nil_r. exact Hheld.
  - replace (pre ++ x :: rest) with ((pre ++ [x]) ++ rest)
      by (rewrite <- app_assoc; reflexivity).
    apply IH. destruct Hheld as (l1 & l2 & -> & H1 & H2).
    destruct (decide (key x < key held)%Q) as [Hlt|Hge].
    + exists (l1 ++ held :: l2), []. split; [reflexivity|]. split; [|constructor].
      apply Forall_app. split.
      * eapply Forall_impl; [exact H1|]. simpl. intros y Hy. lra.
      * constructor; [exact Hlt|].
        eapply Forall_impl; [exact H2|]. simpl. intros y Hy. lra.
    + exists l1, (l2 ++ [x]). split; [rewrite <- app_assoc; reflexivity|].
      split; [exact H1|]. apply Forall_app. split; [exact H2|].
      constructor; [|constructor]. apply Qnot_lt_le, Hge.
Qed.

Lemma omap_id_nil {A} (l : list (option A)) :
  omap id l = [] <-> Forall (fun r => r = None) l.
Proof.
  induction l as [|[a|] l IH]; simpl.
  - split; [constructor | reflexivity].
  - split; [discriminate|]. intros Hl. inversion Hl. discriminate.
  - rewrite IH. split; [intros Hl; constructor; [reflexivity | exact Hl]|].
    intros Hl. inversion Hl. assumption.
Qed.

(** C3.  [select_best_model] raises exactly when every result is null, and
    then it raises [ValueError]; otherwise it returns a non-null candidate of
    smallest rmse, the first such in the order of the results (strictly
    smaller than every candidate before it); for candidates A with rmse 5, B
    with rmse 3 and a null, in this order, it returns B. *)
Theorem select_best_model_spec now (results : list (option TrainResult)) :
  (select_best_model now results = Raise ValueError
   <-> Forall (fun r => r = None) results)
  /\ (forall e, select_best_model now results = Raise e -> e = ValueError)
  /\ (~ Forall (fun r => r = None) results ->
      exists best comparison,
        select_best_model now results = Ok (best, comparison)
        /\ best_model comparison = name best
        /\ first_min (fun r => rmse (metrics r)) best (omap id results))
  /\ (forall A B : TrainResult,
        rmse (metrics A) = 5%Q -> rmse (metrics B) = 3%Q ->
        fst <$> select_best_model now [Some A; Some B; None] = Ok B).
Proof.
  unfold select_best_model. cbv zeta.
  destruct (omap id results) as [|first rest] eqn:Hvalid.
  - apply omap_id_nil in Hvalid.
    split; [split; [intros _; exact Hvalid | reflexivity]|].
    split; [intros e He; injection He as <-; reflexivity|].
    split; [intros Hn; destruct (Hn Hvalid)|].
    intros A B HA HB. simpl. rewrite HA, HB. reflexivity.
  - assert (Hnot : ~ Forall (fun r => r = None) results).
    { intros Hall. apply omap_id_nil in Hall. rewrite Hall in Hvalid. discriminate. }
    split; [split; [discriminate | intros Hall; destruct (Hnot Hall)]|].
    split; [discriminate|]. split.
    + intros _. eexists _, _. split; [reflexivity|]. split; [reflexivity|].
      apply (py_min_first_min _ [first] first rest).
      exists [], []. split; [reflexivity|]. split; [constructor|constructor].
    + intros A B HA HB. simpl. rewrite HA, HB. reflexivity.
Qed.

(** Two candidates of equal rmse: the first one is kept. *)
Example select_best_model_tie :
  let arima := mkTrainResult "SARIMA" (mkMetrics 3 2 10) "arima_model.pkl" [] [] in
  let xgb := mkTrainResult "XGBoost" (mkMetrics 3 1 5) "xgboost_model.pkl" [] [] in
  fst <$> select_best_model "2026-11-03T00:00:00" [Some arima; Some xgb; None]
  = Ok arima.
Proof. vm_compute. reflexivity. Qed.

(** *** The split as a partition *)

(** A table in date order is cut by a date into a prefix and a suffix. *)
Lemma filter_date_cut (t : Z) (l : list Frame.Row) :
  StronglySorted (fun a b => (Frame.date b <? Frame.date a)%Z = false) l ->
  filter (fun r => Frame.date r ≤ t)%Z l ++ filter (fun r => t < Frame.date r)%Z l = l.
Proof.
  induction 1 as [|r l Hl IH Hr]; [reflexivity|].
  rewrite !filter_cons. destruct (decide (Frame.date r ≤ t)%Z) as [Hle|Hgt].
  - rewrite decide_False by lia. simpl. f_equal. exact IH.
  - rewrite decide_True by lia.
    rewrite (FrameFacts.filter_none (fun r => Frame.date r ≤ t)%Z l).
    + simpl. f_equal. apply FrameFacts.filter_all.
      eapply Forall_impl; [exact Hr|]. simpl. intros y Hy%Z.ltb_ge. lia.
    + eapply Forall_impl; [exact Hr|]. simpl. intros y Hy%Z.ltb_ge. lia.
Qed.

(** X8.  The split of the tree-ensemble trainer cuts the date-sorted table
    in two: the training rows followed by the test rows are the sorted table,
    so no row is lost or counted twice; the test set is empty only for an
    empty table; and a table that spans fewer than 90 days leaves nothing to
    train on. *)
Theorem xgboost_split_partition (df : list Frame.Row) :
  let train := (train_xgboost_split df).1 in
  let test := (train_xgboost_split df).2 in
  train ++ test = Frame.sort_values (fun a b => Frame.date a <? Frame.date b)%Z df
  /\ train ++ test ≡ₚ df
  /\ (test = [] <-> df = [])
  /\ ((forall r r', r ∈ df -> r' ∈ df -> Frame.date r' - Frame.date r < 90)%Z ->
      train = []).
Proof.
  cbv zeta.
  assert (Hcut : (train_xgboost_split df).1 ++ (train_xgboost_split df).2
                 = Frame.sort_values (fun a b => Frame.date a <? Frame.date b)%Z df).
  { unfold train_xgboost_split. cbv zeta.
    destruct (max_date _) as [latest|] eqn:Hm; cbn [fst snd].
    - apply filter_date_cut.
      apply (FrameFacts.sort_values_sorted (fun a b => Frame.date a <? Frame.date b)%Z).
      + intros a b. rewrite Z.ltb_lt, Z.ltb_ge. lia.
      + intros a b c. rewrite !Z.ltb_ge. lia.
    - apply max_date_None in Hm. rewrite Hm. reflexivity. }
  split; [exact Hcut|]. split; [rewrite Hcut; apply FrameFacts.sort_values_perm|].
  unfold train_xgboost_split in *. cbv zeta in *.
  set (sorted := Frame.sort_values _ df) in *.
  assert (Hsorted : forall r, r ∈ sorted <-> r ∈ df)
    by (intros r; apply FrameFacts.elem_of_sort_values).
  destruct (max_date sorted) as [latest|] eqn:Hm; cbn [fst snd] in *.
  - apply max_date_spec in Hm as (Hle & rmax & Hrmax & Hdate). split.
    + split.
      * intros Htest.
        assert (Hin : rmax ∈ filter (fun r => latest - 90 < Frame.date r)%Z sorted)
          by (apply list_elem_of_filter; split; [lia | exact Hrmax]).
        rewrite Htest in Hin. inversion Hin.
      * intros ->. apply Hsorted in Hrmax. inversion Hrmax.
    + intros Hspan. apply FrameFacts.filter_none, Forall_forall.
      intros r Hr Hd. apply Hsorted in Hr, Hrmax.
      specialize (Hspan r rmax Hr Hrmax). lia.
  - apply max_date_None in Hm. split; [|reflexivity].
    split; [|reflexivity]. intros _.
    destruct df as [|r df]; [reflexivity|].
    assert (Hr : r ∈ sorted) by (apply Hsorted; left).
    rewrite Hm in Hr. inversion Hr.
Qed.

(** *** The comparison dictionary *)

Lemma lookup_foldl_models (valid : list TrainResult) (d : gmap string Metrics) n :
  foldl (fun d r => <[name r := metrics r]> d) d valid !! n
  = match last (filter (fun r => name r = n) valid) with
    | Some r => Some (metrics r)
    | None => d !! n
    end.
Proof.
  revert d. induction valid as [|r valid IH]; intros d; [reflexivity|].
  cbn [foldl]. rewrite IH, filter_cons.
  destruct (decide (name r = n)) as [Hn|Hn].
  - destruct (filter _ valid) as [|r' l].
    + simpl. rewrite Hn. apply lookup_insert_eq.
    + change (last (r :: r' :: l)) with (last (r' :: l)).
      destruct (last (r' :: l)) eqn:Hl; [reflexivity|].
      apply last_None in Hl. discriminate.
  - destruct (last (filter _ valid)); [reflexivity|].
    apply lookup_insert_ne, Hn.
Qed.

Lemma py_min_elem {A} (key : A -> Q) held rest :
  py_min key held rest ∈ held :: rest.
Proof.
  revert held. induction rest as [|x rest IH]; intros held; simpl; [left|].
  specialize (IH (if decide (key x < key held)%Q then x else held)).
  apply elem_of_cons in IH as [->|IH]; [|right; right; exact IH].
  destruct (decide _); [right; left | left].
Qed.

Lemma filter_name_unique (valid : list TrainResult) r :
  NoDup (name <$> valid) -> r ∈ valid ->
  filter (fun r' => name r' = name r) valid = [r].
Proof.
  induction valid as [|x valid IH]; intros Hnd Hr; [inversion Hr|].
  rewrite fmap_cons in Hnd. apply NoDup_cons in Hnd as [Hx Hnd].
  rewrite filter_cons. apply elem_of_cons in Hr as [->|Hr].
  - rewrite decide_True by reflexivity. f_equal.
    apply FrameFacts.filter_none, Forall_forall. intros y Hy Hname.
    apply Hx. rewrite <- Hname. apply list_elem_of_fmap. exists y. auto.
  - rewrite decide_False; [apply IH; assumption|].
    intros Hname. apply Hx. rewrite Hname. apply list_elem_of_fmap. exists r. auto.
Qed.

(** X9.  The comparison written to model_comparison.json: the winner is one
    of the results, the time stamp is the one taken, the entry under a name
    holds the metrics of the last non-null candidate of that name (a later
    candidate overwrites an earlier one), the winner's name has an entry, and
    when the names are distinct every non-null candidate is recorded with its
    own metrics. *)
Theorem comparison_records_candidates now results best cmp :
  select_best_model now results = Ok (best, cmp) ->
  Some best ∈ results
  /\ trained_at cmp = now
  /\ (forall n, models cmp !! n
                = metrics <$> last (filter (fun r => name r = n) (omap id results)))
  /\ is_Some (models cmp !! best_model cmp)
  /\ (NoDup (name <$> omap id results) ->
      forall r, Some r ∈ results -> models cmp !! name r = Some (metrics r)).
Proof.
  unfold select_best_model. cbv zeta.
  destruct (omap id results) as [|first rest] eqn:Hvalid; [discriminate|].
  intros Hsel. injection Hsel as <- <-. cbn [models best_model trained_at].
  assert (Hin : forall r, r ∈ first :: rest <-> Some r ∈ results).
  { intros r. rewrite <- Hvalid, list_elem_of_omap. split.
    - intros (o & Ho & Hr). destruct o; simplify_eq/=. exact Ho.
    - intros Hr. exists (Some r). auto. }
  assert (Hlookup : forall n,
            foldl (fun d r => <[name r := metrics r]> d) (∅ : gmap string Metrics) (first :: rest) !! n
            = metrics <$> last (filter (fun r => name r = n) (first :: rest))).
  { intros n. rewrite lookup_foldl_models.
    destruct (last _); [reflexivity | apply lookup_empty]. }
  split; [apply Hin, py_min_elem|]. split; [reflexivity|].
  split; [exact Hlookup|]. split.
  - rewrite Hlookup.
    destruct (last (filter _ (first :: rest))) eqn:Hl; [eexists; reflexivity|].
    apply last_None in Hl.
    assert (Hb : py_min (fun x => rmse (metrics x)) first rest
                 ∈ filter (fun r => name r = name (py_min (fun x => rmse (metrics x)) first rest))
                     (first :: rest))
      by (apply list_elem_of_filter; split; [reflexivity | apply py_min_elem]).
    rewrite Hl in Hb. inversion Hb.
  - intros Hnd r Hr%Hin. rewrite Hlookup, (filter_name_unique _ r Hnd Hr). reflexivity.
Qed.

(** *** Range of the metrics *)

Section MetricsRange.
Context `{Library}.
Local Open Scope Q_scope.

Lemma Qsum_nonneg xs : Forall (fun x => 0 <= x) xs -> 0 <= Qsum xs.
Proof.
  induction 1 as [|x xs Hx _ IH]; [apply Qle_refl|].
  rewrite Qsum_cons. 
  replace 0 with (0 + 0) by reflexivity. apply Qplus_le_compat; assumption.
Qed.

Lemma Qmean_nonneg xs : Forall (fun x => 0 <= x) xs -> 0 <= Qmean xs.
Proof.
  intros Hxs. unfold Qmean, Qdiv. apply Qmult_le_0_compat; [apply Qsum_nonneg, Hxs|].
  apply Qinv_le_0_compat. change 0 with (inject_Z 0). rewrite <- Zle_Qle. lia.
Qed.

Lemma Forall_Qabs_nonneg xs : Forall (fun x => 0 <= x) (Qabs <$> xs).
Proof. apply Forall_fmap, Forall_forall. intros x _. apply Qabs_nonneg. Qed.

(** X10.  [compute_metrics] raises [ValueError] exactly for vectors of
    different lengths or empty ones; otherwise, provided [np.sqrt] of a
    non-negative number is non-negative, the three metrics are non-negative,
    rmse and mae with at most four decimals and mape with at most two. *)
Theorem compute_metrics_range (y_true y_pred : list Q) :
  (forall x, 0 <= x -> 0 <= np_sqrt x) ->
  (compute_metrics y_true y_pred = Raise ValueError
   <-> length y_true <> length y_pred \/ y_true = [])
  /\ (forall m, compute_metrics y_true y_pred = Ok m ->
        (0 <= rmse m /\ is_decimal 4 (rmse m))
        /\ (0 <= mae m /\ is_decimal 4 (mae m))
        /\ (0 <= mape m /\ is_decimal 2 (mape m))).
Proof.
  intros Hsqrt. unfold compute_metrics.
  destruct (decide (length y_true = length y_pred /\ y_true <> [])) as [[Hlen Hne]|Hbad].
  - cbv zeta. split.
    + split; [discriminate|]. intros [Hl|Hl]; [destruct (Hl Hlen) | destruct (Hne Hl)].
    + intros m Hm. injection Hm as <-. cbn [rmse mae mape].
      split; [|split]; (split; [apply py_round_nonneg | apply py_round_is_decimal]).
      * apply Hsqrt, Qmean_nonneg, Forall_fmap, Forall_forall.
        intros e _. simpl. nra.
      * apply Qmean_nonneg, Forall_Qabs_nonneg.
      * destruct (decide _); [|apply Qle_refl].
        apply Qmult_le_0_compat; [|discriminate].
        apply Qmean_nonneg, Forall_Qabs_nonneg.
  - split; [|discriminate]. split; [|reflexivity]. intros _.
    destruct (decide (length y_true = length y_pred)) as [Hlen|Hlen]; [|left; exact Hlen].
    right. destruct y_true; [reflexivity|]. destruct Hbad. split; [exact Hlen | discriminate].
Qed.

End MetricsRange.

(** *** Examples *)

Lemma example_sqrt_zero (x : Q) :
  (x == 0)%Q -> (@np_sqrt example_library x == 0)%Q.
Proof.
  intros Hx. simpl. rewrite (Qfloor_comp x 0 Hx). reflexivity.
Qed.

Lemma compute_metrics_contract_witness :
  Exists (fun v => 0 < v)%Q [3; 0; 1.5]%Q
  /\ @compute_metrics example_library [3; 0; 1.5]%Q [3; 0; 1.5]%Q
     = Ok {| rmse := 0; mae := 0; mape := 0 |}.
Proof.
  assert (Hpos : Exists (fun v => 0 < v)%Q [3; 0; 1.5]%Q)
    by (constructor; reflexivity).
  split; [exact Hpos|].
  apply (proj1 (@compute_metrics_contract example_library example_sqrt_zero)).
  exact Hpos.
Defined.

(** Actual values 0, 10, 20 against predictions 5, 8, 25: the position with
    actual value 0 is left out, and the mape is the mean of 20% and 25%. *)
Example compute_metrics_mape :
  mape <$> @compute_metrics example_library [0; 10; 20]%Q [5; 8; 25]%Q
  = Ok (45 # 2)%Q.
Proof. vm_compute. reflexivity. Qed.

(** No positive actual value: the mape is 0 whatever the predictions. *)
Example compute_metrics_mape_no_positive :
  mape <$> @compute_metrics example_library [0; -1]%Q [5; 8]%Q = Ok 0%Q.
Proof. vm_compute. reflexivity. Qed.

Lemma select_best_model_spec_witness :
  let A := mkTrainResult "A" (mkMetrics 5 4 20) "a.pkl" [] [] in
  let B := mkTrainResult "B" (mkMetrics 3 2 10) "b.pkl" [] [] in
  fst <$> select_best_model "2026-11-03T00:00:00" [Some A; Some B; None] = Ok B.
Proof.
  intros A B.
  apply (proj2 (proj2 (proj2 (select_best_model_spec "2026-11-03T00:00:00" []))));
    reflexivity.
Defined.

Lemma example_sqrt_nonneg (x : Q) : (0 <= x -> 0 <= @np_sqrt example_library x)%Q.
Proof.
  intros _. simpl. change 0%Q with (inject_Z 0). rewrite <- Zle_Qle. apply Z.sqrt_nonneg.
Qed.

Lemma compute_metrics_range_witness :
  exists m, @compute_metrics example_library [0; 10; 20]%Q [5; 8; 25]%Q = Ok m
    /\ (0 <= mae m)%Q /\ is_decimal 4 (mae m).
Proof.
  eexists. split; [vm_compute; reflexivity|].
  apply (proj2 (@compute_metrics_range example_library [0; 10; 20]%Q [5; 8; 25]%Q
                  example_sqrt_nonneg)).
  vm_compute. reflexivity.
Defined.

Definition example_candidates : list (option TrainResult) :=
  [ Some (mkTrainResult "SARIMA" (mkMetrics 3 2 10) "arima_model.pkl" [] []);
    Some (mkTrainResult "XGBoost" (mkMetrics 2 1 5) "xgboost_model.pkl" [] []);
    None ].

Lemma comparison_records_candidates_witness :
  exists best cmp,
    select_best_model "2026-11-03T00:00:00" example_candidates = Ok (best, cmp)
    /\ Some best ∈ example_candidates
    /\ is_Some (models cmp !! best_model cmp).
Proof.
  eexists _, _. split; [reflexivity|].
  destruct (comparison_records_candidates "2026-11-03T00:00:00" example_candidates _ _
              eq_refl) as (Hbest & _ & _ & Hsome & _).
  split; [exact Hbest | exact Hsome].
Defined.

(** ** The trainers' data preparation *)

Import Frame FrameFacts.

(** *** The daily series of the seasonal trainer *)

Lemma sort_values_length {A} (lt : A -> A -> bool) (l : list A) :
  length (sort_values lt l) = length l.
Proof. apply Permutation_length, sort_values_perm. Qed.

Lemma median_is_Some xs : xs <> [] -> is_Some (median xs).
Proof.
  intros Hne. unfold median. cbv zeta. rewrite sort_values_length.
  set (s := sort_values _ xs).
  assert (Hlen : length s = length xs) by apply sort_values_length.
  assert (Hpos : (0 < length xs)%nat) by (destruct xs; [congruence | simpl; lia]).
  assert (Hhalf : (length xs / 2 < length xs)%nat) by (apply Nat.div_lt; lia).
  destruct (lookup_lt_is_Some_2 s (length xs / 2)) as [b Hb]; [lia|].
  destruct (Nat.even (length xs)); [|eexists; exact Hb].
  destruct (lookup_lt_is_Some_2 s (length xs / 2 - 1)) as [a Ha]; [lia|].
  rewrite Ha, Hb. simpl. eexists. reflexivity.
Qed.

Lemma sorted_head_min (s : list (Z * Q)) e :
  StronglySorted (fun e e' => e.1 < e'.1)%Z s ->
  head s = Some e -> forall e', e' ∈ s -> (e.1 ≤ e'.1)%Z.
Proof.
  intros Hs Hh e' He'. destruct Hs as [|e0 s Hs H0]; [discriminate|].
  injection Hh as ->. apply elem_of_cons in He' as [->|He']; [lia|].
  rewrite Forall_forall in H0. specialize (H0 e' He'). lia.
Qed.

Lemma sorted_last_max (s : list (Z * Q)) e :
  StronglySorted (fun e e' => e.1 < e'.1)%Z s ->
  last s = Some e -> forall e', e' ∈ s -> (e'.1 ≤ e.1)%Z.
Proof.
  induction 1 as [|e0 s Hs IH H0]; [discriminate|].
  intros Hl e' He'. destruct s as [|e1 s].
  - injection Hl as <-. apply list_elem_of_singleton in He' as ->. lia.
  - change (last (e0 :: e1 :: s)) with (last (e1 :: s)) in Hl.
    apply elem_of_cons in He' as [->|He']; [|apply IH; assumption].
    rewrite Forall_forall in H0.
    assert (He : e ∈ e1 :: s) by (apply last_Some_elem_of, Hl).
    specialize (H0 e He). lia.
Qed.

Lemma asfreq_eq fill (s : list (Z * Q)) first final :
  fst <$> head s = Some first -> fst <$> last s = Some final ->
  asfreq fill s
  = (fun d => (d, default fill ((list_to_map s : gmap Z Q) !! d)))
      <$> seqZ first (final - first + 1).
Proof.
  intros Hh Hl. unfold asfreq.
  destruct s as [|[d0 v0] s']; [discriminate|]. injection Hh as <-.
  destruct (last ((d0, v0) :: s')) as [[dl vl]|]; [|discriminate]. injection Hl as <-.
  reflexivity.
Qed.

Lemma asfreq_spec fill (s : list (Z * Q)) first final :
  NoDup s.*1 -> fst <$> head s = Some first -> fst <$> last s = Some final ->
  (asfreq fill s).*1 = seqZ first (final - first + 1)
  /\ forall d v, (d, v) ∈ asfreq fill s ->
       (first ≤ d ≤ final)%Z
       /\ if decide (d ∈ s.*1) then (d, v) ∈ s else v = fill.
Proof.
  intros Hnd Hh Hl. rewrite (asfreq_eq fill s first final Hh Hl). split.
  - rewrite <- list_fmap_compose. etrans; [|apply list_fmap_id].
    apply list_fmap_ext. intros; reflexivity.
  - intros d v (d' & Heq & Hd')%list_elem_of_fmap. injection Heq as -> ->.
    apply elem_of_seqZ in Hd'. split; [lia|].
    destruct (decide (d' ∈ s.*1)) as [Hin|Hout].
    + apply list_elem_of_fmap in Hin as ([d'' v] & Hk & Hin). simpl in Hk. subst d''.
      rewrite (proj1 (elem_of_list_to_map (M := gmap Z) s d' v Hnd) Hin). exact Hin.
    + rewrite (proj1 (not_elem_of_list_to_map (M := gmap Z) s d') Hout). reflexivity.
Qed.

Lemma daily_series_ends (df : list Row) earliest latest :
  earliest ∈ date <$> df -> latest ∈ date <$> df ->
  (forall d, d ∈ date <$> df -> earliest ≤ d ≤ latest)%Z ->
  fst <$> head (daily_series df) = Some earliest
  /\ fst <$> last (daily_series df) = Some latest.
Proof.
  intros He Hl Hall.
  destruct (daily_series_spec df) as (Hsorted & _ & Hkeys & _).
  apply Hkeys, list_elem_of_fmap in He as (e1 & He1 & Hin1).
  apply Hkeys, list_elem_of_fmap in Hl as (e2 & He2 & Hin2).
  assert (Hbounds : forall e, e ∈ daily_series df -> (earliest ≤ e.1 ≤ latest)%Z).
  { intros e Hin. apply Hall, Hkeys, list_elem_of_fmap. exists e. auto. }
  split.
  - destruct (head (daily_series df)) as [e|] eqn:Hh.
    + simpl. f_equal. pose proof (sorted_head_min _ e Hsorted Hh e1 Hin1).
      pose proof (Hbounds e (head_Some_elem_of _ _ Hh)). lia.
    + apply head_None in Hh. rewrite Hh in Hin1. inversion Hin1.
  - destruct (last (daily_series df)) as [e|] eqn:Hla.
    + simpl. f_equal. pose proof (sorted_last_max _ e Hsorted Hla e2 Hin2).
      pose proof (Hbounds e (last_Some_elem_of _ _ Hla)). lia.
    + apply last_None in Hla. rewrite Hla in Hin2. inversion Hin2.
Qed.

Lemma arima_series_dates (df : list Row) earliest latest :
  earliest ∈ date <$> df -> latest ∈ date <$> df ->
  (forall d, d ∈ date <$> df -> earliest ≤ d ≤ latest)%Z ->
  (arima_series df).*1 = seqZ earliest (latest - earliest + 1)
  /\ length (arima_series df) = Z.to_nat (latest - earliest + 1).
Proof.
  intros He Hl Hall.
  destruct (daily_series_ends df earliest latest He Hl Hall) as [Hhead Hlast].
  destruct (daily_series_spec df) as (_ & Hnd & _ & _).
  assert (Hdates : (arima_series df).*1 = seqZ earliest (latest - earliest + 1)).
  { unfold arima_series. cbv zeta.
    destruct (median_is_Some (daily_series df).*2) as [fill Hfill].
    { destruct (daily_series df); [discriminate Hhead | discriminate]. }
    rewrite Hfill. apply (asfreq_spec fill _ earliest latest Hnd Hhead Hlast). }
  split; [exact Hdates|].
  rewrite <- (length_fmap fst), Hdates. apply length_seqZ.
Qed.

(** X11.  The series the seasonal model is trained and scored on holds one
    value for every calendar day from the earliest to the latest date of the
    table: the day's total sales where the table has rows for the day, and
    the median of the daily totals where it has none. *)
Theorem arima_series_daily (df : list Row) earliest latest :
  earliest ∈ date <$> df -> latest ∈ date <$> df ->
  (forall d, d ∈ date <$> df -> earliest ≤ d ≤ latest)%Z ->
  (arima_series df).*1 = seqZ earliest (latest - earliest + 1)
  /\ forall d v, (d, v) ∈ arima_series df ->
       if decide (d ∈ date <$> df)
       then (v == Qsum (sales <$> filter (fun r => date r = d) df))%Q
       else Some v = median (daily_total df).
Proof.
  intros He Hl Hall.
  destruct (daily_series_ends df earliest latest He Hl Hall) as [Hhead Hlast].
  destruct (daily_series_spec df) as (_ & Hnd & Hkeys & Hsum).
  unfold arima_series. cbv zeta.
  change (daily_total df) with (daily_series df).*2.
  destruct (median_is_Some (daily_series df).*2) as [fill Hfill].
  { destruct (daily_series df); [discriminate Hhead | discriminate]. }
  rewrite Hfill.
  destruct (asfreq_spec fill _ earliest latest Hnd Hhead Hlast) as [Hdates Hvals].
  split; [exact Hdates|]. intros d v Hin. destruct (Hvals d v Hin) as [_ Hv].
  destruct (decide (d ∈ (daily_series df).*1)) as [Hd|Hd].
  - rewrite decide_True by (apply Hkeys, Hd). apply Hsum, Hv.
  - rewrite decide_False by (rewrite <- Hkeys; exact Hd). rewrite Hv. reflexivity.
Qed.

Lemma xgboost_test_rows (df : list Row) latest :
  latest ∈ date <$> df -> (forall d, d ∈ date <$> df -> d ≤ latest)%Z ->
  forall r, r ∈ (train_xgboost_split df).2 <-> r ∈ df /\ (latest - 90 < date r)%Z.
Proof.
  intros Hl Hall r. unfold train_xgboost_split. cbv zeta.
  set (sorted := sort_values _ df).
  assert (Hsorted : forall r, r ∈ sorted <-> r ∈ df)
    by (intros r'; apply elem_of_sort_values).
  destruct (max_date sorted) as [latest'|] eqn:Hm; cbn [snd].
  - apply max_date_spec in Hm as (Hle & rmax & Hrmax & Hdate).
    assert (latest' = latest) as ->.
    { apply list_elem_of_fmap in Hl as (rl & -> & Hrl).
      apply Hsorted, Hle in Hrl. apply Hsorted in Hrmax.
      specialize (Hall (date rmax)). rewrite <- Hdate in *.
      assert (date rmax ≤ date rl)%Z; [|lia].
      apply Hall, list_elem_of_fmap. exists rmax. auto. }
    rewrite list_elem_of_filter, Hsorted. tauto.
  - apply max_date_None in Hm.
    apply list_elem_of_fmap in Hl as (rl & _ & Hrl). apply Hsorted in Hrl.
    rewrite Hm in Hrl. inversion Hrl.
Qed.

(** X12.  The seasonal trainer holds out the end of the daily series: the
    training part followed by the test part is the series; the test part has
    90 days for a series of at least 90 days, but for a shorter series of [n]
    days it has [min n (90 - n)] days only (the negative split position
    counts from the end); and when the table spans at least 90 days, the
    test days are the 90 calendar days that end with the latest date, the
    days whose rows form the test set of the tree-ensemble trainer. *)
Theorem arima_split_window (df : list Row) :
  let series := arima_series df in
  let train := (train_arima_split df).1 in
  let test := (train_arima_split df).2 in
  train ++ test = series
  /\ length test
     = (if decide (90 ≤ length series) then 90 else length series `min` (90 - length series))%nat
  /\ forall earliest latest,
       earliest ∈ date <$> df -> latest ∈ date <$> df ->
       (forall d, d ∈ date <$> df -> earliest ≤ d ≤ latest)%Z ->
       (89 ≤ latest - earliest)%Z ->
       test.*1 = seqZ (latest - 89) 90
       /\ forall r, r ∈ (train_xgboost_split df).2 <-> r ∈ df /\ date r ∈ test.*1.
Proof.
  cbv zeta. unfold train_arima_split. cbv zeta. cbn [fst snd].
  split; [apply slice_app|]. split.
  - rewrite slice_from_length. destruct (decide (90 ≤ length (arima_series df))%nat);
      destruct (decide (_ < 0)%Z); lia.
  - intros earliest latest He Hl Hall Hspan.
    destruct (arima_series_dates df earliest latest He Hl Hall) as [Hdates Hlen].
    assert (Htest : (slice_from (Z.of_nat (length (arima_series df)) - 90) (arima_series df)).*1
                    = seqZ (latest - 89) 90).
    { unfold slice_from, py_index. rewrite decide_False by lia.
      rewrite fmap_drop, Hdates, Hlen.
      replace (latest - earliest + 1)%Z with ((latest - earliest - 89) + 90)%Z by lia.
      rewrite seqZ_app by lia.
      rewrite drop_app_length' by (rewrite length_seqZ; lia).
      f_equal. lia. }
    split; [exact Htest|]. intros r.
    rewrite Htest, (xgboost_test_rows df latest Hl), elem_of_seqZ.
    2:{ intros d Hd. apply Hall, Hd. }
    split; intros [Hr Hd]; (split; [exact Hr|]); [|lia].
    specialize (Hall (date r)). 
    assert (date r ≤ latest)%Z; [|lia].
    apply Hall, list_elem_of_fmap. exists r. auto.
Qed.

(** *** The samples of the recurrent trainer *)

Section Scaler.
Local Open Scope Q_scope.




End Scaler.


Lemma lstm_sequences_length lookback scaled :
  length (lstm_sequences lookback scaled) = (length scaled - lookback)%nat.
Proof. unfold lstm_sequences. rewrite length_imap, length_drop. reflexivity. Qed.


Section Samples.
Context `{Library}.

Lemma lstm_values_length (df : list Row) :
  length (lstm_values df) = length (daily_total df).
Proof. apply length_fmap. Qed.



End Samples.

(** *** The trainers *)

Section Trainers.
Context `{Library} `{Estimators}.

Lemma train_lstm_prepare_outcome (df : list Row) :
  match train_lstm_prepare df with
  | Ok _ => (30 < length (daily_total df))%nat
  | Raise e =>
      if decide (length (daily_total df) = 0%nat) then e = ValueError
      else e = IndexError /\ (length (daily_total df) ≤ 30)%nat
  end.
Proof.
  unfold train_lstm_prepare. cbv zeta.
  rewrite <- (lstm_values_length df).
  destruct (fit (lstm_values df)) as [scaler|e] eqn:Hfit.
  - assert (Hne : length (lstm_values df) <> 0%nat)
      by (destruct (lstm_values df); [discriminate Hfit | discriminate]).
    simpl mbind.
    pose proof (lstm_sequences_length App.lookback
                  (App.transform scaler <$> lstm_values df)) as Hlen.
    rewrite length_fmap in Hlen. unfold App.lookback in Hlen at 2.
    destruct (decide (_ = [])) as [Hnil|Hsome].
    + rewrite decide_False by exact Hne. split; [reflexivity|].
      rewrite Hnil in Hlen. simpl in Hlen. lia.
    + destruct (lstm_sequences _ _); [congruence | simpl in Hlen; lia].
  - destruct (lstm_values df); [|discriminate Hfit].
    injection Hfit as <-. reflexivity.
Qed.

Lemma train_lstm_raises (df : list Row) e :
  train_lstm_prepare df = Raise e -> train_lstm df = Raise e.
Proof. unfold train_lstm. intros ->. reflexivity. Qed.

Lemma train_lstm_Ok (df : list Row) r :
  train_lstm df = Ok r -> exists p, train_lstm_prepare df = Ok p.
Proof.
  unfold train_lstm. destruct (train_lstm_prepare df) as [p|]; [|discriminate].
  intros _. exists p. reflexivity.
Qed.

Lemma train_all_models_Ok now (df : list Row) best cmp results :
  train_all_models now df = Ok (best, cmp, results) ->
  exists xgb_result lstm_result,
    train_xgboost df = Ok xgb_result
    /\ train_lstm df = Ok lstm_result
    /\ results = [train_arima df; Some xgb_result; lstm_result]
    /\ select_best_model now results = Ok (best, cmp).
Proof.
  unfold train_all_models. cbv zeta.
  destruct (train_xgboost df) as [x|]; [|discriminate].
  destruct (train_lstm df) as [l|]; [|discriminate]. simpl mbind.
  destruct (select_best_model now _) as [[b c]|] eqn:Hsel; [|discriminate].
  intros Heq. injection Heq as <- <- <-. exists x, l. rewrite Hsel. auto.
Qed.

(** X14.  The recurrent trainer needs more than 30 days of totals, and
    says so by an exception, not by returning nothing: on an empty table it
    raises [ValueError], on a table of 1 to 30 days [IndexError], and on a
    longer one it returns (a result, or nothing when the network fails); so
    with at most 30 days [train_all_models] never returns, whatever the other
    two trainers achieve. *)
Theorem train_lstm_needs_history (df : list Row) :
  let n := length (daily_total df) in
  (n = 0%nat -> train_lstm df = Raise ValueError)
  /\ ((1 ≤ n ≤ 30)%nat -> train_lstm df = Raise IndexError)
  /\ ((30 < n)%nat -> exists r, train_lstm df = Ok r)
  /\ ((n ≤ 30)%nat -> forall now out, train_all_models now df <> Ok out).
Proof.
  cbv zeta. pose proof (train_lstm_prepare_outcome df) as Hout.
  destruct (train_lstm_prepare df) as [p|e] eqn:Hprep.
  - split; [lia|]. split; [lia|]. split; [|lia]. intros _.
    unfold train_lstm. rewrite Hprep. destruct p as [[sc tr] te]. eexists. reflexivity.
  - apply train_lstm_raises in Hprep.
    destruct (decide (length (daily_total df) = 0%nat)) as [Hz|Hnz].
    + subst e. split; [intros _; exact Hprep|]. split; [lia|]. split; [lia|].
      intros _ now [[best cmp] results] Hall.
      apply train_all_models_Ok in Hall as (x & l & _ & Hl & _). congruence.
    + destruct Hout as [-> Hle]. split; [lia|]. split; [intros _; exact Hprep|].
      split; [lia|].
      intros _ now [[best cmp] results] Hall.
      apply train_all_models_Ok in Hall as (x & l & _ & Hl & _). congruence.
Qed.

Lemma compute_metrics_Ok y_true y_pred m :
  compute_metrics y_true y_pred = Ok m ->
  length y_true = length y_pred /\ y_true <> [].
Proof. unfold compute_metrics. destruct (decide _); [auto | discriminate]. Qed.

(** What a trainer that returns a result reports. *)
Definition reported (label : string) (r : TrainResult) : Prop :=
  name r = label
  /\ Forall (fun p => 0 <= p)%Q (forecast_test r)
  /\ length (forecast_test r) = length (actual_test r)
  /\ actual_test r <> [].

Lemma Forall_py_max0 (l : list Q) : Forall (fun p => 0 <= p)%Q (py_max0 <$> l).
Proof. apply Forall_fmap, Forall_forall. intros x _. apply py_max0_nonneg. Qed.

Lemma train_arima_reported (df : list Row) r :
  train_arima df = Some r -> reported "SARIMA" r.
Proof.
  unfold train_arima. destruct (train_arima_split df) as [train test].
  destruct (sarimax _ _) as [forecast|]; [|discriminate]. simpl mbind.
  destruct (compute_metrics _ _) as [m|] eqn:Hm; [|discriminate].
  apply compute_metrics_Ok in Hm as [Hlen Hne].
  intros Heq. injection Heq as <-. unfold reported. simpl.
  split; [reflexivity|]. split; [apply Forall_py_max0|]. auto.
Qed.

Lemma train_xgboost_reported (df : list Row) r :
  train_xgboost df = Ok r -> reported "XGBoost" r.
Proof.
  unfold train_xgboost. destruct (train_xgboost_split df) as [train test].
  destruct (xgb _ _) as [y_pred|]; [|discriminate]. simpl mbind.
  destruct (compute_metrics _ _) as [m|] eqn:Hm; [|discriminate].
  apply compute_metrics_Ok in Hm as [Hlen Hne].
  intros Heq. injection Heq as <-. unfold reported. simpl.
  split; [reflexivity|]. split; [apply Forall_py_max0|]. auto.
Qed.

Lemma train_lstm_reported (df : list Row) r :
  train_lstm df = Ok (Some r) -> reported "LSTM" r.
Proof.
  unfold train_lstm. destruct (train_lstm_prepare df) as [[[scaler train] test]|];
    [|discriminate]. simpl mbind.
  destruct (keras _ _) as [y_pred|]; [|discriminate]. simpl mbind.
  destruct (compute_metrics _ _) as [m|] eqn:Hm; [|discriminate].
  apply compute_metrics_Ok in Hm as [Hlen Hne].
  intros Heq. injection Heq as <-. unfold reported. simpl.
  split; [reflexivity|]. split; [|auto].
  apply Forall_fmap, Forall_forall. intros x _. apply py_max0_nonneg.
Qed.

Lemma py_min_spec {A} (key : A -> Q) first rest :
  first_min key (py_min key first rest) (first :: rest).
Proof.
  apply (py_min_first_min key [first] first rest).
  exists [], []. split; [reflexivity|]. split; constructor.
Qed.

Lemma first_min_le {A} (key : A -> Q) m l :
  first_min key m l -> m ∈ l /\ forall x, x ∈ l -> (key m <= key x)%Q.
Proof.
  intros (pre & post & -> & Hpre & Hpost).
  split; [apply elem_of_app; right; left|].
  intros x [Hx|[->|Hx]%elem_of_cons]%elem_of_app.
  - rewrite Forall_forall in Hpre. apply Qlt_le_weak, Hpre, Hx.
  - apply Qle_refl.
  - rewrite Forall_forall in Hpost. apply Hpost, Hx.
Qed.

(** X15.  When [train_all_models] returns, its results are those of the
    three trainers in the order SARIMA, XGBoost, LSTM, and the XGBoost result
    is never missing; the best model is one of them, has the smallest rmse
    of those that trained, and is the one named in the comparison; every
    model that trained is recorded in the comparison under its own name with
    its own metrics; and each comes with as many non-negative test forecasts
    as it has actual test values, at least one. *)
Theorem train_all_models_outcome now (df : list Row) best cmp results :
  train_all_models now df = Ok (best, cmp, results) ->
  (exists xgb_result lstm_result,
     results = [train_arima df; Some xgb_result; lstm_result]
     /\ train_xgboost df = Ok xgb_result
     /\ train_lstm df = Ok lstm_result)
  /\ Some best ∈ results
  /\ best_model cmp = name best
  /\ is_Some (models cmp !! "XGBoost")
  /\ forall r, Some r ∈ results ->
       (rmse (metrics best) <= rmse (metrics r))%Q
       /\ models cmp !! name r = Some (metrics r)
       /\ name r ∈ ["SARIMA"; "XGBoost"; "LSTM"]
       /\ Forall (fun p => 0 <= p)%Q (forecast_test r)
       /\ length (forecast_test r) = length (actual_test r)
       /\ actual_test r <> [].
Proof.
  intros Hall. apply train_all_models_Ok in Hall as (x & l & Hx & Hl & -> & Hsel).
  split; [exists x, l; auto|].
  assert (Hrep : forall r, Some r ∈ [train_arima df; Some x; l] ->
            (name r = "SARIMA" /\ train_arima df = Some r
             \/ name r = "XGBoost" /\ r = x
             \/ name r = "LSTM" /\ l = Some r)
            /\ Forall (fun p => 0 <= p)%Q (forecast_test r)
            /\ length (forecast_test r) = length (actual_test r)
            /\ actual_test r <> []).
  { intros r Hr. rewrite !elem_of_cons in Hr.
    destruct Hr as [Hr|[Hr|[Hr|Hr]]]; [| | |inversion Hr].
    - symmetry in Hr. destruct (train_arima_reported df r Hr) as (? & ? & ? & ?). auto 10.
    - injection Hr as ->. destruct (train_xgboost_reported df x Hx) as (? & ? & ? & ?).
      auto 10.
    - subst l. destruct (train_lstm_reported df r Hl) as (? & ? & ? & ?). auto 10. }
  assert (Hnd : NoDup (name <$> omap id [train_arima df; Some x; l])).
  { assert (Hnames : forall r, Some r ∈ [train_arima df; Some x; l] ->
              name r = "SARIMA" /\ train_arima df = Some r
              \/ name r = "XGBoost" /\ r = x \/ name r = "LSTM" /\ l = Some r)
      by (intros r Hr; apply Hrep, Hr).
    destruct (train_xgboost_reported df x Hx) as (Hnx & _).
    destruct (train_arima df) as [a|] eqn:Ha; destruct l as [lr|]; simpl;
      try (destruct (train_arima_reported df a Ha) as (Hna & _); rewrite Hna);
      try (destruct (train_lstm_reported df lr Hl) as (Hnl & _); rewrite Hnl);
      rewrite Hnx; apply (bool_decide_unpack _); vm_compute; exact I. }
  revert Hsel. unfold select_best_model. cbv zeta.
  destruct (omap id [train_arima df; Some x; l]) as [|first rest] eqn:Hvalid;
    [discriminate|].
  intros Hsel. injection Hsel as <- <-. cbn [models best_model].
  assert (Hin : forall r, r ∈ first :: rest <-> Some r ∈ [train_arima df; Some x; l]).
  { intros r. rewrite <- Hvalid, list_elem_of_omap. split.
    - intros (o & Ho & Hr). destruct o; simplify_eq/=. exact Ho.
    - intros Hr. exists (Some r). auto. }
  assert (Hlookup : forall r, r ∈ first :: rest ->
            foldl (fun d r => <[name r := metrics r]> d) (∅ : gmap string Metrics)
                  (first :: rest) !! name r = Some (metrics r)).
  { intros r Hr. rewrite lookup_foldl_models, (filter_name_unique _ r Hnd Hr).
    reflexivity. }
  destruct (first_min_le _ _ _ (py_min_spec (fun r => rmse (metrics r)) first rest))
    as [Hbest Hmin].
  split; [apply Hin, Hbest|]. split; [reflexivity|].
  split.
  { destruct (train_xgboost_reported df x Hx) as (Hnx & _). rewrite <- Hnx.
    rewrite Hlookup; [eexists; reflexivity|]. apply Hin. right; left. }
  intros r Hr. destruct (Hrep r Hr) as (Hname & Hnn & Hlen & Hne).
  split; [apply Hmin, Hin, Hr|]. split; [apply Hlookup, Hin, Hr|].
  split; [|auto].
  destruct Hname as [[-> _]|[[-> _]|[-> _]]]; [left | right; left | right; right; left].
Qed.

End Trainers.

(** *** Examples of training *)

(** A table with rows on days 1 and 3 only, two of them on day 3. *)
Definition example_gap : list Row :=
  [mkRow 3 1 4 ∅; mkRow 1 1 10 ∅; mkRow 3 2 2 ∅].

Example arima_series_gap :
  (fun e => (e.1, Qred e.2)) <$> arima_series example_gap
  = [(1%Z, 10%Q); (2%Z, 8%Q); (3%Z, 6%Q)].
Proof. vm_compute. reflexivity. Qed.

(** One row a day for [n] days, selling 5 on even days and 7 on odd ones. *)
Definition example_days (n : Z) : list Row :=
  (fun d => mkRow d 1 (if Z.even d then 5 else 7) ∅) <$> seqZ 1 n.

Lemma example_days_dates n d : d ∈ date <$> example_days n <-> (1 ≤ d < 1 + n)%Z.
Proof.
  unfold example_days. rewrite <- list_fmap_compose, <- elem_of_seqZ.
  replace (date ∘ _ <$> seqZ 1 n) with (seqZ 1 n); [reflexivity|].
  symmetry. etrans; [|apply list_fmap_id]. apply list_fmap_ext. reflexivity.
Qed.

(** Estimators that answer with the values they are asked to predict. *)
Definition example_estimators : Estimators :=
  {| sarimax := fun train steps => Ok (replicate steps 6%Q);
     xgb := fun train test => Ok (sales <$> test);
     keras := fun train test => Ok (test.*2) |}.

Lemma arima_series_daily_witness :
  (arima_series example_gap).*1 = seqZ 1 (3 - 1 + 1).
Proof.
  apply (arima_series_daily example_gap 1 3).
  - right; left.
  - left.
  - apply Forall_forall. repeat constructor; simpl; lia.
Defined.

Lemma arima_split_window_witness :
  ((train_arima_split (example_days 100)).2).*1 = seqZ (100 - 89) 90.
Proof.
  apply (proj2 (proj2 (arima_split_window (example_days 100))) 1%Z 100%Z).
  - apply example_days_dates. lia.
  - apply example_days_dates. lia.
  - intros d Hd%example_days_dates. lia.
  - lia.
Defined.


Lemma train_lstm_needs_history_witness :
  (1 ≤ length (daily_total example_gap) ≤ 30)%nat
  /\ @train_lstm example_library example_estimators example_gap = Raise IndexError.
Proof.
  assert (Hn : (1 ≤ length (daily_total example_gap) ≤ 30)%nat) by (vm_compute; lia).
  split; [exact Hn|].
  apply (proj1 (proj2 (@train_lstm_needs_history example_library example_estimators
                         example_gap)) Hn).
Defined.

Lemma train_all_models_outcome_witness :
  exists best cmp results,
    @train_all_models example_library example_estimators "2026-11-03T00:00:00"
      (example_days 32) = Ok (best, cmp, results)
    /\ Some best ∈ results
    /\ best_model cmp = name best.
Proof.
  assert (Hp : exists out,
            @train_all_models example_library example_estimators "2026-11-03T00:00:00"
              (example_days 32) = Ok out)
    by (eexists; vm_compute; reflexivity).
  destruct Hp as [[[best cmp] results] Hp]. exists best, cmp, results.
  split; [exact Hp|].
  destruct (@train_all_models_outcome example_library example_estimators _ _ _ _ _ Hp)
    as (_ & Hbest & Hname & _).
  split; [exact Hbest | exact Hname].
Defined.

End ModelsFacts.

(** ** Feature engineering *)

Module DataPipelineFacts.
Import Num Frame FrameFacts DataPipeline.

(** *** Selecting the rows of one item commutes with every stage *)

Lemma filter_item_bind (g : Row -> list Row) (i : Z) (l : list Row) :
  (forall r r', r' ∈ g r -> item r' = item r) ->
  filter (fun r => item r = i) (l ≫= g) = filter (fun r => item r = i) l ≫= g.
Proof.
  intros Hg. induction l as [|r l IH]; [reflexivity|].
  rewrite bind_cons, filter_app, IH, filter_cons.
  destruct (decide (item r = i)) as [Hi|Hi].
  - rewrite bind_cons. f_equal. apply filter_all, Forall_forall.
    intros r' Hr'. rewrite (Hg r r' Hr'). exact Hi.
  - rewrite filter_none; [reflexivity|]. apply Forall_forall.
    intros r' Hr'. rewrite (Hg r r' Hr'). exact Hi.
Qed.

Lemma compare_date_item_eq a b : compare_date_item a b = Eq -> a = b.
Proof.
  destruct a as [d i], b as [d' i']. unfold compare_date_item. simpl.
  destruct (Z.compare_spec d d'); try discriminate.
  intros ->%Z.compare_eq. subst. reflexivity.
Qed.

Lemma compare_date_item_gt a b : compare_date_item a b = Gt -> compare_date_item b a = Lt.
Proof.
  destruct a as [d i], b as [d' i']. unfold compare_date_item. simpl.
  destruct (Z.compare_spec d d'), (Z.compare_spec d' d); try lia; try discriminate;
    try reflexivity.
  intros Hc. apply Z.compare_gt_iff in Hc. apply Z.compare_lt_iff. exact Hc.
Qed.

Lemma compare_date_item_lt_trans a b c :
  compare_date_item a b = Lt -> compare_date_item b c = Lt -> compare_date_item a c = Lt.
Proof.
  destruct a as [d1 i1], b as [d2 i2], c as [d3 i3]. unfold compare_date_item. simpl.
  destruct (Z.compare_spec d1 d2), (Z.compare_spec d2 d3), (Z.compare_spec d1 d3);
    try lia; try discriminate; try reflexivity.
  rewrite !Z.compare_lt_iff. lia.
Qed.

Lemma lt_item_date_asym a b : lt_item_date a b = true -> lt_item_date b a = false.
Proof.
  unfold lt_item_date. rewrite bool_decide_eq_true, bool_decide_eq_false. lia.
Qed.

Lemma lt_item_date_ge_trans a b c :
  lt_item_date b a = false -> lt_item_date c b = false -> lt_item_date c a = false.
Proof. unfold lt_item_date. rewrite !bool_decide_eq_false. lia. Qed.

Lemma item_set_col c v r : item (set_col c v r) = item r.
Proof. reflexivity. Qed.

Lemma merge_weather_item weather_df r r' :
  r' ∈ match filter (fun w => weather_date w = date r) weather_df with
       | [] => [with_weather None r]
       | ws => (fun w => with_weather (Some w) r) <$> ws
       end ->
  item r' = item r /\ date r' = date r /\ sales r' = sales r.
Proof.
  destruct (filter _ weather_df) as [|w ws].
  - intros ->%list_elem_of_singleton. repeat split.
  - intros (w' & -> & _)%list_elem_of_fmap. repeat split.
Qed.

(** The column added by [add_group_column], row by row. *)
Definition group_cell (c : string) (f : list Q -> list Cell) (df : list Row)
    (p : nat) (r : Row) : Row :=
  set_col c (default NaN (f (group_values (item r) df) !! group_rank (item r) p df)) r.

Lemma zip_with_imap {A B C} (h : A -> B -> C) (g : nat -> A -> B) (l : list A) :
  zip_with h l (imap g l) = imap (fun p x => h x (g p x)) l.
Proof.
  revert g. induction l as [|x l IH]; intros g; simpl; [reflexivity|].
  f_equal. apply IH.
Qed.

Lemma add_group_column_imap c f df :
  add_group_column c f df = imap (group_cell c f df) df.
Proof.
  unfold add_group_column, assign, groupby_item_transform.
  apply zip_with_imap.
Qed.

Lemma filter_idemp {A} (P : A -> Prop) `{!forall x, Decision (P x)} (l : list A) :
  filter P (filter P l) = filter P l.
Proof. apply filter_all, Forall_forall. intros x [Hx _]%list_elem_of_filter. exact Hx. Qed.

Lemma filter_group_cells c f i (df pre rest : list Row) :
  df = pre ++ rest ->
  filter (fun r => item r = i)
         (imap (fun p => group_cell c f df (length pre + p)) rest)
  = imap (fun p => group_cell c f (filter (fun r => item r = i) df)
                     (length (filter (fun r => item r = i) pre) + p))
         (filter (fun r => item r = i) rest).
Proof.
  revert pre. induction rest as [|r rest IH]; intros pre Hdf; [reflexivity|].
  assert (Htail : filter (fun r => item r = i)
                    (imap ((fun p => group_cell c f df (length pre + p)) ∘ S) rest)
                  = imap (fun p => group_cell c f (filter (fun r => item r = i) df)
                            (length (filter (fun r => item r = i) (pre ++ [r])) + p))
                         (filter (fun r => item r = i) rest)).
  { rewrite <- (IH (pre ++ [r])) by (rewrite <- app_assoc; exact Hdf).
    f_equal. apply imap_ext. intros p r' _. simpl.
    rewrite length_app. simpl. f_equal. lia. }
  rewrite imap_cons, !filter_cons. cbn [group_cell item set_col].
  rewrite filter_app, filter_cons, filter_nil in Htail.
  destruct (decide (item r = i)) as [Hi|Hi].
  - rewrite imap_cons. f_equal.
    + unfold group_cell, group_values, group_rank. rewrite Hi, !Nat.add_0_r.
      rewrite filter_idemp. do 4 f_equal.
      rewrite Hdf, take_app_length, filter_app, take_app_length.
      rewrite filter_idemp. reflexivity.
    + rewrite Htail. apply imap_ext. intros p r' _. simpl.
      rewrite length_app. simpl. f_equal. lia.
  - rewrite Htail, app_nil_r. reflexivity.
Qed.

Lemma filter_add_group_column c f i df :
  filter (fun r => item r = i) (add_group_column c f df)
  = add_group_column c f (filter (fun r => item r = i) df).
Proof.
  rewrite !add_group_column_imap.
  apply (filter_group_cells c f i df [] df). reflexivity.
Qed.

Lemma filter_foldl_commute {X} (step : list Row -> X -> list Row) i (l : list X) df :
  (forall df x, filter (fun r => item r = i) (step df x)
                = step (filter (fun r => item r = i) df) x) ->
  filter (fun r => item r = i) (foldl step df l)
  = foldl step (filter (fun r => item r = i) df) l.
Proof.
  intros Hstep. revert df. induction l as [|x l IH]; intros df; simpl; [reflexivity|].
  rewrite IH, Hstep. reflexivity.
Qed.

(** *** Indicator columns and undefined values *)

(** The indicator columns are the only ones whose name starts with the
    letter c. *)
Definition starts_with_c (k : string) : bool :=
  match k with
  | String a _ => String.eqb (String a "") "c"
  | EmptyString => false
  end.

(** No undefined value sits under a name that an indicator column will
    take. *)
Definition indicators_defined (r : Row) : Prop :=
  forall k, starts_with_c k = true -> cols r !! k <> Some NaN.

Lemma indicators_defined_set_col n v r :
  starts_with_c n = false ->
  indicators_defined r -> indicators_defined (set_col n v r).
Proof.
  intros Hn Hr k Hk. simpl. rewrite lookup_insert_ne; [apply Hr, Hk|].
  intros ->. rewrite Hk in Hn. discriminate.
Qed.

Lemma indicators_defined_foldl {X} (f : X -> string * Cell) (l : list X) r :
  Forall (fun x => starts_with_c (f x).1 = false) l ->
  indicators_defined r ->
  indicators_defined (foldl (fun r x => set_col (f x).1 (f x).2 r) r l).
Proof.
  intros Hl. revert r. induction Hl as [|x l Hx _ IH]; intros r Hr; simpl;
    [exact Hr|]. apply IH, indicators_defined_set_col; assumption.
Qed.

Lemma indicators_defined_group_column c f df :
  starts_with_c c = false ->
  Forall indicators_defined df -> Forall indicators_defined (add_group_column c f df).
Proof.
  intros Hc Hdf. unfold add_group_column, assign.
  apply Forall_zip_with_fst with (P := indicators_defined); [exact Hdf|].
  apply Forall_forall. intros v _ r Hr.
  apply indicators_defined_set_col; assumption.
Qed.

Lemma keys_foldl_set_col {X} (f : X -> string * Cell) (l : list X) r :
  date (foldl (fun r x => set_col (f x).1 (f x).2 r) r l) = date r
  /\ item (foldl (fun r x => set_col (f x).1 (f x).2 r) r l) = item r
  /\ sales (foldl (fun r x => set_col (f x).1 (f x).2 r) r l) = sales r.
Proof.
  revert r. induction l as [|x l IH]; intros r; simpl; [repeat split|].
  destruct (IH (set_col (f x).1 (f x).2 r)) as (-> & -> & ->). repeat split.
Qed.

Lemma cols_foldl_set_col {X} (f : X -> string * Cell) (l : list X) r k :
  Forall (fun x => (f x).1 <> k) l ->
  cols (foldl (fun r x => set_col (f x).1 (f x).2 r) r l) !! k = cols r !! k.
Proof.
  intros Hl. revert r. induction Hl as [|x l Hx _ IH]; intros r; simpl; [reflexivity|].
  rewrite IH. simpl. apply lookup_insert_ne, Hx.
Qed.

Lemma cols_add_dummies present r k :
  starts_with_c k = false -> cols (add_dummies present r) !! k = cols r !! k.
Proof.
  intros Hk.
  apply (cols_foldl_set_col (fun c => ("cat_" +:+ c, flag (has_category c r)))).
  apply Forall_forall. intros c _ <-. discriminate.
Qed.

Lemma keys_add_dummies present r :
  date (add_dummies present r) = date r
  /\ item (add_dummies present r) = item r
  /\ sales (add_dummies present r) = sales r.
Proof.
  apply (keys_foldl_set_col (fun c => ("cat_" +:+ c, flag (has_category c r)))).
Qed.

Lemma map_Forall_insert_defined (m : gmap string Cell) k q :
  m !! k <> Some NaN ->
  map_Forall (fun _ v => is_nan v = false) (<[k := Num q]> m)
  <-> map_Forall (fun _ v => is_nan v = false) m.
Proof.
  intros Hk. split.
  - intros Hm j v Hj. destruct (decide (j = k)) as [->|Hne].
    + destruct v; [destruct (Hk Hj) | reflexivity | reflexivity].
    + apply (Hm j). rewrite lookup_insert_ne by congruence. exact Hj.
  - intros Hm. apply map_Forall_insert_2; [reflexivity | exact Hm].
Qed.

Lemma dropna_foldl_flags {X} (n : X -> string) (b : X -> bool) (l : list X) r :
  indicators_defined r ->
  Forall (fun x => starts_with_c (n x) = true) l ->
  map_Forall (fun _ v => is_nan v = false)
             (cols (foldl (fun r x => set_col (n x) (flag (b x)) r) r l))
  <-> map_Forall (fun _ v => is_nan v = false) (cols r).
Proof.
  intros Hr Hl. revert r Hr. induction Hl as [|x l Hx _ IH]; intros r Hr; simpl;
    [reflexivity|].
  rewrite IH.
  - unfold flag. simpl. apply map_Forall_insert_defined, Hr, Hx.
  - intros k Hk. simpl. unfold flag.
    destruct (decide (k = n x)) as [->|Hne].
    + rewrite lookup_insert_eq. discriminate.
    + rewrite lookup_insert_ne by congruence. apply Hr, Hk.
Qed.

Lemma dropna_add_dummies present r :
  indicators_defined r ->
  map_Forall (fun _ v => is_nan v = false) (cols (add_dummies present r))
  <-> map_Forall (fun _ v => is_nan v = false) (cols r).
Proof.
  intros Hr.
  apply (dropna_foldl_flags (fun c => "cat_" +:+ c) (fun c => has_category c r));
    [exact Hr|].
  apply Forall_forall. intros c _. reflexivity.
Qed.

Lemma lookup_foldl_insert {V} (f : Z -> V) (l : list Z) (d : gmap Z V) k :
  foldl (fun d i => <[i := f i]> d) d l !! k
  = if decide (k ∈ l) then Some (f k) else d !! k.
Proof.
  revert d. induction l as [|i l IH]; intros d; cbn [foldl].
  - case_decide as Hk; [inversion Hk | reflexivity].
  - rewrite IH. case_decide as Hl; case_decide as Hil; try reflexivity.
    + destruct Hil. right. exact Hl.
    + apply elem_of_cons in Hil as [->|Hil]; [apply lookup_insert_eq | contradiction].
    + apply lookup_insert_ne. intros ->. apply Hil. left.
Qed.

(** The dictionary is defined on the items 1 to 50 and nowhere else. *)
Lemma item_categories_None i :
  item_categories !! i = None <-> ~ (1 ≤ i ≤ 50)%Z.
Proof.
  unfold item_categories. rewrite lookup_foldl_insert.
  case_decide as Hi; rewrite elem_of_seqZ in Hi.
  - split; [discriminate | lia].
  - rewrite lookup_empty. split; [lia | reflexivity].
Qed.

Section Properties.
Context `{Library}.

Lemma item_temporal r : item (temporal r) = item r.
Proof.
  unfold temporal.
  apply (keys_foldl_set_col (fun kv : string * Q => (kv.1, Num kv.2))).
Qed.

Lemma filter_aggregate_sales i df :
  filter (fun r => item r = i) (aggregate_sales df)
  = aggregate_sales (filter (fun s => raw_item s = i) df).
Proof.
  unfold aggregate_sales.
  rewrite (filter_fmap_comm _ _ (fun kv : Z * Z * Q => kv.1.2 = i)) by reflexivity.
  pose proof (filter_groupby_sum compare_date_item (fun k => k.2 = i)
                compare_date_item_eq compare_date_item_gt compare_date_item_lt_trans)
    as Hgroup.
  cbn beta in Hgroup. rewrite Hgroup.
  do 2 f_equal. apply filter_fmap_comm. reflexivity.
Qed.

(** Lines 231-265, up to the sort by item and date. *)
Definition prepared (df : list RawSale) (weather_df : list Weather)
    (cal : CalendarSets) : list Row :=
  sort_values lt_item_date
    (calendar_flags cal <$> (weather_flags <$>
       merge_weather weather_df (temporal <$> aggregate_sales df))).

Lemma filter_prepared i df weather_df cal :
  filter (fun r => item r = i) (prepared df weather_df cal)
  = prepared (filter (fun s => raw_item s = i) df) weather_df cal.
Proof.
  unfold prepared.
  rewrite (filter_sort_values lt_item_date _ lt_item_date_asym lt_item_date_ge_trans).
  rewrite (filter_fmap_comm (calendar_flags cal) _ (fun r => item r = i)) by reflexivity.
  rewrite (filter_fmap_comm weather_flags _ (fun r => item r = i)) by reflexivity.
  unfold merge_weather. rewrite filter_item_bind
    by (intros r r' Hr'; apply (merge_weather_item weather_df r r' Hr')).
  rewrite (filter_fmap_comm temporal _ (fun r => item r = i))
    by (intros r; rewrite item_temporal; reflexivity).
  rewrite filter_aggregate_sales. reflexivity.
Qed.

Lemma filter_sales_features i daily :
  filter (fun r => item r = i) (sales_features daily)
  = sales_features (filter (fun r => item r = i) daily).
Proof.
  unfold sales_features. cbv zeta.
  rewrite filter_add_group_column. f_equal.
  rewrite filter_foldl_commute
    by (intros df x; rewrite !filter_add_group_column; reflexivity).
  f_equal. apply filter_foldl_commute.
  intros df x. apply filter_add_group_column.
Qed.

(** **** The final table *)

Ltac set_cols_defined :=
  repeat (apply indicators_defined_set_col; [reflexivity|]).

Lemma prepared_indicators df weather_df cal :
  Forall indicators_defined (prepared df weather_df cal).
Proof.
  apply Forall_forall. intros r Hr. unfold prepared in Hr.
  apply elem_of_sort_values in Hr.
  apply list_elem_of_fmap in Hr as (r1 & -> & Hr).
  apply list_elem_of_fmap in Hr as (r2 & -> & Hr).
  unfold merge_weather in Hr. apply list_elem_of_bind in Hr as (r3 & Hr & Hr3).
  apply list_elem_of_fmap in Hr3 as (r4 & -> & Hr4).
  unfold aggregate_sales in Hr4. apply list_elem_of_fmap in Hr4 as (kv & -> & _).
  assert (H3 : indicators_defined (temporal (mkRow kv.1.1 kv.1.2 kv.2 ∅))).
  { unfold temporal.
    apply (indicators_defined_foldl (fun kv : string * Q => (kv.1, Num kv.2))).
    - unfold Calendar.date_fields. repeat constructor.
    - intros k _. simpl. rewrite lookup_empty. discriminate. }
  generalize dependent (temporal (mkRow kv.1.1 kv.1.2 kv.2 ∅)). intros r3 Hr H3.
  unfold calendar_flags, weather_flags. set_cols_defined.
  destruct (filter _ weather_df) as [|w ws].
  - apply list_elem_of_singleton in Hr as ->. unfold with_weather. set_cols_defined.
    exact H3.
  - apply list_elem_of_fmap in Hr as (w' & -> & _). unfold with_weather.
    set_cols_defined. exact H3.
Qed.

Lemma indicators_defined_foldl_columns {X} (step : list Row -> X -> list Row)
    (l : list X) df :
  (forall df x, Forall indicators_defined df -> Forall indicators_defined (step df x)) ->
  Forall indicators_defined df -> Forall indicators_defined (foldl step df l).
Proof.
  intros Hstep. revert df. induction l as [|x l IH]; intros df Hdf; simpl; auto.
Qed.

Lemma sales_features_indicators daily :
  Forall indicators_defined daily -> Forall indicators_defined (sales_features daily).
Proof.
  intros Hd. unfold sales_features. cbv zeta.
  apply indicators_defined_group_column; [reflexivity|].
  apply indicators_defined_foldl_columns.
  { intros df w Hdf. do 2 (apply indicators_defined_group_column; [reflexivity|]).
    exact Hdf. }
  apply indicators_defined_foldl_columns; [|exact Hd].
  intros df lag Hdf. apply indicators_defined_group_column; [reflexivity | exact Hdf].
Qed.

(** The table before the indicator columns are added and the undefined rows
    dropped (lines 231-293). *)
Definition categorized (df : list RawSale) (weather_df : list Weather)
    (cal : CalendarSets) : list Row :=
  categorize <$> sales_features (prepared df weather_df cal).

Lemma engineer_features_eq df weather_df cal :
  engineer_features df weather_df cal
  = dropna (add_dummies (present_categories (categorized df weather_df cal))
              <$> categorized df weather_df cal).
Proof. reflexivity. Qed.

Lemma categorized_indicators df weather_df cal :
  Forall indicators_defined (categorized df weather_df cal).
Proof.
  unfold categorized. apply Forall_fmap.
  eapply Forall_impl; [apply sales_features_indicators, prepared_indicators|].
  intros r Hr. unfold categorize.
  apply indicators_defined_set_col; [reflexivity | exact Hr].
Qed.

Lemma filter_categorized i df weather_df cal :
  filter (fun r => item r = i) (categorized df weather_df cal)
  = categorized (filter (fun s => raw_item s = i) df) weather_df cal.
Proof.
  unfold categorized.
  rewrite (filter_fmap_comm categorize _ (fun r => item r = i)) by reflexivity.
  rewrite filter_sales_features, filter_prepared. reflexivity.
Qed.

(** The names of the lag, rolling and expanding columns, and what a row
    holds under them. *)
Definition sales_feature_cols : list string :=
  (lag_col <$> [1; 7; 14; 28]%nat)
  ++ ([7; 14; 30]%nat ≫= fun w => [rolling_mean_col w; rolling_std_col w])
  ++ ["sales_expanding_mean"].

Definition sales_feature_values (r : Row) : Z * Q * list (option Cell) :=
  (date r, sales r, (fun c => cols r !! c) <$> sales_feature_cols).

Lemma sales_feature_values_add_dummies present r :
  sales_feature_values (add_dummies present r) = sales_feature_values r.
Proof.
  unfold sales_feature_values.
  destruct (keys_add_dummies present r) as (-> & _ & ->). f_equal.
  apply list_fmap_ext. intros _ c Hc%list_elem_of_lookup_2.
  apply cols_add_dummies.
  assert (Hall : Forall (fun c => starts_with_c c = false) sales_feature_cols)
    by (vm_compute; repeat constructor).
  rewrite Forall_forall in Hall. apply Hall, Hc.
Qed.

Lemma filter_comm {A} (P R : A -> Prop) `{!forall x, Decision (P x)}
    `{!forall x, Decision (R x)} (l : list A) :
  filter P (filter R l) = filter R (filter P l).
Proof.
  rewrite !list_filter_filter. apply list_filter_iff. intros x. tauto.
Qed.

(** The rows of item [i] in the training table, read at the sales feature
    columns, are those of the table built from the records of item [i]
    alone. *)
Lemma item_rows_local i df weather_df cal :
  sales_feature_values
    <$> filter (fun r => item r = i) (engineer_features df weather_df cal)
  = sales_feature_values
    <$> dropna (categorized (filter (fun s => raw_item s = i) df) weather_df cal).
Proof.
  rewrite engineer_features_eq.
  set (present := present_categories _).
  unfold dropna at 1. rewrite filter_comm.
  rewrite (filter_fmap_comm (add_dummies present) _ (fun r => item r = i))
    by (intros r; destruct (keys_add_dummies present r) as (_ & -> & _); reflexivity).
  rewrite filter_categorized.
  set (mine := categorized _ weather_df cal).
  assert (Hdrop : filter (fun r => map_Forall (fun _ v => is_nan v = false) (cols r))
                    (add_dummies present <$> mine)
                  = add_dummies present <$> dropna mine).
  { pose proof (categorized_indicators (filter (fun s => raw_item s = i) df)
                  weather_df cal) as Hind.
    fold mine in Hind. unfold dropna.
    induction Hind as [|r l Hr _ IH]; [reflexivity|].
    rewrite fmap_cons, !filter_cons, IH.
    destruct (decide (map_Forall _ (cols (add_dummies present r)))) as [Hd|Hd],
             (decide (map_Forall _ (cols r))) as [Hc|Hc]; try reflexivity;
      exfalso; apply (dropna_add_dummies present r Hr) in Hd || apply Hd,
      (dropna_add_dummies present r Hr), Hc; contradiction. }
  rewrite Hdrop, <- list_fmap_compose.
  apply list_fmap_ext. intros _ r _. apply sales_feature_values_add_dummies.
Qed.

(** C2.  The lag, rolling and expanding values of the rows of item [i] in
    the training table are determined by the sales records of item [i]
    alone: two sets of records that agree on item [i] (and share the weather
    and the calendar) give item [i] the same rows, with the same dates, sales
    and values in all eleven columns, whatever the records of the other items
    are. *)
Theorem no_cross_item_leakage i df1 df2 weather_df cal :
  filter (fun s => raw_item s = i) df1 = filter (fun s => raw_item s = i) df2 ->
  sales_feature_values
    <$> filter (fun r => item r = i) (engineer_features df1 weather_df cal)
  = sales_feature_values
    <$> filter (fun r => item r = i) (engineer_features df2 weather_df cal).
Proof. intros Hsame. rewrite !item_rows_local, Hsame. reflexivity. Qed.

(** C10.  Every row of the training table has an item id from 1 to 50: for a
    record whose item id is outside this range the dictionary has no entry,
    the category is undefined, and no row of that item is left in the
    table. *)
Theorem training_items_in_range df weather_df cal :
  (forall r, r ∈ engineer_features df weather_df cal -> (1 ≤ item r ≤ 50)%Z)
  /\ (forall s, s ∈ df -> ~ (1 ≤ raw_item s ≤ 50)%Z ->
       item_categories !! raw_item s = None
       /\ cols (categorize (mkRow (raw_date s) (raw_item s) (raw_sales s) ∅))
            !! "item_category" = Some NaN
       /\ forall r, r ∈ engineer_features df weather_df cal -> item r <> raw_item s).
Proof.
  assert (Hrange : forall r, r ∈ engineer_features df weather_df cal ->
                     (1 ≤ item r ≤ 50)%Z).
  { intros r. rewrite engineer_features_eq. unfold dropna.
    intros [Hdef Hr]%list_elem_of_filter.
    apply list_elem_of_fmap in Hr as (r0 & -> & Hr0).
    unfold categorized in Hr0. apply list_elem_of_fmap in Hr0 as (r1 & -> & _).
    destruct (keys_add_dummies (present_categories (categorized df weather_df cal))
                (categorize r1)) as (_ & -> & _).
    change (item (categorize r1)) with (item r1).
    destruct (decide (1 ≤ item r1 ≤ 50)%Z) as [Hin|Hout]; [exact Hin|].
    exfalso. apply item_categories_None in Hout.
    specialize (Hdef "item_category" NaN). cbn beta in Hdef.
    assert (Hnan : is_nan NaN = false); [|discriminate Hnan].
    apply Hdef. rewrite cols_add_dummies by reflexivity.
    unfold categorize. cbn [cols set_col]. rewrite Hout. apply lookup_insert_eq. }
  split; [exact Hrange|].
  intros s _ Hout. apply item_categories_None in Hout as Hnone.
  split; [exact Hnone|]. split.
  - unfold categorize. cbn [cols set_col item]. rewrite Hnone. apply lookup_insert_eq.
  - intros r Hr Heq. apply Hrange in Hr. rewrite Heq in Hr. contradiction.
Qed.

End Properties.

(** *** Examples *)

(** Thirty days of item 1 in two stores (day [d] sells [d] and 1), with the
    weather of every day on file. *)
Definition example_item1 : list RawSale :=
  ((fun d => mkRawSale d 1 1 (inject_Z d)) <$> seqZ 1 30)
  ++ ((fun d => mkRawSale d 2 1 1) <$> seqZ 1 30).

(** Thirty days of another item at 100 a day. *)
Definition example_other (i : Z) : list RawSale :=
  (fun d => mkRawSale d 1 i 100) <$> seqZ 1 30.

Definition example_weather : list Weather :=
  (fun d => mkWeather d (Some 36) (Some 20) (Some 28) (Some 0) (Some 3))%Q <$> seqZ 1 30.

Definition example_calendar : CalendarSets := mkCalendarSets ∅ ∅ ∅ ∅.

(** Items 1, 2 and 77 on file: the table keeps days 29 and 30 of items 1 and
    2 (the first 28 days have no lag of 28), and nothing of item 77.  For
    item 1 on day 29 the sales are 30, the lag of 1 is 29 and the lag of 28
    is 2. *)
Example engineer_features_example :
  (fun r : Row => (date r, item r, sales r,
                   cols r !! "sales_lag_1", cols r !! "sales_lag_28"))
    <$> @engineer_features example_library
          (example_other 2 ++ example_item1 ++ example_other 77)
          example_weather example_calendar
  = [ (29%Z, 1%Z, 30%Q, Some (Num 29), Some (Num 2));
      (30%Z, 1%Z, 31%Q, Some (Num 30), Some (Num 3));
      (29%Z, 2%Z, 100%Q, Some (Num 100), Some (Num 100));
      (30%Z, 2%Z, 100%Q, Some (Num 100), Some (Num 100)) ].
Proof. vm_compute. reflexivity. Qed.

Lemma no_cross_item_leakage_witness :
  filter (fun s => raw_item s = 1%Z) (example_other 2 ++ example_item1 ++ example_other 77)
  = filter (fun s => raw_item s = 1%Z) (example_item1 ++ example_other 3)
  /\ sales_feature_values
       <$> filter (fun r => item r = 1%Z)
             (@engineer_features example_library
                (example_other 2 ++ example_item1 ++ example_other 77)
                example_weather example_calendar)
     = sales_feature_values
       <$> filter (fun r => item r = 1%Z)
             (@engineer_features example_library
                (example_item1 ++ example_other 3)
                example_weather example_calendar).
Proof.
  split; [vm_compute; reflexivity|].
  apply (@no_cross_item_leakage example_library). vm_compute. reflexivity.
Defined.

Lemma training_items_in_range_witness :
  Forall (fun r => 1 ≤ item r ≤ 50)%Z
    (@engineer_features example_library
       (example_other 2 ++ example_item1 ++ example_other 77)
       example_weather example_calendar).
Proof.
  apply Forall_forall.
  apply (proj1 (@training_items_in_range example_library
                  (example_other 2 ++ example_item1 ++ example_other 77)
                  example_weather example_calendar)).
Defined.

End DataPipelineFacts.

(** ** The model store and the historical route (app.py) *)

Module ServerFacts.
Import Num NumFacts FrameFacts App Models ModelsFacts.

(** *** Loading the model *)

Definition model_names : list string := ["XGBoost"; "SARIMA"; "LSTM"].

Lemma load_best_model_Some dir g ok g' :
  load_best_model dir g = Some (ok, g') ->
  (ok = false /\ g' = g)
  \/ (ok = true
      /\ exists best data,
           comparison_json dir = Some best
           /\ default "XGBoost" best ∈ model_names
           /\ loaded_model_name g' = Some (default "XGBoost" best)
           /\ loaded_model g' = Some data).
Proof.
  unfold load_best_model.
  destruct (comparison_json dir) as [best|]; [|intros [= <- <-]; left; auto].
  cbv zeta. intros Hload.
  assert (Hgoal : forall n data,
            default "XGBoost" best = n -> n ∈ model_names ->
            (true, {| loaded_model := Some data; loaded_model_name := Some n |}) = (ok, g') ->
            (ok = false /\ g' = g)
            \/ (ok = true
                /\ exists best' data',
                     Some best = Some best'
                     /\ default "XGBoost" best' ∈ model_names
                     /\ loaded_model_name g' = Some (default "XGBoost" best')
                     /\ loaded_model g' = Some data')).
  { intros n data Hn Hin [= <- <-]. right. split; [reflexivity|].
    exists best, data. rewrite Hn. auto. }
  destruct (decide (default "XGBoost" best = "XGBoost")) as [Hx|_].
  { destruct (xgboost_model_pkl dir) as [data|]; [|injection Hload as <- <-; left; auto].
    injection Hload as Hload. eapply (Hgoal _ data Hx); [left | f_equal; eassumption]. }
  destruct (decide (default "XGBoost" best = "SARIMA")) as [Hs|_].
  { destruct (arima_model_pkl dir) as [data|]; [|injection Hload as <- <-; left; auto].
    eapply (Hgoal _ data Hs); [right; left | congruence]. }
  destruct (decide (default "XGBoost" best = "LSTM")) as [Hl|_];
    [|injection Hload as <- <-; left; auto].
  destruct (lstm_model_h5 dir) as [network|]; [|injection Hload as <- <-; left; auto].
  destruct (lstm_scaler_pkl dir) as [scaler|]; [|discriminate]. simpl in Hload.
  eapply (Hgoal _ (LSTMData network scaler) Hl); [right; right; left | congruence].
Qed.

(** The states of a running process: it has started on some models
    directory, and has then served any number of retrain requests. *)
Inductive reachable : Globals -> Prop :=
| reachable_startup dir g : startup dir = Some g -> reachable g
| reachable_retrain returncode dir g :
    reachable g -> reachable (retrain returncode dir g).2.

Definition consistent (g : Globals) : Prop :=
  (loaded_model g = None <-> loaded_model_name g = None)
  /\ forall n, loaded_model_name g = Some n -> n ∈ model_names.

Lemma load_best_model_consistent dir g ok g' :
  consistent g -> load_best_model dir g = Some (ok, g') -> consistent g'.
Proof.
  intros Hg [[_ ->]|(_ & best & data & _ & Hin & Hname & Hmodel)]%load_best_model_Some;
    [exact Hg|].
  split.
  - rewrite Hname, Hmodel. split; discriminate.
  - intros n. rewrite Hname. intros [= <-]. exact Hin.
Qed.

Lemma reachable_consistent g : reachable g -> consistent g.
Proof.
  induction 1 as [dir g Hstart|returncode dir g _ IH].
  - unfold startup in Hstart.
    destruct (load_best_model dir no_globals) as [[ok g']|] eqn:Hload; [|discriminate].
    injection Hstart as <-. eapply load_best_model_consistent; [|exact Hload].
    split; [tauto | discriminate].
  - unfold retrain. destruct returncode as [rc|]; [|exact IH].
    destruct (decide (rc = 0%Z)); [|exact IH].
    destruct (load_best_model dir g) as [[ok g']|] eqn:Hload; [|exact IH].
    eapply load_best_model_consistent; [exact IH | exact Hload].
Qed.

Section Served.
Context `{Library}.

(** X16.  In every state the process can reach (started on some models
    directory, then any number of retrain requests), a model is held exactly
    when a model name is held, the name is one of XGBoost, SARIMA and LSTM,
    the health route reports a loaded model exactly when it reports a name,
    and a forecast is always made by one of the three generators: the branch
    of [generate_forecast] that answers with no forecast is never taken with
    a model loaded. *)
Theorem served_model_invariant (g : Globals) :
  reachable g ->
  (loaded_model g = None <-> loaded_model_name g = None)
  /\ (forall n, loaded_model_name g = Some n -> n ∈ ["XGBoost"; "SARIMA"; "LSTM"])
  /\ (model_loaded (health g) = true <-> is_Some (model_name (health g)))
  /\ (is_Some (loaded_model g) ->
      forall env days,
        generate_forecast env g days
        ∈ [generate_xgboost_forecast env g days; generate_arima_forecast env g days;
           generate_lstm_forecast env g days]).
Proof.
  intros [Hnone Hnames]%reachable_consistent.
  split; [exact Hnone|]. split; [exact Hnames|]. split.
  - unfold health. cbn [model_loaded model_name]. rewrite bool_decide_eq_true.
    rewrite <- !not_eq_None_Some. tauto.
  - intros Hsome env days. unfold generate_forecast.
    destruct (loaded_model_name g) as [n|] eqn:Hn.
    + specialize (Hnames n eq_refl).
      repeat (apply elem_of_cons in Hnames as [->|Hnames]); [| | |inversion Hnames].
      * rewrite decide_True by reflexivity. left.
      * rewrite decide_False by discriminate. rewrite decide_True by reflexivity.
        right; left.
      * rewrite !decide_False by discriminate. rewrite decide_True by reflexivity.
        right; right; left.
    + apply not_eq_None_Some in Hsome. destruct Hsome. apply Hnone. reflexivity.
Qed.

End Served.

Lemma load_best_model_None dir g :
  load_best_model dir g = None
  <-> exists best,
        comparison_json dir = Some best
        /\ default "XGBoost" best = "LSTM"
        /\ is_Some (lstm_model_h5 dir)
        /\ lstm_scaler_pkl dir = None.
Proof.
  unfold load_best_model. destruct (comparison_json dir) as [best|].
  2:{ split; [discriminate | intros (best & Hb & _); discriminate]. }
  cbv zeta.
  destruct (decide (default "XGBoost" best = "XGBoost")) as [Hx|Hx].
  { split.
    - destruct (xgboost_model_pkl dir); discriminate.
    - intros (best' & [= <-] & Hl & _). rewrite Hx in Hl. discriminate. }
  destruct (decide (default "XGBoost" best = "SARIMA")) as [Hs|Hs].
  { split.
    - destruct (arima_model_pkl dir); discriminate.
    - intros (best' & [= <-] & Hl & _). rewrite Hs in Hl. discriminate. }
  destruct (decide (default "XGBoost" best = "LSTM")) as [Hl|Hl].
  2:{ split; [discriminate|]. intros (best' & [= <-] & Hl' & _). contradiction. }
  destruct (lstm_model_h5 dir) as [network|].
  2:{ split; [discriminate|]. intros (_ & _ & _ & Hn & _). destruct Hn. discriminate. }
  destruct (lstm_scaler_pkl dir) as [scaler|]; simpl.
  - split; [discriminate|]. intros (_ & _ & _ & _ & Hsc). discriminate.
  - split; [|reflexivity]. intros _. exists best. eauto.
Qed.

(** X17.  A retrain request answers "success" exactly when the training
    process exits with code 0 and loading raises nothing, and then reports
    the name the process holds after loading; it answers with an error, which
    has status 500 and leaves the state untouched, exactly when the exit code
    is another one, the process could not be run, or loading raises.  Loading
    raises exactly when the comparison names the LSTM and its network is on
    file but not its scaler.  After a load that raised nothing the state is
    either untouched (nothing could be loaded, and "success" is reported with
    the model held before) or holds the best model of the comparison.  In
    particular a training run that exits with 0 but leaves no comparison file
    is answered with "success" and the old model. *)
Theorem retrain_outcome returncode dir g :
  (forall active g',
     retrain returncode dir g = (RetrainSuccess active, g')
     <-> returncode = Some 0%Z
         /\ active = loaded_model_name g'
         /\ exists ok, load_best_model dir g = Some (ok, g'))
  /\ (forall status g',
        retrain returncode dir g = (RetrainError status, g')
        <-> status = 500%Z /\ g' = g
            /\ (returncode <> Some 0%Z \/ load_best_model dir g = None))
  /\ (load_best_model dir g = None
      <-> exists best,
            comparison_json dir = Some best
            /\ default "XGBoost" best = "LSTM"
            /\ is_Some (lstm_model_h5 dir)
            /\ lstm_scaler_pkl dir = None)
  /\ (forall ok g',
        load_best_model dir g = Some (ok, g') ->
        (ok = false /\ g' = g)
        \/ (ok = true
            /\ exists best data,
                 comparison_json dir = Some best
                 /\ loaded_model_name g' = Some (default "XGBoost" best)
                 /\ loaded_model g' = Some data))
  /\ (returncode = Some 0%Z -> comparison_json dir = None ->
      retrain returncode dir g = (RetrainSuccess (loaded_model_name g), g)).
Proof.
  split; [|split; [|split; [|split]]].
  - intros active g'. unfold retrain. destruct returncode as [rc|].
    2:{ split; [discriminate | intros [Hrc _]; discriminate]. }
    destruct (decide (rc = 0%Z)) as [->|Hrc].
    2:{ split; [discriminate | intros [[= ?] _]; contradiction]. }
    destruct (load_best_model dir g) as [[ok g1]|].
    + split.
      * intros [= <- <-]. split; [reflexivity|]. split; [reflexivity|].
        exists ok. reflexivity.
      * intros (_ & -> & ok' & [= _ <-]). reflexivity.
    + split; [discriminate | intros (_ & _ & ok' & Hload); discriminate].
  - intros st g'. unfold retrain. destruct returncode as [rc|].
    2:{ split; [intros [= <- <-] | intros (-> & -> & _)];
          [split; [reflexivity|]; split; [reflexivity|]; left; discriminate
          | reflexivity]. }
    destruct (decide (rc = 0%Z)) as [->|Hrc].
    2:{ split; [intros [= <- <-] | intros (-> & -> & _); reflexivity].
        split; [reflexivity|]. split; [reflexivity|]. left. intros [= ?]. contradiction. }
    destruct (load_best_model dir g) as [[ok g1]|].
    + split; [discriminate|]. intros (_ & _ & [Hrc|Hload]); [|discriminate].
      destruct Hrc. reflexivity.
    + split; [intros [= <- <-] | intros (-> & -> & _); reflexivity].
      split; [reflexivity|]. split; [reflexivity|]. right. reflexivity.
  - apply load_best_model_None.
  - intros ok g' Hload.
    apply load_best_model_Some in Hload
      as [[-> ->]|(-> & best & data & Hc & _ & Hname & Hmodel)]; [left; auto|].
    right. split; [reflexivity|]. exists best, data. auto.
  - intros -> Hdir. unfold retrain, load_best_model. rewrite Hdir.
    rewrite decide_True by reflexivity. reflexivity.
Qed.

(** *** The historical route *)

Lemma sorted_keys_gap (s : list (Z * Q)) i j a b :
  StronglySorted (fun e e' => e.1 < e'.1)%Z s ->
  s !! i = Some a -> s !! j = Some b -> (i ≤ j)%nat ->
  (a.1 + Z.of_nat (j - i) ≤ b.1)%Z.
Proof.
  intros Hs. revert i j a b. induction Hs as [|e s Hs IH He]; intros i j a b Ha Hb Hij;
    [discriminate|].
  destruct i as [|i], j as [|j]; simpl in Ha, Hb; try lia.
  - injection Ha as <-. injection Hb as <-. simpl. lia.
  - injection Ha as <-.
    assert (H0 : exists c, s !! 0%nat = Some c).
    { destruct s as [|c s]; [discriminate|]. exists c. reflexivity. }
    destruct H0 as [c Hc]. specialize (IH 0%nat j c b Hc Hb ltac:(lia)).
    rewrite Forall_forall in He.
    specialize (He c (list_elem_of_lookup_2 _ _ _ Hc)). simpl in He.
    rewrite Nat.sub_0_r in IH. rewrite Nat.sub_0_r. lia.
  - specialize (IH i j a b Ha Hb ltac:(lia)). simpl. exact IH.
Qed.

Lemma elem_of_py_tail {A} (n : nat) (l : list A) x :
  x ∈ Frame.py_tail n l <-> exists i, l !! i = Some x /\ (length l - n ≤ i)%nat.
Proof.
  unfold Frame.py_tail. rewrite list_elem_of_lookup. split.
  - intros [i Hi]. rewrite lookup_drop in Hi. eexists. split; [exact Hi | lia].
  - intros (i & Hi & Hle). exists (i - (length l - n))%nat. rewrite lookup_drop.
    rewrite <- Hi. f_equal. lia.
Qed.

Lemma StronglySorted_drop {A} (R : A -> A -> Prop) (n : nat) (l : list A) :
  StronglySorted R l -> StronglySorted R (drop n l).
Proof.
  intros Hl. revert n. induction Hl as [|x l Hl IH Hx]; intros [|n]; simpl;
    [constructor | constructor | constructor; assumption | apply IH].
Qed.

Lemma StronglySorted_fmap_inv {A B} (f : A -> B) (R : B -> B -> Prop) (l : list A) :
  StronglySorted (fun x y => R (f x) (f y)) l -> StronglySorted R (f <$> l).
Proof.
  induction 1 as [|x l Hl IH Hx]; simpl; constructor; [exact IH|].
  apply Forall_fmap. exact Hx.
Qed.

Lemma xgboost_test_latest (df : list Frame.Row) r :
  r ∈ (train_xgboost_split df).2 ->
  r ∈ df /\ forall r', r' ∈ df -> (Frame.date r' - 90 < Frame.date r)%Z.
Proof.
  intros Hr. destruct (max_date df) as [latest|] eqn:Hm.
  - apply max_date_spec in Hm as (Hle & rmax & Hrmax & Hdate).
    assert (Hin : latest ∈ Frame.date <$> df)
      by (apply list_elem_of_fmap; exists rmax; auto).
    assert (Hall : forall d, d ∈ Frame.date <$> df -> (d ≤ latest)%Z)
      by (intros d (r' & -> & Hr')%list_elem_of_fmap; apply Hle, Hr').
    destruct (proj1 (xgboost_test_rows df latest Hin Hall r) Hr) as [Hrdf Hd].
    split; [exact Hrdf|]. intros r' Hr'. specialize (Hle r' Hr'). lia.
  - apply max_date_None in Hm. subst df. inversion Hr.
Qed.

(** X18.  The historical route answers with the model name held and with
    the last 90 daily totals on file, or all of them when there are fewer: at
    most 90 points, in strictly increasing date order, each for a date of the
    file with the rounded sum of that date's sales; the dates reported are
    the last ones of the file's dates in increasing order, so a date of the
    file that is later than a reported date is reported too.  These are the
    last 90 dates that have rows, not the last 90 calendar days; every date
    of the test set of the tree-ensemble trainer is among them. *)
Theorem historical_last_90_days dir (df : list Frame.Row) g model_used data :
  historical_comparison dir (Some df) g = HistoricalData model_used data ->
  model_used = loaded_model_name g
  /\ length data = (90 `min` length (Frame.daily_total df))%nat
  /\ StronglySorted (fun p q => day p < day q)%Z data
  /\ (forall p, p ∈ data ->
        day p ∈ Frame.date <$> df
        /\ actual_demand p
           = py_round (Qsum (Frame.sales <$> filter (fun r => Frame.date r = day p) df)) 1)
  /\ day <$> data = Frame.py_tail 90 (Frame.daily_series df).*1
  /\ (forall d p, d ∈ Frame.date <$> df -> p ∈ data -> (day p < d)%Z ->
        d ∈ day <$> data)
  /\ (forall r, r ∈ (train_xgboost_split df).2 -> Frame.date r ∈ day <$> data).
Proof.
  unfold historical_comparison. destruct (comparison_json dir); [|discriminate].
  cbv zeta. intros Heq. injection Heq as <- <-.
  destruct (daily_series_spec df) as (Hsorted & Hnd & Hkeys & Hsum).
  assert (Hdays : day <$> ((fun row : Z * Q =>
                              {| day := row.1; actual_demand := py_round row.2 1 |})
                             <$> Frame.py_tail 90 (Frame.daily_series df))
                  = Frame.py_tail 90 (Frame.daily_series df).*1).
  { rewrite <- list_fmap_compose. unfold Frame.py_tail.
    rewrite fmap_drop, length_fmap. reflexivity. }
  assert (Hin : forall d, d ∈ Frame.py_tail 90 (Frame.daily_series df).*1
                <-> exists i v, Frame.daily_series df !! i = Some (d, v)
                      /\ (length (Frame.daily_series df) - 90 ≤ i)%nat).
  { intros d. rewrite elem_of_py_tail, length_fmap. split.
    - intros (i & Hi & Hle). rewrite list_lookup_fmap in Hi.
      destruct (Frame.daily_series df !! i) as [[d' v]|] eqn:Hi'; [|discriminate].
      injection Hi as <-. exists i, v. auto.
    - intros (i & v & Hi & Hle). exists i. rewrite list_lookup_fmap, Hi. auto. }
  split; [reflexivity|]. split.
  { rewrite length_fmap. unfold Frame.py_tail. rewrite length_drop.
    change (Frame.daily_total df) with (Frame.daily_series df).*2.
    rewrite length_fmap. lia. }
  split.
  { apply (StronglySorted_fmap_inv
             (fun row : Z * Q => {| day := row.1; actual_demand := py_round row.2 1 |})
             (fun p q => day p < day q)%Z).
    apply StronglySorted_drop, Hsorted. }
  split; [|split; [exact Hdays|split]].
  - intros p ([d v] & -> & Hp)%list_elem_of_fmap. cbn [day actual_demand fst snd].
    apply elem_of_py_tail in Hp as (i & Hi & _).
    apply list_elem_of_lookup_2 in Hi. split.
    + apply Hkeys, list_elem_of_fmap. exists (d, v). auto.
    + apply py_round_comp, Hsum, Hi.
  - intros d p Hd Hp Hlater. rewrite Hdays. apply Hin.
    assert (Hp' : day p ∈ Frame.py_tail 90 (Frame.daily_series df).*1)
      by (rewrite <- Hdays; apply list_elem_of_fmap; exists p; auto).
    apply Hin in Hp' as (i & v & Hi & Hle).
    apply Hkeys, list_elem_of_fmap in Hd as ([d' v'] & Hd' & Hdin). simpl in Hd'. subst d'.
    apply list_elem_of_lookup in Hdin as [j Hj].
    exists j, v'. split; [exact Hj|].
    destruct (decide (i ≤ j)%nat) as [Hij|Hij]; [lia|].
    pose proof (sorted_keys_gap _ j i _ _ Hsorted Hj Hi ltac:(lia)) as Hgap.
    simpl in Hgap. lia.
  - intros r [Hr Hlatest]%xgboost_test_latest. rewrite Hdays. apply Hin.
    assert (Hd : Frame.date r ∈ (Frame.daily_series df).*1)
      by (apply Hkeys, list_elem_of_fmap; exists r; auto).
    apply list_elem_of_fmap in Hd as ([d v] & Hdate & Hdin). simpl in Hdate. subst d.
    apply list_elem_of_lookup in Hdin as [i Hi].
    exists i, v. split; [exact Hi|].
    assert (Hlt : (i < length (Frame.daily_series df))%nat)
      by (eapply lookup_lt_Some; exact Hi).
    destruct (lookup_lt_is_Some_2 (Frame.daily_series df)
                (length (Frame.daily_series df) - 1)) as [[dl vl] Hl]; [lia|].
    pose proof (sorted_keys_gap _ i _ _ _ Hsorted Hi Hl ltac:(lia)) as Hgap.
    assert (Hdl : dl ∈ Frame.date <$> df).
    { apply Hkeys, list_elem_of_fmap. exists (dl, vl).
      split; [reflexivity | eapply list_elem_of_lookup_2; exact Hl]. }
    apply list_elem_of_fmap in Hdl as (rl & -> & Hrl).
    specialize (Hlatest rl Hrl). simpl in Hgap. lia.
Qed.

(** *** Examples *)

(** A models directory after a training run that SARIMA won, and one
    without any file. *)
Definition example_dir : ModelsDir :=
  {| comparison_json := Some (Some "SARIMA");
     xgboost_model_pkl := Some (XGBoostData (fun _ => 0%Q) []);
     arima_model_pkl := Some (SARIMAXResults (fun steps => replicate (Z.to_nat steps) 10%Q));
     lstm_model_h5 := None;
     lstm_scaler_pkl := None |}.

Definition example_empty_dir : ModelsDir :=
  {| comparison_json := None; xgboost_model_pkl := None; arima_model_pkl := None;
     lstm_model_h5 := None; lstm_scaler_pkl := None |}.

Definition example_started : Globals :=
  {| loaded_model := Some (SARIMAXResults (fun steps => replicate (Z.to_nat steps) 10%Q));
     loaded_model_name := Some "SARIMA" |}.

(** The LSTM is named best and its network is on file, but not its scaler:
    loading raises, although the XGBoost artifact is there. *)
Example load_best_model_missing_scaler :
  load_best_model
    {| comparison_json := Some (Some "LSTM");
       xgboost_model_pkl := Some (XGBoostData (fun _ => 0%Q) []);
       arima_model_pkl := None;
       lstm_model_h5 := Some (fun _ => 0%Q);
       lstm_scaler_pkl := None |} no_globals
  = None.
Proof. reflexivity. Qed.

Lemma served_model_invariant_witness :
  startup example_dir = Some example_started
  /\ (loaded_model example_started = None <-> loaded_model_name example_started = None)
  /\ (model_loaded (health example_started) = true
      <-> is_Some (model_name (health example_started))).
Proof.
  assert (Hstart : startup example_dir = Some example_started) by reflexivity.
  split; [exact Hstart|].
  destruct (@served_model_invariant example_library example_started
              (reachable_startup example_dir example_started Hstart))
    as (Hnone & _ & Hhealth & _).
  split; [exact Hnone | exact Hhealth].
Defined.

Lemma retrain_outcome_witness :
  retrain (Some 0%Z) example_empty_dir example_started
  = (RetrainSuccess (Some "SARIMA"), example_started).
Proof.
  apply (proj2 (retrain_outcome (Some 0%Z) example_empty_dir example_started));
    reflexivity.
Defined.

Lemma historical_last_90_days_witness :
  exists data,
    historical_comparison example_dir (Some (ModelsFacts.example_days 100)) example_started
    = HistoricalData (Some "SARIMA") data
    /\ length data = (90 `min` length (Frame.daily_total (ModelsFacts.example_days 100)))%nat.
Proof.
  eexists. split; [reflexivity|].
  apply (historical_last_90_days example_dir (ModelsFacts.example_days 100) example_started
           (Some "SARIMA") _ eq_refl).
Defined.

End ServerFacts.
